(** * Trinity demo: the mock data interceptor ([mock-data.js])

    A shallow embedding of the route-matching and mock-response engine of
    [mock-data.js] and of the generators behind it, followed by the
    properties of the specification that were settled against it (Part
    II) and by further properties of the code (Part III).

    Conventions of the embedding.
    - JavaScript numbers are kept behind the interface [Number], with two
      instances: [Exact] (rationals, the arithmetic of the real numbers
      the code is written for) and [Float64] (IEEE-754 binary64 with
      round-to-nearest-even, the arithmetic the engine runs).  The program
      is translated once, over the interface.  Universally quantified
      numeric statements are proved over [Exact]; concrete runs are
      replayed over both.  Where binary64 departs from the exact result
      by more than rounding noise (the largest draw in [randInt], a
      liquidation price at the edge of a unit of the fourth decimal), the
      statement is the one that holds in both and the departure is
      replayed beside it.
    - [Math.random()] is the host's: its n-th result is taken from
      [random_bits] of the [Host], as a 53-bit integer over 2^53, so that a
      draw is in [0,1) by construction and is the same number in both
      instances.  Code that draws runs in the state monad [Rand] over the
      position in that stream.
    - An ISO-8601 time stamp ([toISOString]) is kept as the instant it
      renders, in milliseconds since the epoch; [new Date(s)] of such a
      string gives the instant back.
    - Objects used as maps ([_candleCache], the result of
      [generateEquitySymbols]) are [gmap]s keyed by strings. *)

From Stdlib Require Import ZArith QArith Qround Qabs Lia Lqa List String Ascii.
From Stdlib Require Import Floats Uint63 Permutation Sorted DecimalString DecimalNat.
From stdpp Require Import gmap strings.
Import ListNotations.

Open Scope string_scope.
Open Scope Z_scope.

(* ===================================================================== *)
(** * Part I. The model                                                   *)
(* ===================================================================== *)

(** ** JavaScript numbers *)

(** What the program asks of a number.  [to_int x] is [Some z] when [x] is
    the integer [z] (the array index or loop bound [x] stands for), and
    [nan] is the value of arithmetic on [undefined]. *)
Class Number (num : Type) : Type := {
  of_Z : Z -> num;
  nan : num;
  add : num -> num -> num;
  sub : num -> num -> num;
  mul : num -> num -> num;
  div : num -> num -> num;
  Math_floor : num -> num;
  Math_round : num -> num;
  Math_abs : num -> num;
  Math_max : num -> num -> num;
  Math_min : num -> num -> num;
  ltb : num -> num -> bool;
  leb : num -> num -> bool;
  eqb : num -> num -> bool;
  to_int : num -> option Z
}.

Declare Scope js_scope.
Delimit Scope js_scope with js.
Infix "+" := add : js_scope.
Infix "-" := sub : js_scope.
Infix "*" := mul : js_scope.
Infix "/" := div : js_scope.
Infix "<?" := ltb : js_scope.
Infix "<=?" := leb : js_scope.
Infix "=?" := eqb : js_scope.

(** *** Exact arithmetic *)

Definition Q_ltb (x y : Q) : bool := if Qlt_le_dec x y then true else false.

Definition Q_to_int (x : Q) : option Z :=
  if Qeq_bool x (inject_Z (Qfloor x)) then Some (Qfloor x) else None.

(** [Math.round] rounds to the nearest integer, a tie towards +infinity. *)
Definition Q_round (x : Q) : Q := inject_Z (Qfloor (x + (1 # 2))%Q).

#[export] Instance Exact : Number Q := {|
  of_Z := inject_Z;
  nan := 0%Q;
  add := Qplus;
  sub := Qminus;
  mul := Qmult;
  div := Qdiv;
  Math_floor := fun x => inject_Z (Qfloor x);
  Math_round := Q_round;
  Math_abs := Qabs;
  Math_max := fun x y => if Q_ltb x y then y else x;
  Math_min := fun x y => if Q_ltb y x then y else x;
  ltb := Q_ltb;
  leb := Qle_bool;
  eqb := Qeq_bool;
  to_int := Q_to_int
|}.

(** *** IEEE-754 binary64 *)

Definition float_of_Z (z : Z) : float :=
  if z <? 0 then PrimFloat.opp (PrimFloat.of_uint63 (Uint63.of_Z (- z)))
  else PrimFloat.of_uint63 (Uint63.of_Z z).

(** The numerator of a finite float [m * 2^e], with its sign. *)
Definition signed (s : bool) (m : positive) : Z := if s then Z.neg m else Z.pos m.

Definition float_integral (x : float) : bool :=
  match Prim2SF x with
  | S754_finite _ m e => (0 <=? e) || (Z.pos m mod 2 ^ (- e) =? 0)
  | _ => true
  end.

Definition float_floorZ (x : float) : option Z :=
  match Prim2SF x with
  | S754_zero _ => Some 0
  | S754_finite s m e =>
      Some (if 0 <=? e then signed s m * 2 ^ e else signed s m / 2 ^ (- e))
  | _ => None
  end.

Definition float_roundZ (x : float) : option Z :=
  match Prim2SF x with
  | S754_zero _ => Some 0
  | S754_finite s m e =>
      Some (if 0 <=? e then signed s m * 2 ^ e
            else (2 * signed s m + 2 ^ (- e)) / (2 * 2 ^ (- e)))
  | _ => None
  end.

(** [Math.floor] and [Math.round]: an integral value, an infinity and NaN
    are returned as they are; any other value is below 2^52 in magnitude
    and its rounding is computed on its numerator and exponent. *)
Definition float_floor (x : float) : float :=
  if float_integral x then x
  else match float_floorZ x with Some z => float_of_Z z | None => x end.

Definition float_round (x : float) : float :=
  if float_integral x then x
  else match float_roundZ x with Some z => float_of_Z z | None => x end.

Definition float_to_int (x : float) : option Z :=
  if float_integral x then float_floorZ x else None.

Definition float_max (x y : float) : float :=
  if PrimFloat.is_nan x || PrimFloat.is_nan y then PrimFloat.nan
  else if PrimFloat.ltb x y then y else x.

Definition float_min (x y : float) : float :=
  if PrimFloat.is_nan x || PrimFloat.is_nan y then PrimFloat.nan
  else if PrimFloat.ltb y x then y else x.

#[export] Instance Float64 : Number float := {|
  of_Z := float_of_Z;
  nan := PrimFloat.nan;
  add := PrimFloat.add;
  sub := PrimFloat.sub;
  mul := PrimFloat.mul;
  div := PrimFloat.div;
  Math_floor := float_floor;
  Math_round := float_round;
  Math_abs := PrimFloat.abs;
  Math_max := float_max;
  Math_min := float_min;
  ltb := PrimFloat.ltb;
  leb := PrimFloat.leb;
  eqb := PrimFloat.eqb;
  to_int := float_to_int
|}.

(** ** Strings *)

(** [p.startsWith(prefix)]. *)
Fixpoint startsWith (pre s : string) : bool :=
  match pre, s with
  | EmptyString, _ => true
  | String a pre', String b s' => Ascii.eqb a b && startsWith pre' s'
  | String _ _, EmptyString => false
  end.

(** [s.includes(needle)]. *)
Fixpoint includes (needle s : string) : bool :=
  startsWith needle s ||
  match s with
  | EmptyString => false
  | String _ s' => includes needle s'
  end.

(** [s.split(c)] for a one-character separator: never empty. *)
Fixpoint split_on (c : ascii) (s : string) : list string :=
  match s with
  | EmptyString => [EmptyString]
  | String a s' =>
      if Ascii.eqb a c then EmptyString :: split_on c s'
      else match split_on c s' with
           | [] => [String a EmptyString]
           | h :: t => String a h :: t
           end
  end.

(** [String(n).padStart(4, '0')]. *)
Definition decimal (n : nat) : string := NilEmpty.string_of_uint (Nat.to_uint n).

Fixpoint zeros (n : nat) : string :=
  match n with O => EmptyString | S n' => String "0" (zeros n') end.

Definition padStart4 (s : string) : string :=
  zeros (4 - String.length s) ++ s.

(** [n.toString(16)] for a digit: what [uuid] prints. *)
Definition hex_digit (z : Z) : string :=
  match z with
  | 0 => "0" | 1 => "1" | 2 => "2" | 3 => "3" | 4 => "4" | 5 => "5"
  | 6 => "6" | 7 => "7" | 8 => "8" | 9 => "9" | 10 => "a" | 11 => "b"
  | 12 => "c" | 13 => "d" | 14 => "e" | 15 => "f"
  | _ => "NaN"
  end.

(** ** The host *)

(** What the script takes from the browser.  [url_pathname u] is
    [new URL(u, window.location.origin).pathname], [None] when the
    constructor throws; [search_get u k] is
    [new URL(u, 'http://localhost').searchParams.get(k)], [None] for
    [null]; [parseInt s] is [None] for NaN. *)
Class Host : Type := {
  NOW : Z;
  random_bits : nat -> Z;
  url_pathname : string -> option string;
  search_get : string -> string -> option string;
  parseInt : string -> option Z;
  toUpperCase : string -> string
}.

(** ** Random draws *)

(** A computation that draws: from the position in the host's stream to a
    result and the position after it. *)
Definition Rand (A : Type) : Type := nat -> A * nat.

Definition ret {A : Type} (a : A) : Rand A := fun p => (a, p).

Definition bind {A B : Type} (m : Rand A) (k : A -> Rand B) : Rand B :=
  fun p => let (a, p') := m p in k a p'.

Notation "x <- m ;; k" := (bind m (fun x => k))
  (at level 62, m at next level, right associativity).

(** [for (let i = start; i < start + n; i++) out.push(body(i))]. *)
Fixpoint for_push {A : Type} (body : nat -> Rand A) (i n : nat) : Rand (list A) :=
  match n with
  | O => ret []
  | S n' => x <- body i ;; xs <- for_push body (S i) n' ;; ret (x :: xs)
  end.

(** [template.replace(/[xy]/g, f)], the callback drawing: left to right,
    [f] deciding at each character whether it is one to replace. *)
Fixpoint replace_chars (f : ascii -> Rand string) (s : string) : Rand string :=
  match s with
  | EmptyString => ret EmptyString
  | String c s' => h <- f c ;; t <- replace_chars f s' ;; ret (h ++ t)
  end.

(** [arr.sort(cmp)]: the stable sort the language specifies for a
    consistent comparator; [x] goes after [y] when [cmp(x, y) > 0]. *)
Fixpoint sort_insert {A : Type} (after : A -> A -> bool) (x : A) (l : list A) : list A :=
  match l with
  | [] => [x]
  | y :: l' => if after x y then y :: sort_insert after x l' else x :: y :: l'
  end.

Definition sort {A : Type} (after : A -> A -> bool) (l : list A) : list A :=
  fold_right (sort_insert after) [] l.

Section Helpers.
Context {num : Type} `{Number num} `{Host}.
Local Open Scope js_scope.

(** A literal without a fraction, and a decimal literal [m / 10^k]. *)
Definition lit (z : Z) : num := of_Z z.
Definition dec (m : Z) (k : Z) : num := of_Z m / of_Z (10 ^ k).

Definition DAY_MS : num := lit 86400000.
Definition HOUR_MS : num := lit 3600000.

(** [x | 0] for the values the script applies it to (ToInt32). *)
Definition to_int32 (x : num) : Z :=
  let t := if x <? lit 0 then lit 0 - Math_floor (lit 0 - x) else Math_floor x in
  match to_int t with
  | Some z => (z + 2 ^ 31) mod 2 ^ 32 - 2 ^ 31
  | None => 0
  end.

(** [arr[x]] for a number [x]; [undefined] is the default given. *)
Definition index {A : Type} (arr : list A) (x : num) (undefined : A) : A :=
  match to_int x with
  | Some z => if (z <? 0)%Z then undefined else nth (Z.to_nat z) arr undefined
  | None => undefined
  end.

(** [isoAgo(ms)] and [isoAt(ts)]: the instants whose ISO strings the
    script builds. *)
Definition isoAgo (ms : num) : num := lit NOW - ms.
Definition isoAt (ts : num) : num := ts.

(** [Math.random()]: the next draw of the host, in [0, 1). *)

Definition Math_random : Rand num :=
  fun p => (of_Z (random_bits p mod 2 ^ 53) / of_Z (2 ^ 53), S p).

Definition rand (min max : num) : Rand num :=
  r <- Math_random ;; ret (r * (max - min) + min).

Definition randInt (min max : num) : Rand num :=
  r <- rand min (max + lit 1) ;; ret (Math_floor r).

(** [pick(arr)]; the stand-in for [undefined] is what an index out of
    range would give, which a draw in [0, 1) never produces on a non-empty
    array ([pick_in] below). *)
Definition pick {A : Type} (arr : list A) (undefined : A) : Rand A :=
  i <- randInt (lit 0) (lit (Z.of_nat (List.length arr)) - lit 1) ;;
  ret (index arr i undefined).

Definition round2 (n : num) : num := Math_round (n * lit 100) / lit 100.
Definition round4 (n : num) : num := Math_round (n * lit 10000) / lit 10000.

Definition uuid : Rand string :=
  replace_chars
    (fun c =>
       if (Ascii.eqb c "x" || Ascii.eqb c "y")%bool then
         r0 <- Math_random ;;
         let r := to_int32 (r0 * lit 16) in
         ret (hex_digit (if Ascii.eqb c "x" then r
                         else Z.lor (Z.land r 3) 8))
       else ret (String c EmptyString))
    "xxxxxxxx-xxxx-4xxx-yxxx-xxxxxxxxxxxx".

End Helpers.

(** ** Data model *)

Inductive Side : Type := LONG | SHORT.

Inductive Status : Type := open | closed.

Definition is_open (s : Status) : bool :=
  match s with open => true | closed => false end.

Definition is_long (s : Side) : bool :=
  match s with LONG => true | SHORT => false end.

(** A trade record, as [generateTrades] pushes it. *)
Module Trade.
Record t (num : Type) : Type := mk {
  id : string;
  symbol : string;
  side : Side;
  entry_price : num;
  exit_price : option num;
  current_price : num;
  pnl_usd : num;
  pnl_percent : num;
  r_multiple : num;
  entry_time : num;
  exit_time : option num;
  status : Status;
  quantity : num;
  leverage : num;
  stop_loss : num;
  take_profit : num;
  fee_usd : num;
  regime : string;
  trinity_score : num;
  setup_type : string;
  confidence : num;
  entry_reason : string
}.
Arguments mk {num}.
Arguments id {num}.
Arguments symbol {num}.
Arguments side {num}.
Arguments entry_price {num}.
Arguments exit_price {num}.
Arguments current_price {num}.
Arguments pnl_usd {num}.
Arguments pnl_percent {num}.
Arguments r_multiple {num}.
Arguments entry_time {num}.
Arguments exit_time {num}.
Arguments status {num}.
Arguments quantity {num}.
Arguments leverage {num}.
Arguments stop_loss {num}.
Arguments take_profit {num}.
Arguments fee_usd {num}.
Arguments regime {num}.
Arguments trinity_score {num}.
Arguments setup_type {num}.
Arguments confidence {num}.
Arguments entry_reason {num}.
End Trade.

(** The position view of an open trade, as [tradesAsPositions] maps it. *)
Module Position.
Record t (num : Type) : Type := mk {
  symbol : string;
  side : Side;
  size : num;
  notional : num;
  entry_price : num;
  current_price : num;
  liquidation_price : num;
  unrealized_pnl : num;
  unrealized_pnl_percent : num;
  leverage : num;
  margin_used : num;
  stop_loss : num;
  take_profit : num;
  entry_time : num;
  r_multiple : num;
  regime : string;
  setup_type : string
}.
Arguments mk {num}.
Arguments symbol {num}.
Arguments side {num}.
Arguments size {num}.
Arguments notional {num}.
Arguments entry_price {num}.
Arguments current_price {num}.
Arguments liquidation_price {num}.
Arguments unrealized_pnl {num}.
Arguments unrealized_pnl_percent {num}.
Arguments leverage {num}.
Arguments margin_used {num}.
Arguments stop_loss {num}.
Arguments take_profit {num}.
Arguments entry_time {num}.
Arguments r_multiple {num}.
Arguments regime {num}.
Arguments setup_type {num}.
End Position.

(** A price bar. *)
Module Candle.
Record t (num : Type) : Type := mk {
  time : num;
  open : num;
  high : num;
  low : num;
  close : num;
  volume : num
}.
Arguments mk {num}.
Arguments time {num}.
Arguments open {num}.
Arguments high {num}.
Arguments low {num}.
Arguments close {num}.
Arguments volume {num}.
End Candle.

(** A point of an equity curve; [date] is the instant whose calendar day
    the script prints. *)
Module EquityPoint.
Record t (num : Type) : Type := mk { date : num; equity : num }.
Arguments mk {num}.
Arguments date {num}.
Arguments equity {num}.
End EquityPoint.

Module Alert.
Record t (num : Type) : Type := mk {
  id : string;
  timestamp : num;
  level : string;
  message : string;
  source : string;
  acknowledged : bool
}.
Arguments mk {num}.
Arguments id {num}.
Arguments timestamp {num}.
Arguments level {num}.
Arguments message {num}.
Arguments source {num}.
Arguments acknowledged {num}.
End Alert.

(** An error entry; its [stack] is always [null]. *)
Module ErrorEntry.
Record t (num : Type) : Type := mk {
  id : string;
  timestamp : num;
  message : string;
  resolved : bool;
  source : string
}.
Arguments mk {num}.
Arguments id {num}.
Arguments timestamp {num}.
Arguments message {num}.
Arguments resolved {num}.
Arguments source {num}.
End ErrorEntry.

(** ** Constants *)

Definition CRYPTO_SYMBOLS : list string :=
  ["BTC"; "ETH"; "SOL"; "DOGE"; "SUI"; "LINK"; "SEI"].
Definition STOCK_SYMBOLS : list string :=
  ["AAPL"; "TSLA"; "NVDA"; "MSFT"; "AMZN"; "META"; "GOOG"].
Definition SIDES : list Side := [LONG; SHORT].
Definition SETUP_TYPES : list string :=
  ["Breakout"; "Reversal"; "Continuation"; "Mean Reversion"].
Definition REGIMES : list string :=
  ["Growth"; "Expansion"; "Neutral"; "Contraction"; "Recession"].
Definition ENTRY_REASONS : list string :=
  ["Multi-factor confluence detected";
   "Strong momentum breakout confirmed";
   "Mean reversion signal at key level";
   "Trend continuation after pullback";
   "Volume surge with price confirmation";
   "Key support bounce with divergence";
   "Resistance break with follow-through";
   "Oversold bounce in uptrend context"].

(** [obj[key]] of an object literal used as a table. *)
Fixpoint prop {A : Type} (obj : list (string * A)) (key : string) : option A :=
  match obj with
  | [] => None
  | (k, v) :: obj' => if String.eqb k key then Some v else prop obj' key
  end.

(** The printed form of [undefined], where a string is expected. *)
Definition undefined : string := "undefined".

Section Generators.
Context {num : Type} `{Number num} `{Host}.
Local Open Scope js_scope.

Definition CRYPTO_PRICES : list (string * num) :=
  [("BTC", lit 97250); ("ETH", dec 34205 1); ("SOL", dec 1983 1);
   ("DOGE", dec 3245 4); ("SUI", dec 412 2); ("LINK", dec 248 1);
   ("SEI", dec 785 3)].

Definition STOCK_PRICES : list (string * num) :=
  [("AAPL", dec 2453 1); ("TSLA", dec 4128 1); ("NVDA", dec 8905 1);
   ("MSFT", dec 4782 1); ("AMZN", dec 2256 1); ("META", dec 6124 1);
   ("GOOG", dec 1927 1)].

(** [priceMap[sym]] read as a number. *)
Definition price_of (priceMap : list (string * num)) (sym : string) : num :=
  match prop priceMap sym with Some p => p | None => nan end.

(** *** Trade generator *)

(** The body of the loop of [generateTrades], at index [i]. *)
Definition generateTrades_body (symbols : list string)
    (priceMap : list (string * num)) (leverage : num) (prefix : string)
    (openCount : nat) (i : nat) : Rand (Trade.t num) :=
  let isOpen := (i <? openCount)%nat in
  sym <- (if isOpen
          then ret (nth (i mod List.length symbols)%nat symbols undefined)
          else pick symbols undefined) ;;
  side <- pick SIDES LONG ;;
  let basePrice := price_of priceMap sym in
  let volatility :=
    if String.eqb sym "BTC" then dec 4 2
    else if String.eqb sym "ETH" then dec 6 2
    else if String.eqb sym "DOGE" then dec 12 2
    else dec 8 2 in
  entryOffset <- rand (lit 0 - volatility) volatility ;;
  let entryPrice := round4 (basePrice * (lit 1 + entryOffset)) in
  rRoll <- Math_random ;;
  rMult <- (if rRoll <? dec 35 2 then ret (lit (-1))
            else if rRoll <? dec 55 2
            then r <- rand (dec 5 1) (dec 15 1) ;; ret (round2 r)
            else if rRoll <? dec 75 2
            then r <- rand (dec 15 1) (dec 25 1) ;; ret (round2 r)
            else if rRoll <? dec 90 2
            then r <- rand (dec 25 1) (dec 35 1) ;; ret (round2 r)
            else r <- rand (dec 35 1) (lit 5) ;; ret (round2 r)) ;;
  let riskPercent := dec 1 2 in
  let slDistance :=
    basePrice * riskPercent * (if lit 10 <=? leverage then lit 1 else lit 2) in
  let slPrice :=
    if is_long side then round4 (entryPrice - slDistance)
    else round4 (entryPrice + slDistance) in
  tpFactor <- rand (lit 2) (lit 4) ;;
  let tpDistance := slDistance * tpFactor in
  let tpPrice :=
    if is_long side then round4 (entryPrice + tpDistance)
    else round4 (entryPrice - tpDistance) in
  let pnlPercent := rMult * riskPercent * leverage * lit 100 in
  notional <- rand (lit 2000) (lit 5000) ;;
  let quantity := round4 (notional / entryPrice) in
  let pnlUsd := round2 (notional * pnlPercent / lit 100) in
  let feeUsd := round2 (notional * dec 35 5 * lit 2) in
  let exitPrice :=
    if is_long side then round4 (entryPrice * (lit 1 + rMult * riskPercent))
    else round4 (entryPrice * (lit 1 - rMult * riskPercent)) in
  days <- randInt (lit 1) (lit 45) ;;
  hours <- randInt (lit 0) (lit 23) ;;
  let entryTs := lit NOW - days * DAY_MS - hours * HOUR_MS in
  exitTs <- (if isOpen then ret None
             else h <- randInt (lit 1) (lit 48) ;; ret (Some (entryTs + h * HOUR_MS))) ;;
  currentPrice <- (if isOpen
                   then w <- rand (lit 0 - dec 2 2) (dec 3 2) ;;
                        ret (round4 (entryPrice *
                               (lit 1 + w * (if is_long side then lit 1 else lit (-1)))))
                   else ret exitPrice) ;;
  let currentPnl :=
    if isOpen
    then round2 ((if is_long side then currentPrice - entryPrice
                  else entryPrice - currentPrice) * quantity * leverage)
    else pnlUsd in
  regime <- pick REGIMES undefined ;;
  trinity_score <- randInt (lit 60) (lit 95) ;;
  setup_type <- pick SETUP_TYPES undefined ;;
  confidence <- rand (dec 60 2) (dec 95 2) ;;
  entry_reason <- pick ENTRY_REASONS undefined ;;
  ret {| Trade.id := prefix ++ "-" ++ padStart4 (decimal (i + 1));
         Trade.symbol := sym;
         Trade.side := side;
         Trade.entry_price := entryPrice;
         Trade.exit_price := if isOpen then None else Some exitPrice;
         Trade.current_price := currentPrice;
         Trade.pnl_usd := if isOpen then currentPnl else pnlUsd;
         Trade.pnl_percent :=
           if isOpen then round2 (currentPnl / notional * lit 100)
           else round2 pnlPercent;
         Trade.r_multiple :=
           if isOpen then round2 (currentPnl / (notional * riskPercent))
           else rMult;
         Trade.entry_time := isoAt entryTs;
         Trade.exit_time := if isOpen then None else exitTs;
         Trade.status := if isOpen then open else closed;
         Trade.quantity := quantity;
         Trade.leverage := leverage;
         Trade.stop_loss := slPrice;
         Trade.take_profit := tpPrice;
         Trade.fee_usd := if isOpen then round2 (feeUsd / lit 2) else feeUsd;
         Trade.regime := regime;
         Trade.trinity_score := trinity_score;
         Trade.setup_type := setup_type;
         Trade.confidence := round2 confidence;
         Trade.entry_reason := entry_reason |}.

(** [cmp(a, b) = new Date(b.entry_time) - new Date(a.entry_time)]: [a] goes
    after [b] when the difference is positive. *)
Definition newer_first (a b : Trade.t num) : bool :=
  lit 0 <? Trade.entry_time b - Trade.entry_time a.

Definition openCount_of (prefix : string) : nat :=
  if String.eqb prefix "C" then 3%nat else 2%nat.

Definition generateTrades (symbols : list string)
    (priceMap : list (string * num)) (leverage : num) (count : Z)
    (prefix : string) : Rand (list (Trade.t num)) :=
  let openCount := openCount_of prefix in
  trades <- for_push
              (generateTrades_body symbols priceMap leverage prefix openCount)
              0 (Z.to_nat count) ;;
  ret (sort newer_first trades).

Definition CRYPTO_TRADES : Rand (list (Trade.t num)) :=
  generateTrades CRYPTO_SYMBOLS CRYPTO_PRICES (lit 15) 55 "C".
Definition HIP3_TRADES : Rand (list (Trade.t num)) :=
  generateTrades STOCK_SYMBOLS STOCK_PRICES (lit 3) 40 "H".

(** *** Positions (from open trades) *)

Definition position_of (t : Trade.t num) : Position.t num :=
  {| Position.symbol := Trade.symbol t;
     Position.side := Trade.side t;
     Position.size := Trade.quantity t;
     Position.notional := round2 (Trade.quantity t * Trade.entry_price t);
     Position.entry_price := Trade.entry_price t;
     Position.current_price := Trade.current_price t;
     Position.liquidation_price :=
       if is_long (Trade.side t)
       then round4 (Trade.entry_price t * (lit 1 - dec 9 1 / Trade.leverage t))
       else round4 (Trade.entry_price t * (lit 1 + dec 9 1 / Trade.leverage t));
     Position.unrealized_pnl := Trade.pnl_usd t;
     Position.unrealized_pnl_percent := Trade.pnl_percent t;
     Position.leverage := Trade.leverage t;
     Position.margin_used :=
       round2 (Trade.quantity t * Trade.entry_price t / Trade.leverage t);
     Position.stop_loss := Trade.stop_loss t;
     Position.take_profit := Trade.take_profit t;
     Position.entry_time := Trade.entry_time t;
     Position.r_multiple := Trade.r_multiple t;
     Position.regime := Trade.regime t;
     Position.setup_type := Trade.setup_type t |}.

Definition tradesAsPositions (trades : list (Trade.t num)) : list (Position.t num) :=
  List.map position_of (List.filter (fun t => is_open (Trade.status t)) trades).

(** *** Candle generator *)

(** The loop of [generateCandles] from index [i], [n] bars to go, the
    running [price] in hand. *)
Fixpoint generateCandles_loop (basePrice : num) (count : Z) (intervalMs : num)
    (vol : num) (price : num) (i n : nat) : Rand (list (Candle.t num)) :=
  match n with
  | O => ret []
  | S n' =>
      let trend := dec 2 4 in
      let time := lit NOW - lit (count - Z.of_nat i) * intervalMs in
      let open := price in
      r <- Math_random ;;
      let change := (r - dec 48 2 + trend) * vol * price in
      let close := round4 (open + change) in
      up <- rand (dec 1 1) (dec 15 1) ;;
      let high := round4 (Math_max open close + Math_abs change * up) in
      down <- rand (dec 1 1) (dec 15 1) ;;
      let low := round4 (Math_min open close - Math_abs change * down) in
      v <- rand (lit 100) (lit 50000) ;;
      let volume :=
        round2 (v * (if lit 1000 <? basePrice then dec 1 1
                     else if lit 10 <? basePrice then lit 10 else lit 1000)) in
      rest <- generateCandles_loop basePrice count intervalMs vol close (S i) n' ;;
      ret ({| Candle.time := Math_floor (time / lit 1000);
              Candle.open := open;
              Candle.high := high;
              Candle.low := low;
              Candle.close := close;
              Candle.volume := volume |} :: rest)
  end.

Definition generateCandles (basePrice : num) (count : Z) (intervalMs : num)
  : Rand (list (Candle.t num)) :=
  start <- rand (dec 85 2) (dec 95 2) ;;
  let price := basePrice * start in
  let vol :=
    if lit 1000 <? basePrice then dec 8 3
    else if lit 10 <? basePrice then dec 12 3 else dec 2 2 in
  generateCandles_loop basePrice count intervalMs vol price 0 (Z.to_nat count).

(** [a || b] on a number that may be missing: [0], NaN and [undefined] are
    falsy. *)
Definition or_else (a : option num) (b : num) : num :=
  match a with
  | Some x => if (x =? lit 0) || negb (x =? x) then b else x
  | None => b
  end.

(** [_candleCache] is an object of the module, written once per symbol
    and keyed by the upper-cased symbols the candles route passes.  A
    stored series is an array, hence truthy. *)
Definition getCandlesForSymbol (symbol : string)
    (_candleCache : gmap string (list (Candle.t num)))
  : Rand (list (Candle.t num) * gmap string (list (Candle.t num))) :=
  match _candleCache !! symbol with
  | Some cached => ret (cached, _candleCache)
  | None =>
      let base :=
        or_else (prop CRYPTO_PRICES symbol)
          (or_else (prop STOCK_PRICES symbol) (lit 100)) in
      cs <- generateCandles base 500 (lit (5 * 60 * 1000)) ;;
      let _candleCache' := <[symbol := cs]> _candleCache in
      ret (default cs (_candleCache' !! symbol), _candleCache')
  end.

(** *** Equity curve generator *)

Fixpoint generateEquityCurve_loop (days : Z) (dailyReturn volatility : num)
    (bal : num) (d n : nat) : Rand (list (EquityPoint.t num)) :=
  match n with
  | O => ret []
  | S n' =>
      let date := isoAt (lit NOW - lit (days - Z.of_nat d) * DAY_MS) in
      w <- rand (lit 0 - volatility) volatility ;;
      let bal' := round2 (bal * (lit 1 + dailyReturn + w)) in
      rest <- generateEquityCurve_loop days dailyReturn volatility bal' (S d) n' ;;
      ret ({| EquityPoint.date := date; EquityPoint.equity := bal' |} :: rest)
  end.

Definition generateEquityCurve (startBalance : num) (days : Z)
    (dailyReturn volatility : num) : Rand (list (EquityPoint.t num)) :=
  generateEquityCurve_loop days dailyReturn volatility startBalance 0 (Z.to_nat days).

(** *** Equity per symbol *)

Fixpoint generateEquitySymbols_loop (symbols : list string)
    (result : gmap string (list (EquityPoint.t num)))
  : Rand (gmap string (list (EquityPoint.t num))) :=
  match symbols with
  | [] => ret result
  | sym :: symbols' =>
      dailyReturn <- rand (dec 5 3) (dec 2 2) ;;
      curve <- generateEquityCurve (lit 0) 45 dailyReturn (dec 15 3) ;;
      generateEquitySymbols_loop symbols' (<[sym := curve]> result)
  end.

Definition generateEquitySymbols (symbols : list string)
  : Rand (gmap string (list (EquityPoint.t num))) :=
  generateEquitySymbols_loop symbols ∅.

End Generators.

(** ** Payloads *)

(** A JSON value.  [JTime t] is the string [toISOString] prints for the
    instant [t]. *)
#[local] Unset Elimination Schemes.
Inductive json (num : Type) : Type :=
| JNull
| JBool (b : bool)
| JNum (n : num)
| JStr (s : string)
| JTime (t : num)
| JArr (items : list (json num))
| JObj (fields : list (string * json num)).
#[local] Set Elimination Schemes.
Arguments JNull {num}.
Arguments JBool {num}.
Arguments JNum {num}.
Arguments JStr {num}.
Arguments JTime {num}.
Arguments JArr {num}.
Arguments JObj {num}.

(** [obj.key], [undefined] as [None]. *)
Definition field {num : Type} (key : string) (j : json num) : option (json num) :=
  match j with
  | JObj fields => prop fields key
  | _ => None
  end.

(** [obj.key = v]: in place when the key is there, appended otherwise. *)
Fixpoint set_prop {A : Type} (key : string) (v : A) (obj : list (string * A))
  : list (string * A) :=
  match obj with
  | [] => [(key, v)]
  | (k, x) :: obj' =>
      if String.eqb k key then (k, v) :: obj' else (k, x) :: set_prop key v obj'
  end.

Definition set_field {num : Type} (key : string) (v : json num) (j : json num)
  : json num :=
  match j with
  | JObj fields => JObj (set_prop key v fields)
  | _ => j
  end.

(** The result of [parseInt], or of [Math.min] on it: an integer or NaN. *)
Definition IntOrNaN : Type := option Z.

(** [Math.min(limit, cap)]. *)
Definition Math_min_int (limit : IntOrNaN) (cap : Z) : IntOrNaN :=
  match limit with Some z => Some (Z.min z cap) | None => None end.

(** How often [for (let i = 0; i < count; i++)] runs. *)
Definition iterations (count : IntOrNaN) : nat :=
  match count with Some z => Z.to_nat z | None => O end.

(** [for (const x of xs) out.push(f(x))], [f] drawing. *)
Fixpoint for_each {A B : Type} (f : A -> Rand B) (xs : list A) : Rand (list B) :=
  match xs with
  | [] => ret []
  | x :: xs' => y <- f x ;; ys <- for_each f xs' ;; ret (y :: ys)
  end.

Section Feeds.
Context {num : Type} `{Number num} `{Host}.
Local Open Scope js_scope.

Definition ISO_NOW : num := lit NOW.

(** *** Alert and error generators *)

Definition alert_msgs : list (string * string) :=
  [("info", "Scheduled scan completed successfully");
   ("info", "Position BTC LONG trailing stop updated");
   ("info", "Heartbeat check passed — all systems nominal");
   ("info", "Daily P&L report generated: +$312.40");
   ("info", "New signal evaluated for ETH — confidence below threshold");
   ("warning", "API latency elevated: 230ms (threshold: 200ms)");
   ("warning", "Memory usage at 78% — monitoring closely");
   ("info", "Risk guardian check passed — all positions within limits");
   ("warning", "Drawdown approaching soft limit: 4.5% (threshold: 5.0%)");
   ("info", "Candle cache refreshed for 7 symbols");
   ("info", "Database connection pool healthy: 3/10 active");
   ("info", "On-chain regime updated: Growth (score 72)");
   ("warning", "Rate limit warning: 45/50 requests in window");
   ("info", "Stop loss adjusted for SOL LONG — trailing +1.2R")].

Definition generateAlerts_body (i : nat) : Rand (Alert.t num) :=
  m <- pick alert_msgs (undefined, undefined) ;;
  id <- uuid ;;
  h <- randInt (lit 0) (lit 24) ;;
  mins <- randInt (lit 0) (lit 59) ;;
  source <- pick ["crypto-bot"; "hip3-bot"; "monitor"; "system"] undefined ;;
  ret {| Alert.id := id;
         Alert.timestamp := isoAgo (h * HOUR_MS + mins * lit 60000);
         Alert.level := fst m;
         Alert.message := snd m;
         Alert.source := source;
         Alert.acknowledged := (5 <? i)%nat |}.

Definition generateAlerts (count : IntOrNaN) : Rand (list (Alert.t num)) :=
  alerts <- for_push generateAlerts_body 0 (iterations count) ;;
  ret (sort (fun a b => lit 0 <? Alert.timestamp b - Alert.timestamp a) alerts).

Definition error_msgs : list (string * bool) :=
  [("Temporary connection timeout to price feed", true);
   ("Order rejected: insufficient margin (auto-recovered)", true);
   ("WebSocket reconnection after brief disconnect", true);
   ("Rate limit hit — backed off 2s and retried", true);
   ("Stale candle data detected — refreshed cache", true);
   ("Database pool exhausted briefly — expanded pool", true);
   ("DNS resolution delay for API endpoint", true)].

Definition generateErrors_body (i : nat) : Rand (ErrorEntry.t num) :=
  m <- pick error_msgs (undefined, false) ;;
  id <- uuid ;;
  h <- randInt (lit 2) (lit 72) ;;
  source <- pick ["crypto-bot"; "hip3-bot"; "system"] undefined ;;
  ret {| ErrorEntry.id := id;
         ErrorEntry.timestamp := isoAgo (h * HOUR_MS);
         ErrorEntry.message := fst m;
         ErrorEntry.resolved := snd m;
         ErrorEntry.source := source |}.

Definition generateErrors (count : IntOrNaN) : Rand (list (ErrorEntry.t num)) :=
  errors <- for_push generateErrors_body 0 (iterations count) ;;
  ret (sort (fun a b => lit 0 <? ErrorEntry.timestamp b - ErrorEntry.timestamp a)
         errors).

(** *** Coin scanner *)

Definition coins : list (string * string * string) :=
  [("RENDER", "Render", "AI/GPU"); ("FET", "Fetch.ai", "AI");
   ("INJ", "Injective", "DeFi"); ("TIA", "Celestia", "Modular");
   ("PYTH", "Pyth Network", "Oracle"); ("JUP", "Jupiter", "DEX");
   ("WIF", "dogwifhat", "Meme"); ("ONDO", "Ondo Finance", "RWA");
   ("STRK", "Starknet", "L2"); ("APT", "Aptos", "L1");
   ("ARB", "Arbitrum", "L2"); ("OP", "Optimism", "L2");
   ("NEAR", "NEAR Protocol", "L1"); ("AVAX", "Avalanche", "L1");
   ("ATOM", "Cosmos", "Interop"); ("DOT", "Polkadot", "Interop");
   ("AAVE", "Aave", "DeFi"); ("MKR", "Maker", "DeFi");
   ("PENDLE", "Pendle", "DeFi"); ("TAO", "Bittensor", "AI")].

Definition generateCoinScanner : Rand (list (json num)) :=
  for_each
    (fun c : string * string * string =>
       price <- rand (dec 5 1) (lit 500) ;;
       change_24h <- rand (lit (-8)) (lit 15) ;;
       change_7d <- rand (lit (-15)) (lit 30) ;;
       volume_24h <- rand (lit 10) (lit 500) ;;
       market_cap <- rand (lit 100) (lit 5000) ;;
       momentum_score <- randInt (lit 20) (lit 95) ;;
       signal <- pick ["strong_buy"; "buy"; "neutral"; "sell"] undefined ;;
       relative_strength <- rand (lit 30) (lit 95) ;;
       breakout_proximity <- rand (lit 0) (lit 100) ;;
       ret (JObj [("symbol", JStr (fst (fst c)));
                  ("name", JStr (snd (fst c)));
                  ("sector", JStr (snd c));
                  ("price", JNum (round4 price));
                  ("change_24h", JNum (round2 change_24h));
                  ("change_7d", JNum (round2 change_7d));
                  ("volume_24h", JNum (round2 (volume_24h * lit 1000000)));
                  ("market_cap", JNum (round2 (market_cap * lit 1000000)));
                  ("momentum_score", JNum momentum_score);
                  ("signal", JStr signal);
                  ("relative_strength", JNum (round2 relative_strength));
                  ("breakout_proximity", JNum (round2 breakout_proximity))]))
    coins.

End Feeds.

(** ** Module-level values *)

(** The object literals of the module whose content no handler computes
    on, beyond reading a field: they are parameters of the model.
    [SESSIONS] is the literal [generateSessions()] returns. *)
Inductive Table : Type :=
| CRYPTO_STATUS | HIP3_STATUS | CRYPTO_STATS | HIP3_STATS
| CRYPTO_CAPITAL_EVENTS | HIP3_CAPITAL_EVENTS | SERVICES
| ANALYTICS_COMPARISON | MONITOR_STATUS | ALTSEASON_DATA
| FUNDING_STATUS | FUNDING_STATS | SESSIONS.

(** What the module holds once the script has run. *)
Module Globals.
Record t (num : Type) : Type := mk {
  CRYPTO_TRADES : list (Trade.t num);
  HIP3_TRADES : list (Trade.t num);
  CRYPTO_POSITIONS : list (Position.t num);
  HIP3_POSITIONS : list (Position.t num);
  table : Table -> json num
}.
Arguments mk {num}.
Arguments CRYPTO_TRADES {num}.
Arguments HIP3_TRADES {num}.
Arguments CRYPTO_POSITIONS {num}.
Arguments HIP3_POSITIONS {num}.
Arguments table {num}.
End Globals.

(** What a handler returns.  [BAlerts l] is [{ alerts: l }] and [BErrors l]
    is [{ errors: l }]. *)
Inductive Body (num : Type) : Type :=
| BJson (j : json num)
| BTrades (l : list (Trade.t num))
| BPositions (l : list (Position.t num))
| BCandles (l : list (Candle.t num))
| BEquitySymbols (m : gmap string (list (EquityPoint.t num)))
| BAlerts (l : list (Alert.t num))
| BErrors (l : list (ErrorEntry.t num)).
Arguments BJson {num}.
Arguments BTrades {num}.
Arguments BPositions {num}.
Arguments BCandles {num}.
Arguments BEquitySymbols {num}.
Arguments BAlerts {num}.
Arguments BErrors {num}.

(** A handler reads the url and the options, may draw, and may fill the
    candle cache. *)
Abbreviation Cache num := (gmap string (list (Candle.t num))).

Definition Handler (num : Type) : Type :=
  string -> option string -> Cache num -> Rand (Body num * Cache num).

Module Route.
Record t (num : Type) : Type := mk {
  matches : string -> string -> bool;
  handler : Handler num
}.
Arguments mk {num}.
Arguments matches {num}.
Arguments handler {num}.
End Route.

Section Routes.
Context {num : Type} `{Number num} `{Host}.
Variable G : Globals.t num.
Local Open Scope js_scope.

(** The script runs both generators, then projects the positions. *)
Definition load (table : Table -> json num) : Rand (Globals.t num) :=
  ct <- CRYPTO_TRADES ;;
  ht <- HIP3_TRADES ;;
  ret {| Globals.CRYPTO_TRADES := ct;
         Globals.HIP3_TRADES := ht;
         Globals.CRYPTO_POSITIONS := tradesAsPositions ct;
         Globals.HIP3_POSITIONS := tradesAsPositions ht;
         Globals.table := table |}.

Definition isCrypto (url : string) : bool :=
  includes ":9100" url || includes "/crypto/" url ||
  (negb (includes ":9300" url) && negb (includes ":9200" url) &&
   negb (includes ":9400" url) && negb (includes "/hip3/" url)).

Definition isHip3 (url : string) : bool :=
  includes ":9300" url || includes "/hip3/" url.

Definition isMonitor (url : string) : bool :=
  includes ":9200" url || includes "/monitor/" url.

Definition isFunding (url : string) : bool :=
  includes ":9400" url || includes "/funding/" url.

(** A field of a table read as a number. *)
Definition num_field (key : string) (j : json num) : num :=
  match field key j with Some (JNum n) => n | _ => nan end.

(** A handler that neither draws nor touches the cache. *)
Definition pure_handler (f : string -> option string -> Body num) : Handler num :=
  fun url opts cache => ret (f url opts, cache).

(** A handler that draws. *)
Definition drawing_handler (f : string -> option string -> Rand (Body num))
  : Handler num :=
  fun url opts cache => b <- f url opts ;; ret (b, cache).

Definition drift_payload : json num :=
  JObj [("drift_detected", JBool false);
        ("positions", JArr []);
        ("last_check", JTime ISO_NOW);
        ("threshold", JNum (dec 5 2))].

Definition kill_switch_payload : json num :=
  JObj [("active", JBool false);
        ("activated_at", JNull);
        ("reason", JNull)].

(** [parseInt(new URL(url, 'http://localhost').searchParams.get('limit') || dflt)];
    the empty string is falsy. *)
Definition requested_limit (url : string) (dflt : string) : IntOrNaN :=
  parseInt (match search_get url "limit" with
            | Some s => if String.eqb s "" then dflt else s
            | None => dflt
            end).

(** The handlers of the candles, equity-symbols, alerts and errors
    routes. *)
Definition candles_handler : Handler num :=
  fun url _ cache =>
    let parts := split_on "/" url in
    let symbol := toUpperCase (List.hd "" (split_on "?" (List.last parts ""))) in
    r <- getCandlesForSymbol symbol cache ;;
    ret (BCandles (fst r), snd r).

Definition equity_symbols_handler : Handler num :=
  drawing_handler (fun url _ =>
    let symbols := if isHip3 url then STOCK_SYMBOLS else CRYPTO_SYMBOLS in
    m <- generateEquitySymbols symbols ;;
    ret (BEquitySymbols m)).

Definition monitor_alerts_handler : Handler num :=
  drawing_handler (fun url _ =>
    let limit := requested_limit url "20" in
    l <- generateAlerts (Math_min_int limit 20) ;;
    ret (BAlerts l)).

Definition monitor_errors_handler : Handler num :=
  drawing_handler (fun url _ =>
    let limit := requested_limit url "30" in
    l <- generateErrors (Math_min_int limit 7) ;;
    ret (BErrors l)).

Definition MOCK_ROUTES : list (Route.t num) :=
  [ (* STATUS *)
    {| Route.matches := fun p u => String.eqb p "/status";
       Route.handler := pure_handler (fun url _ =>
         BJson (Globals.table G (if isHip3 url then HIP3_STATUS else CRYPTO_STATUS))) |};
    (* STATS *)
    {| Route.matches := fun p _ =>
         String.eqb p "/api/stats" || String.eqb p "/api/stats/accurate";
       Route.handler := drawing_handler (fun url _ =>
         let base := Globals.table G (if isHip3 url then HIP3_STATS else CRYPTO_STATS) in
         if includes "accurate" url then
           db <- rand (lit (-5)) (lit 5) ;;
           let base1 :=
             set_field "balance" (JNum (round2 (num_field "balance" base + db))) base in
           dp <- rand (lit (-2)) (lit 2) ;;
           ret (BJson (set_field "pnl_today"
                         (JNum (round2 (num_field "pnl_today" base1 + dp))) base1))
         else ret (BJson base)) |};
    (* TRADES *)
    {| Route.matches := fun p _ => String.eqb p "/api/trades";
       Route.handler := pure_handler (fun url _ =>
         BTrades (if isHip3 url then Globals.HIP3_TRADES G else Globals.CRYPTO_TRADES G)) |};
    (* POSITIONS *)
    {| Route.matches := fun p _ => String.eqb p "/api/positions";
       Route.handler := pure_handler (fun url _ =>
         BPositions (if isHip3 url then Globals.HIP3_POSITIONS G
                     else Globals.CRYPTO_POSITIONS G)) |};
    (* CAPITAL EVENTS *)
    {| Route.matches := fun p _ => String.eqb p "/api/capital-events";
       Route.handler := pure_handler (fun url _ =>
         BJson (Globals.table G (if isHip3 url then HIP3_CAPITAL_EVENTS
                                 else CRYPTO_CAPITAL_EVENTS))) |};
    (* CANDLES *)
    {| Route.matches := fun p _ => startsWith "/api/candles/" p;
       Route.handler := candles_handler |};
    (* DASHBOARD SETTINGS *)
    {| Route.matches := fun p _ => String.eqb p "/api/dashboard/settings";
       Route.handler := pure_handler (fun _ opts =>
         match opts with
         | Some "POST" => BJson (JObj [("success", JBool true)])
         | _ =>
             BJson (JObj [("success", JBool true);
                          ("settings",
                           JObj [("theme", JStr "matrix");
                                 ("language", JStr "en");
                                 ("refresh_interval", JNum (lit 30));
                                 ("notifications_enabled", JBool true);
                                 ("sound_enabled", JBool false)])])
         end) |};
    (* SERVICES *)
    {| Route.matches := fun p _ => String.eqb p "/api/services";
       Route.handler := pure_handler (fun _ _ => BJson (Globals.table G SERVICES)) |};
    (* LAST SCAN *)
    {| Route.matches := fun p _ => String.eqb p "/api/last_scan";
       Route.handler := pure_handler (fun _ _ =>
         BJson (JObj [("timestamp", JTime (isoAgo (lit 30000)));
                      ("duration", JNum (dec 32 1));
                      ("symbols_scanned", JNum (lit 7));
                      ("signals_found", JNum (lit 1));
                      ("status", JStr "ok")])) |};
    (* LATENCY *)
    {| Route.matches := fun p _ => String.eqb p "/api/latency";
       Route.handler := drawing_handler (fun _ _ =>
         l <- randInt (lit 35) (lit 65) ;;
         ret (BJson (JObj [("latency", JNum l)]))) |};
    (* ANALYTICS COMPARISON *)
    {| Route.matches := fun p _ => String.eqb p "/api/analytics/comparison";
       Route.handler := pure_handler (fun _ _ =>
         BJson (Globals.table G ANALYTICS_COMPARISON)) |};
    (* EQUITY SYMBOLS *)
    {| Route.matches := fun p _ => String.eqb p "/api/analytics/equity-symbols";
       Route.handler := equity_symbols_handler |};
    (* SESSIONS *)
    {| Route.matches := fun p _ => String.eqb p "/api/analytics/sessions";
       Route.handler := pure_handler (fun _ _ => BJson (Globals.table G SESSIONS)) |};
    (* PRICES (HIP-3 stocks) *)
    {| Route.matches := fun p _ => String.eqb p "/api/prices";
       Route.handler := drawing_handler (fun _ _ =>
         prices <- for_each
                     (fun kv : string * num =>
                        d <- rand (lit (-2)) (lit 2) ;;
                        ret (fst kv, JNum (round2 (snd kv + d))))
                     STOCK_PRICES ;;
         ret (BJson (JObj [("prices", JObj prices);
                           ("last_update", JTime ISO_NOW)]))) |};
    (* MONITOR STATUS *)
    {| Route.matches := fun p _ => String.eqb p "/api/monitor/status";
       Route.handler := pure_handler (fun _ _ =>
         BJson (Globals.table G MONITOR_STATUS)) |};
    (* MONITOR ALERTS *)
    {| Route.matches := fun p _ => startsWith "/api/monitor/alerts" p;
       Route.handler := monitor_alerts_handler |};
    (* MONITOR ERRORS *)
    {| Route.matches := fun p _ => startsWith "/api/monitor/errors" p;
       Route.handler := monitor_errors_handler |};
    (* DRIFT *)
    {| Route.matches := fun p _ => includes "/drift" p;
       Route.handler := pure_handler (fun _ _ => BJson drift_payload) |};
    (* KILL SWITCH (GET) *)
    {| Route.matches := fun p _ =>
         includes "/kill-switch" p || includes "/kill_switch" p;
       Route.handler := pure_handler (fun _ _ => BJson kill_switch_payload) |};
    (* ALTSEASON *)
    {| Route.matches := fun p _ =>
         String.eqb p "/api/monitor/altseason" || String.eqb p "/api/altseason";
       Route.handler := pure_handler (fun _ _ =>
         BJson (Globals.table G ALTSEASON_DATA)) |};
    (* COIN SCANNER *)
    {| Route.matches := fun p _ =>
         String.eqb p "/api/monitor/coin-scanner" || String.eqb p "/api/coin-scanner";
       Route.handler := drawing_handler (fun _ _ =>
         cs <- generateCoinScanner ;;
         ret (BJson (JObj [("coins", JArr cs);
                           ("last_update", JTime ISO_NOW);
                           ("total_scanned", JNum (lit 200));
                           ("btc_dominance", JNum (dec 523 1))]))) |};
    (* FUNDING STATUS *)
    {| Route.matches := fun p _ => String.eqb p "/api/funding/status";
       Route.handler := pure_handler (fun _ _ =>
         BJson (Globals.table G FUNDING_STATUS)) |};
    (* FUNDING STATS *)
    {| Route.matches := fun p _ => String.eqb p "/api/funding/stats";
       Route.handler := pure_handler (fun _ _ =>
         BJson (Globals.table G FUNDING_STATS)) |};
    (* FUNDING POSITION *)
    {| Route.matches := fun p _ => String.eqb p "/api/funding/position";
       Route.handler := pure_handler (fun _ _ => BJson JNull) |};
    (* ON-CHAIN REGIME *)
    {| Route.matches := fun p _ =>
         String.eqb p "/api/regime" || String.eqb p "/api/onchain/regime";
       Route.handler := pure_handler (fun _ _ =>
         let metric (v : Z) (s : string) : json num :=
           JObj [("value", JNum (lit v)); ("signal", JStr s)] in
         BJson (JObj
           [("regime", JStr "Growth");
            ("score", JNum (lit 72));
            ("confidence", JNum (dec 81 2));
            ("last_update", JTime ISO_NOW);
            ("next_update", JTime (isoAt (lit NOW + lit 6 * HOUR_MS)));
            ("metrics",
             JObj [("Net Capital Flow", metric 62 "bullish");
                   ("Active Addresses", metric 58 "bullish");
                   ("Transaction Volume", metric 71 "bullish");
                   ("DEX Activity", metric 45 "neutral");
                   ("Gas Usage", metric 55 "neutral")]);
            ("effects",
             JObj [("tp_multiplier", JNum (dec 115 2));
                   ("confidence_bonus", JNum (dec 5 2));
                   ("max_positions_modifier", JNum (lit 0))])])) |}
  ].

End Routes.

(** ** The fetch interceptor *)

Module Response.
Record t (num : Type) : Type := mk {
  status : Z;
  headers : list (string * string);
  body : Body num
}.
Arguments mk {num}.
Arguments status {num}.
Arguments headers {num}.
Arguments body {num}.
End Response.

(** What a call of the patched [window.fetch] comes to: the real transport
    ([_originalFetch.call(window, input, options)]) or a synthesized
    response. *)
Inductive Outcome (num : Type) : Type :=
| Passthrough
| Respond (r : Response.t num).
Arguments Passthrough {num}.
Arguments Respond {num}.

(** The outcome with what the call did besides: the toast shown, the
    console warning, the delay awaited. *)
Module Fetched.
Record t (num : Type) : Type := mk {
  outcome : Outcome num;
  toast : option string;
  warning : option string;
  delay : option num
}.
Arguments mk {num}.
Arguments outcome {num}.
Arguments toast {num}.
Arguments warning {num}.
Arguments delay {num}.
End Fetched.

Section Fetch.
Context {num : Type} `{Number num} `{Host}.
Local Open Scope js_scope.

(** The pathname as [window.fetch] computes it: parsed, or on a parse
    failure the url up to its first question mark. *)
Definition pathname_of (url : string) : string :=
  match url_pathname url with
  | Some p => p
  | None => List.hd "" (split_on "?" url)
  end.

Definition is_public_api (url : string) : bool :=
  includes "binance.com" url || includes "coingecko.com" url ||
  includes "coinmarketcap.com" url.

Definition is_asset_host (url : string) : bool :=
  includes "cdn." url || includes "fonts." url ||
  includes "googleapis.com" url || includes "jsdelivr.net" url.

(** [(options && options.method) || 'GET']. *)
Definition method_of (options : option string) : string :=
  match options with
  | Some m => if String.eqb m "" then "GET" else m
  | None => "GET"
  end.

Definition is_mutating (method : string) : bool :=
  String.eqb method "POST" || String.eqb method "PUT" || String.eqb method "DELETE".

Definition json_headers : list (string * string) :=
  [("Content-Type", "application/json")].

Definition demo_headers : list (string * string) :=
  [("Content-Type", "application/json"); ("X-Demo-Mode", "true")].

Definition settings_ack : json num := JObj [("success", JBool true)].

Definition demo_ack : json num :=
  JObj [("success", JBool true); ("demo", JBool true)].

Definition empty_success : json num :=
  JObj [("success", JBool true); ("data", JNull); ("demo", JBool true)].

Definition toast_text : string :=
  "DEMO MODE — This action is disabled in demo".

Definition answered (hs : list (string * string)) (b : Body num) : Outcome num :=
  Respond {| Response.status := 200; Response.headers := hs; Response.body := b |}.

(** [for (const route of routes) if (route.match(pathname, url)) ...]: the
    first route that matches. *)
Fixpoint first_match (routes : list (Route.t num)) (pathname url : string)
  : option (Route.t num) :=
  match routes with
  | [] => None
  | route :: routes' =>
      if Route.matches route pathname url then Some route
      else first_match routes' pathname url
  end.

(** [window.fetch(input, options)] over the route table [routes]; [url] is
    the address of [input] and [options] the [method] of the second
    argument, when there is one. *)
Definition fetch_with (routes : list (Route.t num)) (url : string)
    (options : option string) (cache : Cache num)
  : Rand (Fetched.t num * Cache num) :=
  let pathname := pathname_of url in
  if is_public_api url then
    ret (Fetched.mk Passthrough None None None, cache)
  else if is_asset_host url then
    ret (Fetched.mk Passthrough None None None, cache)
  else
    let method := method_of options in
    if is_mutating method then
      if String.eqb pathname "/api/dashboard/settings" then
        ret (Fetched.mk (answered json_headers (BJson settings_ack))
               None None None, cache)
      else
        ret (Fetched.mk (answered json_headers (BJson demo_ack))
               (Some toast_text) None None, cache)
    else
      match first_match routes pathname url with
      | Some route =>
          r <- Route.handler route url options cache ;;
          d <- randInt (lit 20) (lit 80) ;;
          ret (Fetched.mk (answered demo_headers (fst r)) None None (Some d), snd r)
      | None =>
          if startsWith "/api/" pathname || String.eqb pathname "/status" then
            ret (Fetched.mk (answered json_headers (BJson empty_success))
                   None (Some pathname) None, cache)
          else
            ret (Fetched.mk Passthrough None None None, cache)
      end.

Definition fetch (G : Globals.t num) : string -> option string -> Cache num ->
    Rand (Fetched.t num * Cache num) :=
  fetch_with (MOCK_ROUTES G).

(** ** The XMLHttpRequest shim *)

(** [shouldIntercept] of [MockXHR.open]. *)
Definition shouldIntercept (url : string) : bool :=
  negb (includes "binance.com" url) && negb (includes "coingecko.com" url) &&
  negb (includes "cdn." url) && negb (includes "fonts." url) &&
  (includes "/api/" url || includes "/status" url).

(** [MockXHR.send] of an intercepted request opened with [method] and
    [url]: the delay of the timer, then the body the timer's callback puts
    in [responseText], with status 200. *)
Definition xhr_send_with (routes : list (Route.t num)) (method url : string)
    (cache : Cache num) : Rand (num * Body num * Cache num) :=
  d <- randInt (lit 20) (lit 80) ;;
  let pathname := pathname_of url in
  match first_match routes pathname url with
  | Some route =>
      r <- Route.handler route url (Some method) cache ;;
      ret (d, fst r, snd r)
  | None => ret (d, BJson empty_success, cache)
  end.

Definition xhr_send (G : Globals.t num) : string -> string -> Cache num ->
    Rand (num * Body num * Cache num) :=
  xhr_send_with (MOCK_ROUTES G).

End Fetch.

(** ** The WebSocket shim *)

(** The [data] of a message event, before [JSON.stringify]. *)
Inductive WsMessage (num : Type) : Type :=
| LOG (timestamp : num) (level message : string)
| TRADE (timestamp : num) (symbol : string) (side : Side) (action : string)
    (price : num) (message : string)
| STATUS (timestamp : num) (positions : nat) (balance drawdown : num).
Arguments LOG {num}.
Arguments TRADE {num}.
Arguments STATUS {num}.

(** An event handed to the client: to the [on...] property and to the
    listeners of its type. *)
Inductive WsEvent (num : Type) : Type :=
| EvOpen
| EvMessage (data : WsMessage num)
| EvClose (code : Z) (reason : string).
Arguments EvOpen {num}.
Arguments EvMessage {num}.
Arguments EvClose {num}.

Definition is_message {num : Type} (e : WsEvent num) : bool :=
  match e with EvMessage _ => true | _ => false end.

Definition is_close {num : Type} (e : WsEvent num) : bool :=
  match e with EvClose _ _ => true | _ => false end.

(** A [MockWebSocket] with the two timers it sets at the host.
    [open_timer] holds while the [setTimeout] of the constructor has not
    fired; [interval_timer] is the period of the [setInterval] timer while
    the host still runs it; [_interval] is the handle the object keeps;
    [msgIndex] is the counter of [_startPeriodicMessages]; [delivered] is
    the sequence of events dispatched to the client so far, each recorded
    once, at the moment its dispatch begins. *)
Module MockWebSocket.
Record t (num : Type) : Type := mk {
  url : string;
  readyState : Z;
  _interval : option nat;
  open_timer : bool;
  interval_timer : option num;
  msgIndex : nat;
  delivered : list (WsEvent num)
}.
Arguments mk {num}.
Arguments url {num}.
Arguments readyState {num}.
Arguments _interval {num}.
Arguments open_timer {num}.
Arguments interval_timer {num}.
Arguments msgIndex {num}.
Arguments delivered {num}.
End MockWebSocket.

(** What the event loop may run on a socket: one of its two timers, or a
    call of the client.  A timer task carries the reading of the clock it
    stamps its messages with. *)
Inductive Task (num : Type) : Type :=
| OpenTimer (clock : num)
| IntervalTimer (clock : num)
| CallClose (code : option Z) (reason : option string)
| CallSend (data : string).
Arguments OpenTimer {num}.
Arguments IntervalTimer {num}.
Arguments CallClose {num}.
Arguments CallSend {num}.

Definition LOG_MESSAGES : list (string * string) :=
  [("INFO", "Scanning market conditions...");
   ("INFO", "Analyzing BTC setup — evaluating confluence factors");
   ("INFO", "Risk check passed for all active positions");
   ("INFO", "Position monitoring active — 3 open positions");
   ("INFO", "Signal evaluated for ETH: no entry — insufficient confidence (0.52)");
   ("INFO", "Heartbeat OK — all systems nominal");
   ("INFO", "Trailing stop updated for SOL LONG: +1.8R");
   ("INFO", "Candle data refreshed — 7 symbols updated");
   ("INFO", "Guardian check: drawdown 1.2% — within limits");
   ("DEBUG", "On-chain regime check: Growth (score 72, next refresh 2h)");
   ("INFO", "Order filled: BTC LONG entry at $97,245.00");
   ("INFO", "Stop loss placed: BTC LONG SL at $96,280.00");
   ("INFO", "Take profit placed: BTC LONG TP at $99,150.00");
   ("INFO", "Scan complete — duration: 3.1s");
   ("INFO", "Price feed latency: 42ms — nominal");
   ("DEBUG", "Redis cache hit ratio: 94.2%");
   ("INFO", "Signal evaluated for DOGE: no entry — regime filter");
   ("INFO", "Balance check: $15,420.50 — margin available: $12,180.30");
   ("INFO", "SUI breakout detected — confidence 0.78, evaluating...");
   ("INFO", "SUI entry skipped — max positions reached (3/3 open)");
   ("DEBUG", "API weight: 23/1200 — well within limits");
   ("INFO", "Position SOL LONG P&L: +$142.30 (+2.1R)");
   ("INFO", "Database vacuum completed — 0 dead tuples");
   ("INFO", "Funding rate check: ETH at 0.0145% — monitoring")].

Definition side_name (s : Side) : string :=
  match s with LONG => "LONG" | SHORT => "SHORT" end.

Section WebSocket.
Context {num : Type} `{Number num} `{Host}.
Variable G : Globals.t num.
(** The client: whether its handler of an open or message event calls
    [close()] on the socket when the event reaches it. *)
Variable client : WsEvent num -> bool.
Local Open Scope js_scope.

Import MockWebSocket.

(** [window.WebSocket(url)] builds a [MockWebSocket] for these addresses
    and the real one for the others. *)
Definition intercepts_socket (url : string) : bool :=
  includes ":9100" url || includes ":9300" url || includes ":9200" url ||
  includes ":9400" url || includes "localhost" url.

(** [new MockWebSocket(url)]: connecting, the open timer set. *)
Definition new_MockWebSocket (url : string) : MockWebSocket.t num :=
  {| url := url; readyState := 0; _interval := None; open_timer := true;
     interval_timer := None; msgIndex := 0; delivered := [] |}.

Definition deliver (e : WsEvent num) (ws : MockWebSocket.t num) : MockWebSocket.t num :=
  {| url := url ws; readyState := readyState ws; _interval := _interval ws;
     open_timer := open_timer ws; interval_timer := interval_timer ws;
     msgIndex := msgIndex ws; delivered := delivered ws ++ [e] |}.

(** [close(code, reason)]. *)
Definition close (code : option Z) (reason : option string)
    (ws : MockWebSocket.t num) : MockWebSocket.t num :=
  let code' := match code with Some c => if (c =? 0)%Z then 1000 else c | None => 1000 end in
  let reason' :=
    match reason with
    | Some r => if String.eqb r "" then "Demo closed" else r
    | None => "Demo closed"
    end in
  deliver (EvClose code' reason')
    {| url := url ws; readyState := 3; _interval := _interval ws;
       open_timer := open_timer ws;
       interval_timer :=
         match _interval ws with Some _ => None | None => interval_timer ws end;
       msgIndex := msgIndex ws; delivered := delivered ws |}.

(** An open or message event reaches the client: its [on...] property,
    then the listeners of the type of the event, taken together.  Any of
    them may call [close()], whose close event is then dispatched before
    the recipients that remain are served; the event itself is recorded
    once, before that close event. *)
Definition dispatch (e : WsEvent num) (ws : MockWebSocket.t num) : MockWebSocket.t num :=
  let ws' := deliver e ws in
  if client e then close None None ws' else ws'.

(** [_sendMock(data)]. *)
Definition _sendMock (data : WsMessage num) (ws : MockWebSocket.t num)
  : MockWebSocket.t num :=
  if negb (readyState ws =? 1)%Z then ws else dispatch (EvMessage data) ws.

(** [_startPeriodicMessages()]. *)
Definition _startPeriodicMessages (ws : MockWebSocket.t num) : Rand (MockWebSocket.t num) :=
  period <- randInt (lit 5000) (lit 10000) ;;
  ret {| url := url ws; readyState := readyState ws; _interval := Some 1%nat;
         open_timer := open_timer ws; interval_timer := Some period;
         msgIndex := 0; delivered := delivered ws |}.

(** The callback of the constructor's [setTimeout], 300 ms after the
    construction. *)
Definition on_open_timer (clock : num) (ws : MockWebSocket.t num)
  : Rand (MockWebSocket.t num) :=
  let ws1 :=
    {| url := url ws; readyState := 1; _interval := _interval ws;
       open_timer := false; interval_timer := interval_timer ws;
       msgIndex := msgIndex ws; delivered := delivered ws |} in
  let ws2 := dispatch EvOpen ws1 in
  let ws3 :=
    _sendMock (LOG clock "INFO" "WebSocket connected — live feed active") ws2 in
  _startPeriodicMessages ws3.

(** The callback of the [setInterval] of [_startPeriodicMessages]. *)
Definition on_interval (clock : num) (ws : MockWebSocket.t num)
  : Rand (MockWebSocket.t num) :=
  if negb (readyState ws =? 1)%Z then ret ws
  else
    let logMsg :=
      nth (msgIndex ws mod List.length LOG_MESSAGES)%nat LOG_MESSAGES
        (undefined, undefined) in
    let ws1 :=
      {| url := url ws; readyState := readyState ws; _interval := _interval ws;
         open_timer := open_timer ws; interval_timer := interval_timer ws;
         msgIndex := S (msgIndex ws); delivered := delivered ws |} in
    let ws2 := _sendMock (LOG clock (fst logMsg) (snd logMsg)) ws1 in
    r1 <- Math_random ;;
    ws3 <- (if r1 <? dec 125 3 then
              sym <- pick CRYPTO_SYMBOLS undefined ;;
              side <- pick SIDES LONG ;;
              action <- pick ["entry"; "exit"; "sl_update"; "tp_update"] undefined ;;
              ret (_sendMock
                     (TRADE clock sym side action (price_of CRYPTO_PRICES sym)
                        (sym ++ " " ++ side_name side ++ " — position updated"))
                     ws2)
            else ret ws2) ;;
    r2 <- Math_random ;;
    (if r2 <? dec 83 3 then
       db <- rand (lit (-10)) (lit 10) ;;
       dd <- rand (lit 0 - dec 1 1) (dec 1 1) ;;
       ret (_sendMock
              (STATUS clock (List.length (Globals.CRYPTO_POSITIONS G))
                 (round2 (num_field "balance" (Globals.table G CRYPTO_STATUS) + db))
                 (round2 (num_field "current_drawdown"
                            (Globals.table G CRYPTO_STATUS) + dd)))
              ws3)
     else ret ws3).

(** One task of the event loop.  A timer that is not set does not fire;
    [send(data)] logs and does nothing else. *)
Definition run_task (t : Task num) (ws : MockWebSocket.t num)
  : Rand (MockWebSocket.t num) :=
  match t with
  | OpenTimer clock => if open_timer ws then on_open_timer clock ws else ret ws
  | IntervalTimer clock =>
      match interval_timer ws with
      | Some _ => on_interval clock ws
      | None => ret ws
      end
  | CallClose code reason => ret (close code reason ws)
  | CallSend _ => ret ws
  end.

Fixpoint run_tasks (ts : list (Task num)) (ws : MockWebSocket.t num)
  : Rand (MockWebSocket.t num) :=
  match ts with
  | [] => ret ws
  | t :: ts' => ws' <- run_task t ws ;; run_tasks ts' ws'
  end.

End WebSocket.

(** No message event after a close event, in a sequence of delivered
    events. *)
Fixpoint silent_after_close {num : Type} (events : list (WsEvent num)) : bool :=
  match events with
  | [] => true
  | e :: events' =>
      (if is_close e then forallb (fun e' => negb (is_message e')) events' else true)
      && silent_after_close events'
  end.

(** ** The XMLHttpRequest shim as an object *)

(** A call the shim makes on the real request it wraps ([this._xhr]). *)
Inductive RealCall : Type :=
| RealOpen (method url : string)
| RealSend
| RealSetRequestHeader (name value : string)
| RealGetResponseHeader (name : string)
| RealGetAllResponseHeaders
| RealAbort
| RealAddEventListener (type : string)
| RealRemoveEventListener (type : string).

Definition is_real_send (c : RealCall) : bool :=
  match c with RealSend => true | _ => false end.

(** A handler of the client the timer's callback calls. *)
Inductive XhrEvent : Type := EvReadyStateChange | EvLoad.

(** A [MockXHR]: its fields, the calls made on the real request so far
    ([real], oldest first), the delays of the timers that [send] has set
    and that have not fired ([timers]), and the calls the timer's callback
    makes of [onreadystatechange] and [onload], which it makes when the
    page has set them ([fired]).  The assignments of handlers to the real
    request in [open] are not calls of it and are not recorded.
    [responseText] is [None] for the empty string of the constructor. *)
Module MockXHR.
Record t (num : Type) : Type := mk {
  _intercepted : bool;
  _url : string;
  _method : string;
  readyState : Z;
  status : Z;
  statusText : string;
  responseText : option (Body num);
  real : list RealCall;
  timers : list num;
  fired : list XhrEvent
}.
Arguments mk {num}.
Arguments _intercepted {num}.
Arguments _url {num}.
Arguments _method {num}.
Arguments readyState {num}.
Arguments status {num}.
Arguments statusText {num}.
Arguments responseText {num}.
Arguments real {num}.
Arguments timers {num}.
Arguments fired {num}.
End MockXHR.

(** What the page may do with the object, and the firing of a timer. *)
Inductive XhrCall : Type :=
| XhrOpen (method url : string)
| XhrSend
| XhrSetRequestHeader (name value : string)
| XhrGetResponseHeader (name : string)
| XhrGetAllResponseHeaders
| XhrAbort
| XhrAddEventListener (type : string)
| XhrRemoveEventListener (type : string)
| XhrTimer.

(** The calls that neither open, nor send, nor fire a timer. *)
Definition is_aside (c : XhrCall) : bool :=
  match c with
  | XhrOpen _ _ | XhrSend | XhrTimer => false
  | _ => true
  end.

Section XhrObject.
Context {num : Type} `{Number num} `{Host}.
Variable G : Globals.t num.
Local Open Scope js_scope.

Import MockXHR.

(** [new MockXHR()]. *)
Definition new_MockXHR : MockXHR.t num :=
  {| _intercepted := false; _url := ""; _method := "GET"; readyState := 0;
     status := 0; statusText := ""; responseText := None; real := [];
     timers := []; fired := [] |}.

(** A call handed to the real request. *)
Definition delegate (c : RealCall) (x : MockXHR.t num) : MockXHR.t num :=
  {| _intercepted := _intercepted x; _url := _url x; _method := _method x;
     readyState := readyState x; status := status x; statusText := statusText x;
     responseText := responseText x; real := real x ++ [c];
     timers := timers x; fired := fired x |}.

(** The methods that do nothing but hand the call over, when the request
    is not intercepted. *)
Definition unless_intercepted (c : RealCall) (x : MockXHR.t num) : MockXHR.t num :=
  if negb (_intercepted x) then delegate c x else x.

(** [open(method, url)]. *)
Definition xhr_open (method url : string) (x : MockXHR.t num) : MockXHR.t num :=
  let x' :=
    {| _intercepted := _intercepted x; _url := url; _method := method;
       readyState := readyState x; status := status x; statusText := statusText x;
       responseText := responseText x; real := real x;
       timers := timers x; fired := fired x |} in
  if shouldIntercept url then
    {| _intercepted := true; _url := url; _method := method;
       readyState := 1; status := status x; statusText := statusText x;
       responseText := responseText x; real := real x;
       timers := timers x; fired := fired x |}
  else delegate (RealOpen method url) x'.

(** [send(data)]: handed over, or a timer set with a delay drawn now. *)
Definition xhr_send_call (x : MockXHR.t num) : Rand (MockXHR.t num) :=
  if negb (_intercepted x) then ret (delegate RealSend x)
  else
    d <- randInt (lit 20) (lit 80) ;;
    ret {| _intercepted := _intercepted x; _url := _url x; _method := _method x;
           readyState := readyState x; status := status x;
           statusText := statusText x; responseText := responseText x;
           real := real x; timers := timers x ++ [d]; fired := fired x |}.

(** The callback of a timer of [send]: it reads the address and the method
    the object holds when it runs. *)
Definition xhr_on_timer (x : MockXHR.t num) (cache : Cache num)
  : Rand (MockXHR.t num * Cache num) :=
  let pathname := pathname_of (_url x) in
  r <- match first_match (MOCK_ROUTES G) pathname (_url x) with
       | Some route => Route.handler route (_url x) (Some (_method x)) cache
       | None => ret (BJson empty_success, cache)
       end ;;
  ret ({| _intercepted := _intercepted x; _url := _url x; _method := _method x;
          readyState := 4; status := 200; statusText := "OK";
          responseText := Some (fst r); real := real x;
          timers := List.tl (timers x);
          fired := fired x ++ [EvReadyStateChange; EvLoad] |}, snd r).

(** One call of the page, or the firing of the oldest timer. *)
Definition xhr_step (c : XhrCall) (x : MockXHR.t num) (cache : Cache num)
  : Rand (MockXHR.t num * Cache num) :=
  match c with
  | XhrOpen method url => ret (xhr_open method url x, cache)
  | XhrSend => x' <- xhr_send_call x ;; ret (x', cache)
  | XhrSetRequestHeader name value =>
      ret (unless_intercepted (RealSetRequestHeader name value) x, cache)
  | XhrGetResponseHeader name =>
      ret (unless_intercepted (RealGetResponseHeader name) x, cache)
  | XhrGetAllResponseHeaders =>
      ret (unless_intercepted RealGetAllResponseHeaders x, cache)
  | XhrAbort => ret (unless_intercepted RealAbort x, cache)
  | XhrAddEventListener type =>
      ret (unless_intercepted (RealAddEventListener type) x, cache)
  | XhrRemoveEventListener type =>
      ret (unless_intercepted (RealRemoveEventListener type) x, cache)
  | XhrTimer =>
      match timers x with
      | [] => ret (x, cache)
      | _ :: _ => xhr_on_timer x cache
      end
  end.

Fixpoint xhr_run (cs : list XhrCall) (x : MockXHR.t num) (cache : Cache num)
  : Rand (MockXHR.t num * Cache num) :=
  match cs with
  | [] => ret (x, cache)
  | c :: cs' => r <- xhr_step c x cache ;; xhr_run cs' (fst r) (snd r)
  end.

End XhrObject.

(** ** A host to run the model on *)

(** Stand-ins for the browser on plain addresses: the path of an address
    is what follows its origin, up to the query and the fragment; a query
    parameter is the text between [key=] and the next [&]; [parseInt]
    reads an optional minus sign and the decimal digits that follow. *)
Definition cut_at (c : ascii) (s : string) : string := List.hd "" (split_on c s).

Fixpoint join (sep : string) (parts : list string) : string :=
  match parts with
  | [] => ""
  | [p] => p
  | p :: parts' => p ++ sep ++ join sep parts'
  end.

Definition plain_pathname (url : string) : option string :=
  let path :=
    if includes "://" url
    then "/" ++ join "/" (List.skipn 3 (split_on "/" url))
    else url in
  Some (cut_at "#" (cut_at "?" path)).

Definition plain_search_get (url key : string) : option string :=
  match split_on "?" (cut_at "#" url) with
  | _ :: query :: _ =>
      match List.filter (fun kv => startsWith (key ++ "=") kv) (split_on "&" query) with
      | kv :: _ => Some (String.substring (S (String.length key))
                           (String.length kv) kv)
      | [] => None
      end
  | _ => None
  end.

Definition digit_of (c : ascii) : option Z :=
  let n := Z.of_nat (nat_of_ascii c) in
  if (48 <=? n) && (n <=? 57) then Some (n - 48) else None.

Fixpoint digits_value (s : string) (acc : option Z) : option Z :=
  match s with
  | EmptyString => acc
  | String c s' =>
      match digit_of c with
      | Some d => digits_value s' (Some (10 * default 0 acc + d))
      | None => acc
      end
  end.

Definition plain_parseInt (s : string) : option Z :=
  match s with
  | String "-" s' => option_map Z.opp (digits_value s' None)
  | _ => digits_value s None
  end.

Definition plain_toUpperCase (s : string) : string :=
  string_of_list_ascii
    (List.map (fun c : ascii =>
                 let n := nat_of_ascii c in
                 if ((97 <=? n) && (n <=? 122))%nat then ascii_of_nat (n - 32) else c)
       (list_ascii_of_string s)).

(** A host whose clock reads 2026-01-01T00:00:00Z and whose random stream
    is [bits]. *)
Definition host_of (bits : nat -> Z) : Host :=
  {| NOW := 1767225600000;
     random_bits := bits;
     url_pathname := plain_pathname;
     search_get := plain_search_get;
     parseInt := plain_parseInt;
     toUpperCase := plain_toUpperCase |}.

(** The stream of a list of draws, then zeros. *)
Definition stream_of (draws : list Z) : nat -> Z := fun n => nth n draws 0.

(** A stream that does not repeat early. *)
Definition mixed_bits : nat -> Z :=
  fun n => (Z.of_nat n * 2862933555777941757 + 3037000493) mod 2 ^ 53.

(** Module-level values with an empty ledger and null tables. *)
Definition blank_globals (num : Type) : Globals.t num :=
  {| Globals.CRYPTO_TRADES := []; Globals.HIP3_TRADES := [];
     Globals.CRYPTO_POSITIONS := []; Globals.HIP3_POSITIONS := [];
     Globals.table := fun _ => JNull |}.

(** ** Notions the properties are stated with *)

(** Sorting by a rational key, newest first, and the order it yields. *)
Definition key_after {A : Type} (key : A -> Q) (a b : A) : bool :=
  Q_ltb 0 (key b - key a).

Definition descending {A : Type} (key : A -> Q) (l : list A) : Prop :=
  StronglySorted (fun a b => (key b <= key a)%Q) l.

(** The status [generateTrades] gives the record of index [i]. *)
Definition status_at (openCount i : nat) : Status :=
  if (i <? openCount)%nat then open else closed.

Definition count_open {num : Type} (trades : list (Trade.t num)) : nat :=
  List.length (List.filter (fun t => is_open (Trade.status t)) trades).

(** The open records stand in the first [K] positions. *)
Definition open_first {num : Type} (K : nat) (trades : list (Trade.t num)) : bool :=
  forallb (fun t => is_open (Trade.status t)) (firstn K trades).

(** A curve of [n] points, each of equity zero. *)
Definition flat_curve (n : nat) (curve : list (EquityPoint.t Q)) : Prop :=
  List.length curve = n /\
  List.Forall (fun pt => (EquityPoint.equity pt == 0)%Q) curve.

(** An open trade of the given side, quantity, entry price and leverage;
    its other numbers are zero. *)
Definition open_trade {num : Type} `{Number num} (side : Side)
    (quantity entry_price leverage : num) : Trade.t num :=
  {| Trade.id := "C-0001"; Trade.symbol := "BTC"; Trade.side := side;
     Trade.entry_price := entry_price; Trade.exit_price := None;
     Trade.current_price := entry_price; Trade.pnl_usd := of_Z 0;
     Trade.pnl_percent := of_Z 0; Trade.r_multiple := of_Z 0;
     Trade.entry_time := of_Z 0; Trade.exit_time := None; Trade.status := open;
     Trade.quantity := quantity; Trade.leverage := leverage;
     Trade.stop_loss := of_Z 0; Trade.take_profit := of_Z 0;
     Trade.fee_usd := of_Z 0; Trade.regime := "Growth";
     Trade.trinity_score := of_Z 60; Trade.setup_type := "Breakout";
     Trade.confidence := of_Z 0; Trade.entry_reason := "" |}.

(** Whether the notional of a position view is its size times its entry
    price, and its margin the notional over the leverage, exactly. *)
Definition notional_exact {num : Type} `{Number num} (pos : Position.t num) : bool :=
  (Position.notional pos =? Position.size pos * Position.entry_price pos)%js.

Definition margin_exact {num : Type} `{Number num} (pos : Position.t num) : bool :=
  (Position.margin_used pos =? Position.notional pos / Position.leverage pos)%js.

(** Draws for a first bar of DOGE: 0.3 for the start factor, 0.48 for the
    change, 0.5 for the two paddings and the volume; zeros after them. *)
Definition doge_draws : list Z :=
  [2702159776422297; 4323455642275676; 4503599627370496; 4503599627370496;
   4503599627370496].

(** A price on the grid of four decimals: [round4] leaves it as it is. *)
Definition on_grid (x : Q) : Prop := (round4 x == x)%Q.

(** No close event in a sequence of delivered events. *)
Definition no_close {num : Type} (events : list (WsEvent num)) : bool :=
  forallb (fun e => negb (is_close e)) events.

(** A socket whose open timer has fired: open with no close delivered so
    far, or closed with no message delivered after a close. *)
Definition settled {num : Type} (ws : MockWebSocket.t num) : Prop :=
  MockWebSocket.open_timer ws = false /\
  ((MockWebSocket.readyState ws = 1 /\ no_close (MockWebSocket.delivered ws) = true) \/
   (MockWebSocket.readyState ws = 3 /\
    silent_after_close (MockWebSocket.delivered ws) = true)).

(** Every symbol of the catalog has a price of at least [floor]. *)
Definition priced_from (floor : Q) (symbols : list string)
    (priceMap : list (string * Q)) : Prop :=
  List.Forall (fun sym => exists price, prop priceMap sym = Some price /\ (floor <= price)%Q)
    symbols.

Section Notions.
Context {num : Type} `{Number num} `{Host}.

(** The routes that stand before the drift route (the 18th of the table)
    and before the kill-switch route (the 19th). *)
Definition before_drift (G : Globals.t num) : list (Route.t num) :=
  firstn 17 (MOCK_ROUTES G).

Definition before_kill_switch (G : Globals.t num) : list (Route.t num) :=
  firstn 18 (MOCK_ROUTES G).

(** The candle cache after the candles of [symbols] were asked for, one
    after the other. *)
Fixpoint warm_cache (symbols : list string) (cache : Cache num) : Rand (Cache num) :=
  match symbols with
  | [] => ret cache
  | symbol :: symbols' =>
      r <- getCandlesForSymbol symbol cache ;; warm_cache symbols' (snd r)
  end.

(** Every series in the cache has the fixed length. *)
Definition full_series (cache : Cache num) : Prop :=
  forall symbol series, cache !! symbol = Some series -> List.length series = 500%nat.

(** The candle invariant: [high >= max(open, close)] and
    [low <= min(open, close)]. *)
Definition candle_ok (c : Candle.t num) : bool :=
  (Math_max (Candle.open c) (Candle.close c) <=? Candle.high c)%js &&
  (Candle.low c <=? Math_min (Candle.open c) (Candle.close c))%js.

End Notions.

(** What the view [pos] of the open record [t] is.  It carries the symbol,
    the side, the size, the entry price and the leverage of the record.
    Its notional is [quantity * entry] rounded to two decimals and its
    margin [quantity * entry / leverage] rounded to two decimals, each
    within half a cent of the exact value.  Its liquidation price is
    [entry * (1 -/+ 0.9 / leverage)] rounded to four decimals, within half
    a unit of the fourth decimal of the exact value, and strictly on the
    losing side of the entry price when the exact gap
    [0.9 * entry / leverage] is at least one unit of the fourth decimal
    (a leverage from 1 to 9000 times the entry price) and the entry price
    is at most a million. *)
Definition rounded_view (t : Trade.t Q) (pos : Position.t Q) : Prop :=
  Position.symbol pos = Trade.symbol t /\
  Position.side pos = Trade.side t /\
  Position.size pos = Trade.quantity t /\
  Position.entry_price pos = Trade.entry_price t /\
  Position.leverage pos = Trade.leverage t /\
  Position.notional pos = round2 (Trade.quantity t * Trade.entry_price t)%Q /\
  (Qabs (Position.notional pos - Trade.quantity t * Trade.entry_price t)
   <= 1 # 200)%Q /\
  Position.margin_used pos
  = round2 (Trade.quantity t * Trade.entry_price t / Trade.leverage t)%Q /\
  (Qabs (Position.margin_used pos
         - Trade.quantity t * Trade.entry_price t / Trade.leverage t)
   <= 1 # 200)%Q /\
  (let exact :=
     if is_long (Trade.side t)
     then (Trade.entry_price t * (1 - (9 # 10) / Trade.leverage t))%Q
     else (Trade.entry_price t * (1 + (9 # 10) / Trade.leverage t))%Q in
   Position.liquidation_price pos = round4 exact /\
   (Qabs (Position.liquidation_price pos - exact) <= 1 # 20000)%Q) /\
  ((1 <= Trade.leverage t)%Q ->
   (Trade.leverage t <= 9000 * Trade.entry_price t)%Q ->
   (Trade.entry_price t <= 1000000)%Q ->
   if is_long (Trade.side t)
   then (Position.liquidation_price pos < Trade.entry_price t)%Q
   else (Trade.entry_price t < Position.liquidation_price pos)%Q).

(** The stream of the largest draw: every draw is [1 - 2^-53]. *)
Definition top_bits : nat -> Z := fun _ => 2 ^ 53 - 1.

(** ** Notions of the further properties *)

(** What [uuid] may put at the place of a character of its template: a
    hexadecimal digit for an [x], one of 8, 9, a, b for the [y], the
    character itself otherwise. *)
Definition uuid_char (c d : ascii) : bool :=
  if Ascii.eqb c "x"
  then existsb (Ascii.eqb d) (list_ascii_of_string "0123456789abcdef")
  else if Ascii.eqb c "y"
  then existsb (Ascii.eqb d) (list_ascii_of_string "89ab")
  else Ascii.eqb d c.

Fixpoint uuid_shape (template s : string) : bool :=
  match template, s with
  | EmptyString, EmptyString => true
  | String c template', String d s' => uuid_char c d && uuid_shape template' s'
  | _, _ => false
  end.

(** [x === null]. *)
Definition is_null {A : Type} (o : option A) : bool :=
  match o with Some _ => false | None => true end.

(** The exit price and the exit time of a record are null when it is open
    and set when it is closed. *)
Definition exit_fields_match {num : Type} (t : Trade.t num) : bool :=
  Bool.eqb (is_null (Trade.exit_price t)) (is_open (Trade.status t)) &&
  Bool.eqb (is_null (Trade.exit_time t)) (is_open (Trade.status t)).

(** The stop is on the losing side of the entry price and the target on
    the winning side. *)
Definition brackets_entry (t : Trade.t Q) : Prop :=
  if is_long (Trade.side t)
  then (Trade.stop_loss t <= Trade.entry_price t /\
        Trade.entry_price t <= Trade.take_profit t)%Q
  else (Trade.take_profit t <= Trade.entry_price t /\
        Trade.entry_price t <= Trade.stop_loss t)%Q.

(** A closed record: its R-multiple is -1 or from 0.5 to 5, the sign of
    its profit follows the R-multiple, and its exit price is on the side
    of the entry price that the R-multiple and the side give. *)
Definition outcome_consistent (t : Trade.t Q) : Prop :=
  Trade.status t = closed ->
  let r := Trade.r_multiple t in
  ((r == -1)%Q \/ (1 # 2 <= r /\ r <= 5)%Q) /\
  ((0 <= r)%Q -> (0 <= Trade.pnl_usd t)%Q) /\
  ((r <= 0)%Q -> (Trade.pnl_usd t <= 0)%Q) /\
  exists x, Trade.exit_price t = Some x /\
    ((0 <= r)%Q -> if is_long (Trade.side t) then (Trade.entry_price t <= x)%Q
                   else (x <= Trade.entry_price t)%Q) /\
    ((r <= 0)%Q -> if is_long (Trade.side t) then (x <= Trade.entry_price t)%Q
                   else (Trade.entry_price t <= x)%Q).

(** The entry of a record is from one day to 45 days and 23 hours before
    [now]; a closed record exits from one hour to 48 hours after its
    entry. *)
Definition timed (now : Z) (t : Trade.t Q) : Prop :=
  (inject_Z now - 45 * 86400000 - 23 * 3600000 <= Trade.entry_time t)%Q /\
  (Trade.entry_time t <= inject_Z now - 86400000)%Q /\
  (Trade.status t = closed ->
   exists x, Trade.exit_time t = Some x /\
     (Trade.entry_time t + 3600000 <= x)%Q /\
     (x <= Trade.entry_time t + 48 * 3600000)%Q).

(** The labels of a record are of the catalogs, its score is an integer
    from 60 to 96 and its confidence from 0.6 to 0.95.  The score is
    [randInt(60, 95)], the floor of a number drawn from 60 up to 96: 96
    itself is what the largest draw gives in binary64, where the product
    rounds up. *)
Definition rated (symbols : list string) (t : Trade.t Q) : Prop :=
  In (Trade.symbol t) symbols /\
  In (Trade.regime t) REGIMES /\
  In (Trade.setup_type t) SETUP_TYPES /\
  In (Trade.entry_reason t) ENTRY_REASONS /\
  (exists z : Z, Trade.trinity_score t = inject_Z z /\ (60 <= z <= 96)%Z) /\
  (60 # 100 <= Trade.confidence t /\ Trade.confidence t <= 95 # 100)%Q.

(** Each bar opens at [price], the close of the bar before it. *)
Fixpoint chained {num : Type} (price : num) (bars : list (Candle.t num)) : Prop :=
  match bars with
  | [] => True
  | c :: bars' => Candle.open c = price /\ chained (Candle.close c) bars'
  end.

(** The close of a bar is between its low and its high. *)
Definition close_within (c : Candle.t Q) : Prop :=
  (Candle.low c <= Candle.close c /\ Candle.close c <= Candle.high c)%Q.

(** An alert of the feed: its level and message are a pair of the catalog,
    its source is one of the four, its id has the shape of [uuid] and its
    time is within the 24 hours and 59 minutes before [now]. *)
Definition alert_sound (now : Z) (a : Alert.t Q) : Prop :=
  In (Alert.level a, Alert.message a) alert_msgs /\
  In (Alert.source a) ["crypto-bot"; "hip3-bot"; "monitor"; "system"] /\
  uuid_shape "xxxxxxxx-xxxx-4xxx-yxxx-xxxxxxxxxxxx" (Alert.id a) = true /\
  (inject_Z now - 89940000 <= Alert.timestamp a)%Q /\
  (Alert.timestamp a <= inject_Z now)%Q.

Definition unacknowledged {num : Type} (alerts : list (Alert.t num)) : nat :=
  List.length (List.filter (fun a => negb (Alert.acknowledged a)) alerts).

(** An error of the feed: resolved, with a message of the catalog, a
    source of the three, an id of the shape of [uuid] and a time from 2 to
    72 hours before [now]. *)
Definition error_sound (now : Z) (e : ErrorEntry.t Q) : Prop :=
  In (ErrorEntry.message e, ErrorEntry.resolved e) error_msgs /\
  ErrorEntry.resolved e = true /\
  In (ErrorEntry.source e) ["crypto-bot"; "hip3-bot"; "system"] /\
  uuid_shape "xxxxxxxx-xxxx-4xxx-yxxx-xxxxxxxxxxxx" (ErrorEntry.id e) = true /\
  (inject_Z now - 72 * 3600000 <= ErrorEntry.timestamp e)%Q /\
  (ErrorEntry.timestamp e <= inject_Z now - 2 * 3600000)%Q.

(** The labels of a scanned coin, and what was drawn for it: a signal of
    the four, an integer momentum from 20 to 95 and a price from 0.5 to
    500. *)
Definition coin_labels {num : Type} (j : json num)
  : option (json num) * option (json num) * option (json num) :=
  (field "symbol" j, field "name" j, field "sector" j).

Definition coin_sound (j : json Q) : Prop :=
  (exists s, field "signal" j = Some (JStr s) /\
             In s ["strong_buy"; "buy"; "neutral"; "sell"]) /\
  (exists z : Z, field "momentum_score" j = Some (JNum (inject_Z z)) /\
                 (20 <= z <= 95)%Z) /\
  (exists x : Q, field "price" j = Some (JNum x) /\ (1 # 2 <= x /\ x <= 500)%Q).

(** The first event handed to the client is not a message. *)
Definition starts_quietly {num : Type} (events : list (WsEvent num)) : bool :=
  match events with
  | [] => true
  | e :: _ => negb (is_message e)
  end.

(** The level and the text of the log messages among the events, in the
    order of their delivery. *)
Definition log_lines {num : Type} (events : list (WsEvent num))
  : list (string * string) :=
  flat_map (fun e => match e with
                     | EvMessage (LOG _ level message) => [(level, message)]
                     | _ => []
                     end) events.

(** A client that never closes the socket from a handler. *)
Definition quiet {num : Type} : WsEvent num -> bool := fun _ => false.

(** A socket that has delivered nothing is not open, and the first event
    delivered is not a message. *)
Definition opens_first {num : Type} (ws : MockWebSocket.t num) : Prop :=
  starts_quietly (MockWebSocket.delivered ws) = true /\
  (MockWebSocket.delivered ws = [] -> MockWebSocket.readyState ws <> 1).

(** A socket that is closed and whose open timer has fired. *)
Definition closed_for_good {num : Type} (ws : MockWebSocket.t num) : Prop :=
  MockWebSocket.readyState ws = 3 /\ MockWebSocket.open_timer ws = false.

(** An open socket with its interval timer running, [k] ticks after the
    open timer, the log messages delivered so far being [lines]. *)
Definition ticking {num : Type} (lines : list (string * string)) (k : nat)
    (ws : MockWebSocket.t num) : Prop :=
  MockWebSocket.readyState ws = 1 /\
  MockWebSocket.interval_timer ws <> None /\
  MockWebSocket.msgIndex ws = k /\
  log_lines (MockWebSocket.delivered ws) = lines.

(** An excerpt of the stats table of the crypto bot, and module values
    that serve it for every table. *)
Definition stats_excerpt : json Q :=
  JObj [("balance", JNum (154205 # 10)); ("initial_balance", JNum 10000%Q);
        ("pnl_today", JNum (3124 # 10))].

Definition excerpt_globals : Globals.t Q :=
  {| Globals.CRYPTO_TRADES := []; Globals.HIP3_TRADES := [];
     Globals.CRYPTO_POSITIONS := []; Globals.HIP3_POSITIONS := [];
     Globals.table := fun _ => stats_excerpt |}.


(** The liquidation price of a position view is strictly on the losing
    side of its entry price. *)
Definition liquidation_beyond_entry (pos : Position.t Q) : Prop :=
  if is_long (Position.side pos)
  then (Position.liquidation_price pos < Position.entry_price pos)%Q
  else (Position.entry_price pos < Position.liquidation_price pos)%Q.


(* ===================================================================== *)
(** * Part II. Properties                                                 *)
(* ===================================================================== *)

(** ** Draws, loops and sorting *)

Lemma bind_run {A B : Type} (m : Rand A) (k : A -> Rand B) (p : nat) :
  bind m k p = k (fst (m p)) (snd (m p)).
Proof. unfold bind. destruct (m p) as [a p']. reflexivity. Qed.

(** What holds of the result of the continuation, whatever was drawn
    before, holds of the result of the whole. *)
Lemma bind_result {A B : Type} (P : B -> Prop) (m : Rand A) (k : A -> Rand B) (p : nat) :
  (forall a q, P (fst (k a q))) -> P (fst (bind m k p)).
Proof. intros Hk. rewrite bind_run. apply Hk. Qed.


Lemma for_push_length {A : Type} (body : nat -> Rand A) (n i p : nat) :
  List.length (fst (for_push body i n p)) = n.
Proof.
  revert i p. induction n as [|n IH]; intros i p; simpl.
  - reflexivity.
  - rewrite !bind_run. simpl. rewrite IH. reflexivity.
Qed.

(** The loop pushes the results of its body at [i], [i+1], ... *)
Lemma for_push_map {A B : Type} (body : nat -> Rand A) (f : A -> B) (g : nat -> B) :
  (forall i p, f (fst (body i p)) = g i) ->
  forall n i p, List.map f (fst (for_push body i n p)) = List.map g (seq i n).
Proof.
  intros Hbody. induction n as [|n IH]; intros i p; simpl.
  - reflexivity.
  - rewrite !bind_run. simpl. rewrite Hbody, IH. reflexivity.
Qed.

Lemma sort_insert_perm {A : Type} (after : A -> A -> bool) (x : A) (l : list A) :
  Permutation (sort_insert after x l) (x :: l).
Proof.
  induction l as [|y l IH]; simpl.
  - apply Permutation_refl.
  - destruct (after x y).
    + eapply perm_trans; [apply perm_skip, IH | apply perm_swap].
    + apply Permutation_refl.
Qed.

Lemma sort_perm {A : Type} (after : A -> A -> bool) (l : list A) :
  Permutation (sort after l) l.
Proof.
  induction l as [|x l IH]; simpl.
  - apply perm_nil.
  - eapply perm_trans; [apply sort_insert_perm | apply perm_skip, IH].
Qed.

Lemma sort_length {A : Type} (after : A -> A -> bool) (l : list A) :
  List.length (sort after l) = List.length l.
Proof. apply Permutation_length, sort_perm. Qed.

Lemma filter_length_perm {A : Type} (f : A -> bool) (l l' : list A) :
  Permutation l l' ->
  List.length (List.filter f l) = List.length (List.filter f l').
Proof.
  induction 1 as [|x l l' _ IH|x y l|l l' l'' _ IH1 _ IH2]; simpl.
  - reflexivity.
  - destruct (f x); simpl; congruence.
  - destruct (f x), (f y); reflexivity.
  - congruence.
Qed.

Lemma key_after_false {A : Type} (key : A -> Q) (a b : A) :
  key_after key a b = false -> (key b <= key a)%Q.
Proof.
  unfold key_after, Q_ltb. destruct (Qlt_le_dec 0 (key b - key a)); [discriminate|].
  intros _. lra.
Qed.

Lemma key_after_true {A : Type} (key : A -> Q) (a b : A) :
  key_after key a b = true -> (key a <= key b)%Q.
Proof.
  unfold key_after, Q_ltb. destruct (Qlt_le_dec 0 (key b - key a)); [|discriminate].
  intros _. lra.
Qed.

Lemma sort_insert_descending {A : Type} (key : A -> Q) (x : A) (l : list A) :
  descending key l -> descending key (sort_insert (key_after key) x l).
Proof.
  unfold descending. induction 1 as [|y l Hl IH Hy]; simpl.
  - constructor; constructor.
  - destruct (key_after key x y) eqn:E.
    + constructor; [exact IH|].
      apply key_after_true in E.
      rewrite List.Forall_forall in *. intros z Hz.
      apply (Permutation_in _ (sort_insert_perm _ x l)) in Hz.
      destruct Hz as [<-|Hz]; [exact E | apply Hy, Hz].
    + apply key_after_false in E.
      constructor; [constructor; assumption|].
      constructor; [exact E|].
      rewrite List.Forall_forall in *. intros z Hz.
      specialize (Hy z Hz). lra.
Qed.

Lemma sort_descending {A : Type} (key : A -> Q) (l : list A) :
  descending key (sort (key_after key) l).
Proof.
  induction l as [|x l IH]; simpl.
  - constructor.
  - apply sort_insert_descending, IH.
Qed.

(** ** The trade ledger (claim C1) *)

Lemma filter_map_length {A B : Type} (f : A -> B) (g : B -> bool) (l : list A) :
  List.length (List.filter (fun x => g (f x)) l)
  = List.length (List.filter g (List.map f l)).
Proof.
  induction l as [|x l IH]; simpl; [reflexivity|].
  destruct (g (f x)); simpl; congruence.
Qed.

Lemma open_statuses_from (K n i : nat) :
  List.length (List.filter is_open (List.map (status_at K) (seq i n)))
  = Nat.min n (K - i).
Proof.
  revert i. induction n as [|n IH]; intros i.
  - reflexivity.
  - cbn [seq List.map List.filter]. unfold status_at at 1.
    destruct (Nat.ltb_spec i K); cbn [is_open List.length]; rewrite IH; lia.
Qed.

Section Ledger.
Context {num : Type} `{Number num} `{Host}.

(** The status of a record depends on its index alone: open below
    [openCount], closed from there on, whatever is drawn. *)
Lemma generateTrades_body_status symbols priceMap leverage prefix openCount i p :
  Trade.status (fst (generateTrades_body symbols priceMap leverage prefix openCount i p))
  = status_at openCount i.
Proof.
  unfold generateTrades_body. repeat (apply bind_result; intros ? ?). reflexivity.
Qed.

(** In every number system: the ledger is a rearrangement of the records
    the loop pushed, and as many of them are open as the class fixes, once
    the loop runs that far. *)
Lemma generateTrades_count_open symbols priceMap leverage count prefix p :
  Z.of_nat (openCount_of prefix) <= count ->
  count_open (fst (generateTrades symbols priceMap leverage count prefix p))
  = openCount_of prefix.
Proof.
  intros Hcount. unfold generateTrades, count_open. rewrite bind_run. simpl.
  rewrite (filter_length_perm _ _ _ (sort_perm _ _)).
  rewrite (filter_map_length Trade.status is_open).
  rewrite (for_push_map _ Trade.status (status_at (openCount_of prefix))).
  - rewrite open_statuses_from. lia.
  - intros i q. apply generateTrades_body_status.
Qed.

(** The two ledgers of the module: three open records for crypto, two for
    HIP-3, and as many positions. *)
Lemma module_ledgers_open p :
  count_open (fst (CRYPTO_TRADES p)) = 3%nat /\
  count_open (fst (HIP3_TRADES p)) = 2%nat /\
  List.length (tradesAsPositions (fst (CRYPTO_TRADES p))) = 3%nat /\
  List.length (tradesAsPositions (fst (HIP3_TRADES p))) = 2%nat.
Proof.
  assert (Hc : count_open (fst (CRYPTO_TRADES p)) = 3%nat)
    by (apply (generateTrades_count_open _ _ _ 55 "C"); vm_compute; discriminate).
  assert (Hh : count_open (fst (HIP3_TRADES p)) = 2%nat)
    by (apply (generateTrades_count_open _ _ _ 40 "H"); vm_compute; discriminate).
  unfold tradesAsPositions. rewrite !length_map. repeat split; assumption.
Qed.

End Ledger.

(** C1, as the code has it: in every generation run with [count] at least
    the open count of the class (3 for the prefix [C], 2 otherwise),
    exactly that many records are open; the ledger returned is the pushed
    records rearranged in descending order of entry time.  Where the open
    records stand in it is left to their drawn entry times. *)
Theorem generateTrades_open_and_sorted `{Host} symbols priceMap leverage count prefix p :
  Z.of_nat (openCount_of prefix) <= count ->
  let pushed :=
    fst (for_push (generateTrades_body (num:=Q) symbols priceMap leverage prefix
                     (openCount_of prefix)) 0 (Z.to_nat count) p) in
  let trades := fst (generateTrades (num:=Q) symbols priceMap leverage count prefix p) in
  openCount_of prefix = (if String.eqb prefix "C" then 3 else 2)%nat /\
  count_open trades = openCount_of prefix /\
  Permutation trades pushed /\
  descending Trade.entry_time trades.
Proof.
  intros Hcount pushed trades. split; [reflexivity|]. split; [|split].
  - apply generateTrades_count_open, Hcount.
  - unfold trades, pushed, generateTrades. rewrite bind_run. simpl.
    apply sort_perm.
  - unfold trades, generateTrades. rewrite bind_run. simpl.
    apply (sort_descending Trade.entry_time).
Qed.

Lemma generateTrades_open_and_sorted_witness :
  count_open (fst (generateTrades (num:=Q) (H0:=host_of mixed_bits)
                     CRYPTO_SYMBOLS CRYPTO_PRICES (lit 15) 55 "C" 0%nat)) = 3%nat /\
  descending Trade.entry_time
    (fst (generateTrades (num:=Q) (H0:=host_of mixed_bits)
            CRYPTO_SYMBOLS CRYPTO_PRICES (lit 15) 55 "C" 0%nat)).
Proof.
  assert (Hcount : Z.of_nat (openCount_of "C") <= 55) by (vm_compute; discriminate).
  pose proof (generateTrades_open_and_sorted (H:=host_of mixed_bits)
                CRYPTO_SYMBOLS CRYPTO_PRICES (lit 15) 55 "C" 0%nat Hcount) as W.
  cbv zeta in W. destruct W as (_ & Hopen & _ & Hsorted).
  split; [exact Hopen | exact Hsorted].
Defined.

(** C1, as stated, fails: in the run of the script's own call
    [generateTrades(CRYPTO_SYMBOLS, CRYPTO_PRICES, 15, 55, 'C')] on the
    stream [mixed_bits], three records are open and the first three
    positions of the ledger hold closed records. *)
Lemma open_trades_not_first :
  let trades := fst (CRYPTO_TRADES (num:=Q) (H0:=host_of mixed_bits) 0%nat) in
  count_open trades = 3%nat /\
  open_first 3 trades = false /\
  List.map (fun t => (Trade.id t, Trade.status t)) (firstn 3 trades)
  = [("C-0008", closed); ("C-0054", closed); ("C-0013", closed)].
Proof. vm_compute. repeat split. Qed.

(** The same run in binary64. *)
Lemma open_trades_not_first_binary64 :
  let trades := fst (CRYPTO_TRADES (num:=float) (H0:=host_of mixed_bits) 0%nat) in
  count_open trades = 3%nat /\
  open_first 3 trades = false /\
  List.map (fun t => (Trade.id t, Trade.status t)) (firstn 3 trades)
  = [("C-0008", closed); ("C-0054", closed); ("C-0013", closed)].
Proof. vm_compute. repeat split. Qed.

(** ** The fetch interceptor (claims C2, C7, C8) *)

Lemma first_match_app {num : Type} (l1 l2 : list (Route.t num)) (p u : string) :
  first_match (l1 ++ l2) p u
  = match first_match l1 p u with
    | Some r => Some r
    | None => first_match l2 p u
    end.
Proof.
  induction l1 as [|r l1 IH]; simpl; [reflexivity|].
  destruct (Route.matches r p u); [reflexivity | exact IH].
Qed.

(** A route that no earlier route shadows is the one the table resolves
    to. *)
Lemma first_match_at {num : Type} (routes : list (Route.t num)) (n : nat)
    (r : Route.t num) (p u : string) :
  nth_error routes n = Some r ->
  first_match (firstn n routes) p u = None ->
  Route.matches r p u = true ->
  first_match routes p u = Some r.
Proof.
  intros Hn Hbefore Hr.
  rewrite <- (firstn_skipn n routes), first_match_app, Hbefore.
  revert routes Hn Hbefore. induction n as [|n IH]; intros [|r0 routes] Hn Hb;
    try discriminate.
  - injection Hn as ->. simpl. rewrite Hr. reflexivity.
  - simpl. apply (IH routes Hn). simpl in Hb.
    destruct (Route.matches r0 p u); [discriminate | exact Hb].
Qed.

Section Dispatch.
Context {num : Type} `{Number num} `{Host}.

(** C2, as the code has it: a POST, PUT or DELETE whose address is not on
    the pass-through list is answered, whatever the route table holds and
    with the cache and the random stream left as they were, by the
    acknowledgement with [demo: true] and status 200 (and the toast), or,
    on the settings path, by the bare [{success: true}], which has no
    [demo] field. *)
Theorem mutating_request_acknowledged (routes : list (Route.t num))
    (url : string) (options : option string) (cache : Cache num) (p : nat) :
  is_public_api url = false ->
  is_asset_host url = false ->
  is_mutating (method_of options) = true ->
  fetch_with routes url options cache p
  = (if String.eqb (pathname_of url) "/api/dashboard/settings"
     then (Fetched.mk (answered json_headers (BJson settings_ack)) None None None,
           cache, p)
     else (Fetched.mk (answered json_headers (BJson demo_ack)) (Some toast_text)
             None None, cache, p))
  /\ field "demo" (demo_ack (num:=num)) = Some (JBool true)
  /\ field "demo" (settings_ack (num:=num)) = None.
Proof.
  intros Hapi Hasset Hmut. split; [|split; reflexivity].
  unfold fetch_with. rewrite Hapi, Hasset, Hmut.
  destruct (String.eqb (pathname_of url) "/api/dashboard/settings"); reflexivity.
Qed.

(** C7, as the code has it: a request that is not a POST, PUT or DELETE,
    whose address is not on the pass-through list, whose path starts with
    [/api/] (or is [/status]) and matches no route is answered with status
    200 by [{success: true, data: null, demo: true}], after a console
    warning, with no draw and the cache untouched. *)
Theorem unmatched_api_path_empty_success (G : Globals.t num)
    (url : string) (options : option string) (cache : Cache num) (p : nat) :
  is_public_api url = false ->
  is_asset_host url = false ->
  is_mutating (method_of options) = false ->
  first_match (MOCK_ROUTES G) (pathname_of url) url = None ->
  (startsWith "/api/" (pathname_of url) || String.eqb (pathname_of url) "/status")
  = true ->
  fetch G url options cache p
  = (Fetched.mk (answered json_headers (BJson empty_success)) None
       (Some (pathname_of url)) None, cache, p)
  /\ field "success" (empty_success (num:=num)) = Some (JBool true)
  /\ field "data" (empty_success (num:=num)) = Some JNull
  /\ field "demo" (empty_success (num:=num)) = Some (JBool true).
Proof.
  intros Hapi Hasset Hmut Hnone Hshape. split; [|repeat split].
  unfold fetch, fetch_with. rewrite Hapi, Hasset, Hmut, Hnone, Hshape.
  reflexivity.
Qed.

(** What [window.fetch] answers once a route is found. *)
Lemma fetch_matched (G : Globals.t num) (route : Route.t num)
    (url : string) (options : option string) (cache : Cache num) (p : nat) :
  is_public_api url = false ->
  is_asset_host url = false ->
  is_mutating (method_of options) = false ->
  first_match (MOCK_ROUTES G) (pathname_of url) url = Some route ->
  Fetched.outcome (fst (fst (fetch G url options cache p)))
  = answered demo_headers (fst (fst (Route.handler route url options cache p))) /\
  snd (fst (fetch G url options cache p))
  = snd (fst (Route.handler route url options cache p)).
Proof.
  intros Hapi Hasset Hmut Hroute.
  unfold fetch, fetch_with. rewrite Hapi, Hasset, Hmut, Hroute.
  rewrite !bind_run. simpl. split; reflexivity.
Qed.

(** C8, as the code has it: through [window.fetch], a request that is not
    a POST, PUT or DELETE, whose address is not on the pass-through list
    and whose path holds the drift (kill-switch) marker and matches no
    earlier route, is answered by the fixed payload, the cache untouched. *)
Theorem drift_and_kill_switch_fixed (G : Globals.t num)
    (url : string) (options : option string) (cache : Cache num) (p : nat) :
  is_public_api url = false ->
  is_asset_host url = false ->
  is_mutating (method_of options) = false ->
  (first_match (before_drift G) (pathname_of url) url = None ->
   includes "/drift" (pathname_of url) = true ->
   Fetched.outcome (fst (fst (fetch G url options cache p)))
   = answered demo_headers (BJson drift_payload) /\
   snd (fst (fetch G url options cache p)) = cache) /\
  (first_match (before_kill_switch G) (pathname_of url) url = None ->
   (includes "/kill-switch" (pathname_of url) ||
    includes "/kill_switch" (pathname_of url)) = true ->
   Fetched.outcome (fst (fst (fetch G url options cache p)))
   = answered demo_headers (BJson kill_switch_payload) /\
   snd (fst (fetch G url options cache p)) = cache).
Proof.
  intros Hapi Hasset Hmut. split; intros Hbefore Hmark.
  - destruct (fetch_matched G (nth 17 (MOCK_ROUTES G) (Route.mk (fun _ _ => false)
                (pure_handler (fun _ _ => BJson JNull))))
                url options cache p Hapi Hasset Hmut) as [Hout Hcache].
    + apply (first_match_at _ 17); [reflexivity | exact Hbefore | exact Hmark].
    + rewrite Hout, Hcache. split; reflexivity.
  - destruct (fetch_matched G (nth 18 (MOCK_ROUTES G) (Route.mk (fun _ _ => false)
                (pure_handler (fun _ _ => BJson JNull))))
                url options cache p Hapi Hasset Hmut) as [Hout Hcache].
    + apply (first_match_at _ 18); [reflexivity | exact Hbefore | exact Hmark].
    + rewrite Hout, Hcache. split; reflexivity.
Qed.

(** Through the XMLHttpRequest shim the same two routes answer for every
    method: the shim has no branch on the method.  This is for a request
    the shim intercepts, the only kind whose [send] runs this callback:
    [open] hands a request with any other address to the real
    XMLHttpRequest. *)
Lemma xhr_drift_any_method (G : Globals.t num)
    (method url : string) (cache : Cache num) (p : nat) :
  shouldIntercept url = true ->
  first_match (before_drift G) (pathname_of url) url = None ->
  includes "/drift" (pathname_of url) = true ->
  snd (fst (fst (xhr_send G method url cache p))) = BJson drift_payload.
Proof.
  intros _ Hbefore Hmark. unfold xhr_send, xhr_send_with. rewrite bind_run.
  rewrite (first_match_at (MOCK_ROUTES G) 17
             (nth 17 (MOCK_ROUTES G) (Route.mk (fun _ _ => false)
                (pure_handler (fun _ _ => BJson JNull)))) _ _
             eq_refl Hbefore Hmark).
  reflexivity.
Qed.

Lemma xhr_kill_switch_any_method (G : Globals.t num)
    (method url : string) (cache : Cache num) (p : nat) :
  shouldIntercept url = true ->
  first_match (before_kill_switch G) (pathname_of url) url = None ->
  (includes "/kill-switch" (pathname_of url) ||
   includes "/kill_switch" (pathname_of url)) = true ->
  snd (fst (fst (xhr_send G method url cache p))) = BJson kill_switch_payload.
Proof.
  intros _ Hbefore Hmark. unfold xhr_send, xhr_send_with. rewrite bind_run.
  rewrite (first_match_at (MOCK_ROUTES G) 18
             (nth 18 (MOCK_ROUTES G) (Route.mk (fun _ _ => false)
                (pure_handler (fun _ _ => BJson JNull)))) _ _
             eq_refl Hbefore Hmark).
  reflexivity.
Qed.

End Dispatch.

Lemma mutating_request_acknowledged_witness :
  let host := host_of mixed_bits in
  fetch_with (num:=Q) (MOCK_ROUTES (blank_globals Q))
    "http://localhost:9100/api/kill-switch/activate" (Some "POST") ∅ 0%nat
  = (Fetched.mk (answered json_headers (BJson demo_ack)) (Some toast_text) None None,
     ∅, 0%nat).
Proof.
  intros host.
  refine (proj1 (mutating_request_acknowledged (MOCK_ROUTES (blank_globals Q))
                   "http://localhost:9100/api/kill-switch/activate" (Some "POST")
                   ∅ 0%nat _ _ _)); vm_compute; reflexivity.
Defined.

(** C2, as stated, fails: a POST to an address of the pass-through list
    goes to the real transport, the check of the list standing before the
    check of the method. *)
Lemma post_to_public_api_passes_through :
  let host := host_of mixed_bits in
  let url := "https://api.binance.com/api/v3/order" in
  is_mutating (method_of (Some "POST")) = true /\
  pathname_of url = "/api/v3/order" /\
  fetch (num:=Q) (blank_globals Q) url (Some "POST") ∅ 0%nat
  = (Fetched.mk Passthrough None None None, ∅, 0%nat).
Proof. vm_compute. repeat split. Qed.

Lemma unmatched_api_path_empty_success_witness :
  let host := host_of mixed_bits in
  fetch (num:=Q) (blank_globals Q)
    "http://localhost:9100/api/unknown?x=1" None ∅ 0%nat
  = (Fetched.mk (answered json_headers (BJson empty_success)) None
       (Some "/api/unknown") None, ∅, 0%nat).
Proof.
  intros host.
  refine (proj1 (unmatched_api_path_empty_success
                   (blank_globals Q) "http://localhost:9100/api/unknown?x=1" None ∅ 0%nat
                   _ _ _ _ _)); vm_compute; reflexivity.
Defined.

(** C7, as stated, fails: a POST to a path under [/api/] that no route
    matches is answered by the acknowledgement of simulated actions, which
    has no [data] field. *)
Lemma unmatched_post_gets_no_null_data :
  let host := host_of mixed_bits in
  let url := "http://localhost:9100/api/unknown" in
  startsWith "/api/" (pathname_of url) = true /\
  first_match (MOCK_ROUTES (blank_globals Q)) (pathname_of url) url = None /\
  fetch (num:=Q) (blank_globals Q) url (Some "POST") ∅ 0%nat
  = (Fetched.mk (answered json_headers (BJson demo_ack)) (Some toast_text) None None,
     ∅, 0%nat) /\
  field "data" (demo_ack (num:=Q)) = None.
Proof. vm_compute. repeat split. Qed.

Lemma drift_and_kill_switch_fixed_witness :
  let host := host_of mixed_bits in
  Fetched.outcome (fst (fst (fetch (num:=Q) (blank_globals Q)
                               "http://localhost:9100/api/drift" None ∅ 0%nat)))
  = answered demo_headers (BJson drift_payload) /\
  Fetched.outcome (fst (fst (fetch (num:=Q) (blank_globals Q)
                               "/api/kill-switch" (Some "GET") ∅ 0%nat)))
  = answered demo_headers (BJson kill_switch_payload).
Proof.
  intros host. split.
  - refine (proj1 (proj1 (drift_and_kill_switch_fixed (blank_globals Q)
                            "http://localhost:9100/api/drift" None ∅ 0%nat _ _ _)
                     _ _)); vm_compute; reflexivity.
  - refine (proj1 (proj2 (drift_and_kill_switch_fixed (blank_globals Q)
                            "/api/kill-switch" (Some "GET") ∅ 0%nat _ _ _)
                     _ _)); vm_compute; reflexivity.
Defined.

(** C8, as stated, fails: through [window.fetch] a POST to the drift path
    and a DELETE to the kill-switch path are answered by the
    acknowledgement of simulated actions, not by the fixed payloads. *)
Lemma post_to_drift_is_acknowledged :
  let host := host_of mixed_bits in
  includes "/drift" (pathname_of "/api/drift") = true /\
  includes "/kill-switch" (pathname_of "/api/kill-switch") = true /\
  Fetched.outcome (fst (fst (fetch (num:=Q) (blank_globals Q)
                               "/api/drift" (Some "POST") ∅ 0%nat)))
  = answered json_headers (BJson demo_ack) /\
  Fetched.outcome (fst (fst (fetch (num:=Q) (blank_globals Q)
                               "/api/kill-switch" (Some "DELETE") ∅ 0%nat)))
  = answered json_headers (BJson demo_ack) /\
  answered json_headers (BJson (demo_ack (num:=Q)))
  <> answered demo_headers (BJson drift_payload) /\
  answered json_headers (BJson (demo_ack (num:=Q)))
  <> answered demo_headers (BJson kill_switch_payload).
Proof. vm_compute. repeat split; discriminate. Qed.

(** ** The alert and error feeds (claim C6) *)

Section Monitor.
Context {num : Type} `{Number num} `{Host}.

Lemma generateAlerts_length (count : IntOrNaN) (p : nat) :
  List.length (fst (generateAlerts count p)) = iterations count.
Proof.
  unfold generateAlerts. rewrite bind_run. simpl.
  rewrite sort_length. apply for_push_length.
Qed.

Lemma generateErrors_length (count : IntOrNaN) (p : nat) :
  List.length (fst (generateErrors count p)) = iterations count.
Proof.
  unfold generateErrors. rewrite bind_run. simpl.
  rewrite sort_length. apply for_push_length.
Qed.

Lemma monitor_alerts_body (url : string) (opts : option string)
    (cache : Cache num) (p : nat) :
  fst (fst (monitor_alerts_handler url opts cache p))
  = BAlerts (fst (generateAlerts (Math_min_int (requested_limit url "20") 20) p)).
Proof.
  unfold monitor_alerts_handler, drawing_handler. rewrite !bind_run. reflexivity.
Qed.

Lemma monitor_errors_body (url : string) (opts : option string)
    (cache : Cache num) (p : nat) :
  fst (fst (monitor_errors_handler url opts cache p))
  = BErrors (fst (generateErrors (Math_min_int (requested_limit url "30") 7) p)).
Proof.
  unfold monitor_errors_handler, drawing_handler. rewrite !bind_run. reflexivity.
Qed.

(** C6, as the code has it, for every request.  The text [parseInt] reads
    is the limit parameter of the address, or the default of the route
    (20 for alerts, 30 for errors) when the address has none or an empty
    one.  When that text reads as the integer [z], the alerts handler
    returns [max(0, min(z, 20))] entries and the errors handler
    [max(0, min(z, 7))]: [min(z, ceiling)] when [z] is not negative, the
    ceiling when more is asked for, none when zero or less is.  When it
    does not read as a number, both feeds are empty.  With the defaults
    read as 20 and 30, a request that names no limit gets 20 alerts and 7
    errors. *)
Theorem monitor_feeds_capped (url : string) (opts : option string)
    (cache : Cache num) (p : nat) :
  exists alerts errors,
    fst (fst (monitor_alerts_handler url opts cache p)) = BAlerts alerts /\
    fst (fst (monitor_errors_handler url opts cache p)) = BErrors errors /\
    (forall s z,
       search_get url "limit" = Some s -> s <> "" -> parseInt s = Some z ->
       Z.of_nat (List.length alerts) = Z.max 0 (Z.min z 20) /\
       Z.of_nat (List.length errors) = Z.max 0 (Z.min z 7)) /\
    (forall s,
       search_get url "limit" = Some s -> s <> "" -> parseInt s = None ->
       alerts = [] /\ errors = []) /\
    (search_get url "limit" = None \/ search_get url "limit" = Some "" ->
     (forall z, parseInt "20" = Some z ->
                Z.of_nat (List.length alerts) = Z.max 0 (Z.min z 20)) /\
     (forall z, parseInt "30" = Some z ->
                Z.of_nat (List.length errors) = Z.max 0 (Z.min z 7)) /\
     (parseInt "20" = None -> alerts = []) /\
     (parseInt "30" = None -> errors = [])).
Proof.
  exists (fst (generateAlerts (Math_min_int (requested_limit url "20") 20) p)),
         (fst (generateErrors (Math_min_int (requested_limit url "30") 7) p)).
  split; [apply monitor_alerts_body|]. split; [apply monitor_errors_body|].
  assert (Hnone : forall (l : list (Alert.t num)), List.length l = 0%nat -> l = [])
    by (intros l; apply length_zero_iff_nil).
  assert (Hnone' : forall (l : list (ErrorEntry.t num)),
             List.length l = 0%nat -> l = [])
    by (intros l; apply length_zero_iff_nil).
  split; [|split].
  - intros s z Hget Hs Hparse.
    apply String.eqb_neq in Hs.
    rewrite generateAlerts_length, generateErrors_length.
    unfold requested_limit. rewrite Hget, Hs, Hparse.
    cbn [Math_min_int iterations]. lia.
  - intros s Hget Hs Hparse. apply String.eqb_neq in Hs.
    split; [apply Hnone; rewrite generateAlerts_length
           | apply Hnone'; rewrite generateErrors_length];
      unfold requested_limit; rewrite Hget, Hs, Hparse; reflexivity.
  - intros Hget.
    assert (Ha : forall dflt, requested_limit url dflt = parseInt dflt).
    { intros dflt. unfold requested_limit.
      destruct Hget as [-> | ->]; reflexivity. }
    split; [|split; [|split]].
    + intros z Hparse. rewrite generateAlerts_length, Ha, Hparse.
      cbn [Math_min_int iterations]. lia.
    + intros z Hparse. rewrite generateErrors_length, Ha, Hparse.
      cbn [Math_min_int iterations]. lia.
    + intros Hparse. apply Hnone. rewrite generateAlerts_length, Ha, Hparse.
      reflexivity.
    + intros Hparse. apply Hnone'. rewrite generateErrors_length, Ha, Hparse.
      reflexivity.
Qed.

(** A request that names no limit gets the default of its route: 20
    alerts, and [min(30, 7) = 7] errors. *)
Lemma monitor_feeds_default (url : string) (opts : option string)
    (cache : Cache num) (p : nat) :
  search_get url "limit" = None ->
  parseInt "20" = Some 20 ->
  parseInt "30" = Some 30 ->
  (exists alerts,
     fst (fst (monitor_alerts_handler url opts cache p)) = BAlerts alerts /\
     List.length alerts = 20%nat) /\
  (exists errors,
     fst (fst (monitor_errors_handler url opts cache p)) = BErrors errors /\
     List.length errors = 7%nat).
Proof.
  intros Hnone H20 H30.
  assert (Ha : requested_limit url "20" = Some 20)
    by (unfold requested_limit; rewrite Hnone; exact H20).
  assert (He : requested_limit url "30" = Some 30)
    by (unfold requested_limit; rewrite Hnone; exact H30).
  split.
  - eexists. split; [apply monitor_alerts_body|].
    rewrite generateAlerts_length, Ha. reflexivity.
  - eexists. split; [apply monitor_errors_body|].
    rewrite generateErrors_length, He. reflexivity.
Qed.

(** A limit that is negative, or not a number, gives an empty feed. *)
Lemma monitor_alerts_empty (url : string) (opts : option string)
    (cache : Cache num) (p : nat) :
  match requested_limit url "20" with Some z => z <= 0 | None => True end ->
  fst (fst (monitor_alerts_handler url opts cache p)) = BAlerts [].
Proof.
  intros Hreq. rewrite monitor_alerts_body. f_equal.
  apply length_zero_iff_nil. rewrite generateAlerts_length.
  destruct (requested_limit url "20") as [z|]; simpl; [lia | reflexivity].
Qed.

End Monitor.

Lemma monitor_feeds_capped_witness :
  let host := host_of mixed_bits in
  exists alerts errors,
    fst (fst (monitor_alerts_handler (num:=Q) "/api/monitor/alerts?limit=50" None ∅ 0%nat))
    = BAlerts alerts /\
    fst (fst (monitor_errors_handler (num:=Q) "/api/monitor/alerts?limit=50" None ∅ 0%nat))
    = BErrors errors /\
    Z.of_nat (List.length alerts) = 20 /\
    Z.of_nat (List.length errors) = 7.
Proof.
  intros host.
  destruct (monitor_feeds_capped (num:=Q) "/api/monitor/alerts?limit=50" None ∅ 0%nat)
    as (alerts & errors & Halerts & Herrors & Hint & _).
  exists alerts, errors. split; [exact Halerts|]. split; [exact Herrors|].
  apply (Hint "50" 50); [reflexivity | discriminate | reflexivity].
Defined.

(** C6, as stated, fails: the count is not [min(limit, ceiling)] for
    every request.  Asked for [-5] alerts, the handler returns none, and
    [min(-5, 20)] is [-5]; asked for [abc], which [parseInt] reads as NaN,
    it returns none, and there is no minimum to speak of.  A request for
    zero alerts gets none, one for 3 gets 3, one for 50 gets 20, one that
    names no limit gets 20.  In exact arithmetic and in binary64. *)
Lemma feed_count_is_not_min_of_limit :
  let host := host_of mixed_bits in
  let count (num : Type) `{Number num} (url : string) : Z :=
    match fst (fst (monitor_alerts_handler (num:=num) url None ∅ 0%nat)) with
    | BAlerts alerts => Z.of_nat (List.length alerts)
    | _ => -1
    end in
  let urls := ["/api/monitor/alerts?limit=-5"; "/api/monitor/alerts?limit=abc";
               "/api/monitor/alerts?limit=0"; "/api/monitor/alerts?limit=3";
               "/api/monitor/alerts?limit=50"; "/api/monitor/alerts"] in
  List.map (fun url => requested_limit url "20") urls
  = [Some (-5); None; Some 0; Some 3; Some 50; Some 20] /\
  List.map (count Q) urls = [0; 0; 0; 3; 20; 20] /\
  List.map (count float) urls = [0; 0; 0; 3; 20; 20] /\
  count Q "/api/monitor/alerts?limit=-5" <> Z.min (-5) 20.
Proof. vm_compute. repeat split. discriminate. Qed.

(** ** The candle cache (claim C5) *)

Section CandleCache.
Context {num : Type} `{Number num} `{Host}.

Lemma generateCandles_loop_length basePrice count intervalMs vol price i n p :
  List.length (fst (generateCandles_loop basePrice count intervalMs vol price i n p))
  = n.
Proof.
  revert price i p. induction n as [|n IH]; intros price i p; simpl.
  - reflexivity.
  - do 4 (apply bind_result; intros ? ?).
    rewrite bind_run. simpl. rewrite IH. reflexivity.
Qed.

Lemma generateCandles_length basePrice count intervalMs p :
  List.length (fst (generateCandles basePrice count intervalMs p)) = Z.to_nat count.
Proof.
  unfold generateCandles. apply bind_result. intros start q.
  apply generateCandles_loop_length.
Qed.

(** A call for a symbol the cache holds returns the stored series, draws
    nothing and leaves the cache as it is. *)
Lemma getCandlesForSymbol_hit symbol (cache : Cache num) series p :
  cache !! symbol = Some series ->
  getCandlesForSymbol symbol cache p = (series, cache, p).
Proof. intros E. unfold getCandlesForSymbol. rewrite E. reflexivity. Qed.

(** A call for a symbol the cache does not hold generates 500 bars and
    stores them under the symbol. *)
Lemma getCandlesForSymbol_miss symbol (cache : Cache num) p :
  cache !! symbol = None ->
  exists series q,
    List.length series = 500%nat /\
    getCandlesForSymbol symbol cache p = (series, <[symbol := series]> cache, q).
Proof.
  intros E. unfold getCandlesForSymbol. rewrite E, bind_run.
  set (base := or_else _ _).
  exists (fst (generateCandles base 500 (lit (5 * 60 * 1000)) p)),
         (snd (generateCandles base 500 (lit (5 * 60 * 1000)) p)).
  split; [apply generateCandles_length|].
  unfold ret. rewrite lookup_insert_eq. reflexivity.
Qed.

(** A call returns what the cache holds for the symbol once it is done. *)
Lemma getCandlesForSymbol_cached symbol (cache : Cache num) p :
  snd (fst (getCandlesForSymbol symbol cache p)) !! symbol
  = Some (fst (fst (getCandlesForSymbol symbol cache p))).
Proof.
  destruct (cache !! symbol) as [cached|] eqn:E.
  - rewrite (getCandlesForSymbol_hit _ _ _ _ E). exact E.
  - destruct (getCandlesForSymbol_miss symbol cache p E) as (series & q & _ & ->).
    simpl. apply lookup_insert_eq.
Qed.

Lemma getCandlesForSymbol_full symbol (cache : Cache num) p :
  full_series cache -> full_series (snd (fst (getCandlesForSymbol symbol cache p))).
Proof.
  intros Hfull. destruct (cache !! symbol) as [cached|] eqn:E.
  - rewrite (getCandlesForSymbol_hit _ _ _ _ E). exact Hfull.
  - destruct (getCandlesForSymbol_miss symbol cache p E) as (series & q & Hlen & ->).
    simpl. intros s other. destruct (decide (symbol = s)) as [->|Hne].
    + rewrite lookup_insert_eq. intros [= <-]. exact Hlen.
    + rewrite lookup_insert_ne by exact Hne. apply Hfull.
Qed.

Lemma warm_cache_full symbols (cache : Cache num) p :
  full_series cache -> full_series (fst (warm_cache symbols cache p)).
Proof.
  revert cache p. induction symbols as [|s symbols IH]; intros cache p Hfull; simpl.
  - exact Hfull.
  - rewrite bind_run. apply IH, getCandlesForSymbol_full, Hfull.
Qed.

(** C5: after any earlier requests, two successive calls of
    [getCandlesForSymbol] for a symbol return the same series, of 500
    bars: the first call leaves the series in the cache (generating it if
    it was not there), the second returns the stored series, draws nothing
    and leaves the cache as it was. *)
Theorem getCandlesForSymbol_memoized (earlier : list string) (symbol : string) (p : nat) :
  let warmed := warm_cache earlier ∅ p in
  let first := getCandlesForSymbol symbol (fst warmed) (snd warmed) in
  let second := getCandlesForSymbol symbol (snd (fst first)) (snd first) in
  fst (fst second) = fst (fst first) /\
  List.length (fst (fst first)) = 500%nat /\
  List.map Candle.open (fst (fst second)) = List.map Candle.open (fst (fst first)) /\
  List.map Candle.high (fst (fst second)) = List.map Candle.high (fst (fst first)) /\
  List.map Candle.low (fst (fst second)) = List.map Candle.low (fst (fst first)) /\
  List.map Candle.close (fst (fst second)) = List.map Candle.close (fst (fst first)) /\
  List.map Candle.volume (fst (fst second)) = List.map Candle.volume (fst (fst first)) /\
  snd (fst second) = snd (fst first) /\
  snd second = snd first.
Proof.
  intros warmed first second.
  assert (Hfull : full_series (snd (fst first))).
  { apply getCandlesForSymbol_full, warm_cache_full. intros s series.
    rewrite lookup_empty. discriminate. }
  pose proof (getCandlesForSymbol_cached symbol (fst warmed) (snd warmed)) as Hcached.
  fold first in Hcached.
  assert (Hsecond : second = (fst (fst first), snd (fst first), snd first))
    by (apply getCandlesForSymbol_hit, Hcached).
  rewrite Hsecond. simpl.
  split; [reflexivity|]. split; [exact (Hfull _ _ Hcached)|].
  repeat split; reflexivity.
Qed.

End CandleCache.

(** A run in binary64: the second request for [btc] returns the series of
    the first, bar for bar, and draws nothing. *)
Lemma getCandlesForSymbol_memoized_binary64 :
  let host := host_of mixed_bits in
  let first := candles_handler (num:=float) "/api/candles/btc?interval=5m" None ∅ 0%nat in
  let second :=
    candles_handler (num:=float) "/api/candles/btc?interval=5m" None
      (snd (fst first)) (snd first) in
  fst (fst second) = fst (fst first) /\ snd second = 2001%nat.
Proof. vm_compute. split; reflexivity. Qed.

(** ** Exact arithmetic of the rounding helpers *)

Lemma Q_round_spec (x : Q) :
  (Q_round x <= x + (1 # 2) /\ x - (1 # 2) < Q_round x)%Q.
Proof.
  unfold Q_round. pose proof (Qfloor_le (x + (1 # 2))) as Hle.
  pose proof (Qlt_floor (x + (1 # 2))) as Hlt.
  rewrite inject_Z_plus in Hlt. change (inject_Z 1) with 1%Q in Hlt.
  split; lra.
Qed.

Lemma Q_round_mono (x y : Q) : (x <= y)%Q -> (Q_round x <= Q_round y)%Q.
Proof.
  intros Hxy. unfold Q_round. rewrite <- Zle_Qle.
  apply Qfloor_resp_le. lra.
Qed.

Lemma Q_round_eq (x y : Q) : (x == y)%Q -> Q_round x = Q_round y.
Proof.
  intros Hxy. unfold Q_round. f_equal. apply Qfloor_comp. rewrite Hxy. reflexivity.
Qed.

Lemma Q_round_inject (z : Z) : Q_round (inject_Z z) = inject_Z z.
Proof.
  unfold Q_round. f_equal.
  assert (Hlo : (z <= Qfloor (inject_Z z + (1 # 2)))%Z).
  { rewrite <- (Qfloor_Z z) at 1. apply Qfloor_resp_le. lra. }
  assert (Hhi : (Qfloor (inject_Z z + (1 # 2)) < z + 1)%Z).
  { rewrite Zlt_Qlt, inject_Z_plus. change (inject_Z 1) with 1%Q.
    pose proof (Qfloor_le (inject_Z z + (1 # 2))). lra. }
  lia.
Qed.

(** [round2] and [round4] in exact arithmetic: within half a unit of the
    last place, monotone, and the identity on the values they produce. *)
Lemma round2_exact (x : Q) : round2 x = (Q_round (x * 100) / 100)%Q.
Proof. reflexivity. Qed.

Lemma round4_exact (x : Q) : round4 x = (Q_round (x * 10000) / 10000)%Q.
Proof. reflexivity. Qed.

Lemma round2_near (x : Q) : (Qabs (round2 x - x) <= 1 # 200)%Q.
Proof.
  rewrite round2_exact. destruct (Q_round_spec (x * 100)) as [Hle Hlt].
  apply Qabs_case; intros _; unfold Qdiv; change (/ 100)%Q with (1 # 100)%Q; lra.
Qed.

Lemma round4_near (x : Q) : (Qabs (round4 x - x) <= 1 # 20000)%Q.
Proof.
  rewrite round4_exact. destruct (Q_round_spec (x * 10000)) as [Hle Hlt].
  apply Qabs_case; intros _; unfold Qdiv; change (/ 10000)%Q with (1 # 10000)%Q; lra.
Qed.

Lemma round4_mono (x y : Q) : (x <= y)%Q -> (round4 x <= round4 y)%Q.
Proof.
  intros Hxy. rewrite !round4_exact.
  assert (Hr : (Q_round (x * 10000) <= Q_round (y * 10000))%Q)
    by (apply Q_round_mono; lra).
  unfold Qdiv. change (/ 10000)%Q with (1 # 10000)%Q. lra.
Qed.

Lemma round4_idem (x : Q) : (round4 (round4 x) == round4 x)%Q.
Proof.
  rewrite (round4_exact (round4 x)).
  assert (Hgrid : (round4 x * 10000 == Q_round (x * 10000))%Q)
    by (rewrite round4_exact; field).
  rewrite (Q_round_eq _ _ Hgrid).
  unfold Q_round at 2. rewrite Q_round_inject, round4_exact. reflexivity.
Qed.

Lemma round2_zero (x : Q) : (x == 0)%Q -> (round2 x == 0)%Q.
Proof.
  intros Hx. rewrite round2_exact.
  assert (E : (x * 100 == inject_Z 0)%Q) by (rewrite Hx; reflexivity).
  rewrite (Q_round_eq _ _ E), Q_round_inject. reflexivity.
Qed.

(** ** Equity per symbol (claim C10) *)

Lemma Qmult_zero_l (x y : Q) : (x == 0)%Q -> (x * y == 0)%Q.
Proof. intros ->. ring. Qed.

Section EquityBySymbol.
Context `{Host}.

(** From a balance of zero every step of the curve stays at zero: a step
    multiplies the running balance and rounds. *)
Lemma generateEquityCurve_loop_zero days dailyReturn volatility (bal : Q) d n p :
  (bal == 0)%Q ->
  flat_curve n (fst (generateEquityCurve_loop days dailyReturn volatility bal d n p)).
Proof.
  revert bal d p. induction n as [|n IH]; intros bal d p Hbal; simpl.
  - split; [reflexivity | constructor].
  - apply bind_result. intros w q. rewrite bind_run. simpl.
    assert (Hstep : (round2 (bal * (lit 1 + dailyReturn + w))%js == 0)%Q)
      by (apply round2_zero, Qmult_zero_l, Hbal).
    destruct (IH _ (S d) q Hstep) as [Hlen Hzero].
    split; [simpl; f_equal; exact Hlen|].
    constructor; [exact Hstep | exact Hzero].
Qed.

Lemma generateEquitySymbols_loop_flat symbols
    (result : gmap string (list (EquityPoint.t Q))) p :
  (forall sym curve, result !! sym = Some curve -> flat_curve 45 curve) ->
  forall sym curve,
    fst (generateEquitySymbols_loop symbols result p) !! sym = Some curve ->
    flat_curve 45 curve.
Proof.
  revert result p. induction symbols as [|s symbols IH]; intros result p Hres; simpl.
  - exact Hres.
  - rewrite !bind_run. apply IH. intros sym curve.
    destruct (decide (s = sym)) as [->|Hne].
    + rewrite lookup_insert_eq.
      match goal with
      | |- Some ?c = _ -> _ =>
          assert (Hflat : flat_curve 45 c)
            by (apply generateEquityCurve_loop_zero; reflexivity);
          generalize dependent c
      end.
      intros c Hflat [= <-]. exact Hflat.
    + rewrite lookup_insert_ne by exact Hne. apply Hres.
Qed.

Lemma generateEquitySymbols_flat (symbols : list string) (p : nat)
    (sym : string) (curve : list (EquityPoint.t Q)) :
  fst (generateEquitySymbols symbols p) !! sym = Some curve -> flat_curve 45 curve.
Proof.
  intros Hsym.
  apply (generateEquitySymbols_loop_flat symbols ∅ p) with (sym := sym).
  - intros s c. rewrite lookup_empty. discriminate.
  - exact Hsym.
Qed.

(** C10: every curve of the equity-by-symbol response has 45 points and
    every point has equity 0, whatever is drawn: the curve generator is
    called with a starting balance of 0. *)
Theorem equity_by_symbol_is_zero (symbols : list string) (p : nat)
    (sym : string) (curve : list (EquityPoint.t Q)) :
  fst (generateEquitySymbols symbols p) !! sym = Some curve ->
  List.length curve = 45%nat /\
  List.Forall (fun pt => (EquityPoint.equity pt == 0)%Q) curve.
Proof.
  intros Hsym. destruct (generateEquitySymbols_flat symbols p sym curve Hsym)
    as [Hlen Hzero].
  split; [exact Hlen | exact Hzero].
Qed.

(** Every symbol asked for has its curve in the response. *)
Lemma generateEquitySymbols_loop_dom {num : Type} `{Number num} symbols
    (result : gmap string (list (EquityPoint.t num))) p sym :
  In sym symbols \/ is_Some (result !! sym) ->
  is_Some (fst (generateEquitySymbols_loop symbols result p) !! sym).
Proof.
  revert result p. induction symbols as [|s symbols IH]; intros result p Hin; simpl.
  - destruct Hin as [[]|Hin]. exact Hin.
  - rewrite !bind_run. apply IH.
    destruct (decide (s = sym)) as [->|Hne].
    + right. rewrite lookup_insert_eq. eexists. reflexivity.
    + destruct Hin as [[Heq|Hin]|Hin]; [contradiction | left; exact Hin |].
      right. rewrite lookup_insert_ne by exact Hne. exact Hin.
Qed.

(** The handler of the route answers with these curves: for the stock
    symbols on a HIP-3 address, for the crypto symbols otherwise. *)
Lemma equity_symbols_handler_zero (url : string) (opts : option string)
    (cache : Cache Q) (p : nat) :
  exists curves,
    fst (fst (equity_symbols_handler url opts cache p)) = BEquitySymbols curves /\
    (forall sym, In sym (if isHip3 url then STOCK_SYMBOLS else CRYPTO_SYMBOLS) ->
                 is_Some (curves !! sym)) /\
    (forall sym curve, curves !! sym = Some curve ->
                       List.length curve = 45%nat /\
                       List.Forall (fun pt => (EquityPoint.equity pt == 0)%Q) curve).
Proof.
  unfold equity_symbols_handler, drawing_handler. rewrite !bind_run. simpl.
  eexists. split; [reflexivity|]. split.
  - intros sym Hin. apply generateEquitySymbols_loop_dom. left. exact Hin.
  - intros sym curve. apply generateEquitySymbols_flat.
Qed.

End EquityBySymbol.

Lemma equity_by_symbol_is_zero_witness :
  let host := host_of mixed_bits in
  let curve := default [] (fst (generateEquitySymbols (num:=Q) CRYPTO_SYMBOLS 0%nat) !! "BTC") in
  List.length curve = 45%nat /\
  List.Forall (fun pt => (EquityPoint.equity pt == 0)%Q) curve.
Proof.
  intros host curve.
  apply (equity_by_symbol_is_zero CRYPTO_SYMBOLS 0%nat "BTC" curve).
  vm_compute. reflexivity.
Defined.

(** The same response in binary64: seven curves of 45 points, each point
    [=== 0]. *)
Lemma equity_by_symbol_is_zero_binary64 :
  let host := host_of mixed_bits in
  List.map
    (fun sym =>
       match fst (generateEquitySymbols (num:=float) CRYPTO_SYMBOLS 0%nat) !! sym with
       | Some curve =>
           (List.length curve,
            forallb (fun pt => (EquityPoint.equity pt =? lit 0)%js) curve)
       | None => (0%nat, false)
       end)
    CRYPTO_SYMBOLS
  = List.repeat (45%nat, true) 7.
Proof. vm_compute. reflexivity. Qed.

(** ** Position views (claim C3) *)

Lemma tradesAsPositions_In {num : Type} `{Number num}
    (trades : list (Trade.t num)) (pos : Position.t num) :
  In pos (tradesAsPositions trades) <->
  exists t, In t trades /\ Trade.status t = open /\ pos = position_of t.
Proof.
  unfold tradesAsPositions. rewrite in_map_iff. split.
  - intros (t & <- & Hin). apply List.filter_In in Hin as [Hin Hopen].
    exists t. split; [exact Hin|]. split; [|reflexivity].
    destruct (Trade.status t); [reflexivity | discriminate].
  - intros (t & Hin & Hopen & ->). exists t. split; [reflexivity|].
    apply List.filter_In. split; [exact Hin|]. rewrite Hopen. reflexivity.
Qed.

(** The distance of the liquidation price from the entry price, before
    rounding, is more than half a unit of the fourth decimal once the
    leverage is below 18000 times the entry price. *)
Lemma liquidation_gap (e L : Q) :
  (1 <= L)%Q -> (L < 18000 * e)%Q -> ((1 # 20000) < e * ((9 # 10) / L))%Q.
Proof.
  intros H1 H2.
  assert (HL : (0 < L)%Q) by lra.
  assert (Hinv : (0 < / L)%Q) by (apply Qinv_lt_0_compat, HL).
  assert (Hone : (L * / L == 1)%Q) by (apply Qmult_inv_r; lra).
  assert (Hprod : (L * / L < 18000 * e * / L)%Q)
    by (apply Qmult_lt_compat_r; assumption).
  unfold Qdiv. lra.
Qed.

(** The liquidation price of the view of a trade, against its entry
    price, in exact arithmetic. *)
Lemma position_of_liquidation (t : Trade.t Q) :
  (1 <= Trade.leverage t)%Q ->
  (Trade.leverage t < 18000 * Trade.entry_price t)%Q ->
  if is_long (Trade.side t)
  then (Position.liquidation_price (position_of t) < Trade.entry_price t)%Q
  else (Trade.entry_price t < Position.liquidation_price (position_of t))%Q.
Proof.
  intros H1 H2. pose proof (liquidation_gap _ _ H1 H2) as Hgap.
  unfold position_of. cbn [Position.liquidation_price].
  destruct (is_long (Trade.side t)).
  - pose proof (round4_near
                  (Trade.entry_price t * (1 - (9 # 10) / Trade.leverage t))%Q) as Hn.
    change (round4 (Trade.entry_price t * (lit 1 - dec 9 1 / Trade.leverage t))%js)
      with (round4 (Trade.entry_price t * (1 - (9 # 10) / Trade.leverage t))%Q).
    revert Hn. unfold Qdiv in *. apply Qabs_case; intros Hsign Hn; lra.
  - pose proof (round4_near
                  (Trade.entry_price t * (1 + (9 # 10) / Trade.leverage t))%Q) as Hn.
    change (round4 (Trade.entry_price t * (lit 1 + dec 9 1 / Trade.leverage t))%js)
      with (round4 (Trade.entry_price t * (1 + (9 # 10) / Trade.leverage t))%Q).
    revert Hn. unfold Qdiv in *. apply Qabs_case; intros Hsign Hn; lra.
Qed.

(** The view of one record. *)
Lemma position_of_rounded (t : Trade.t Q) : rounded_view t (position_of t).
Proof.
  unfold rounded_view, position_of.
  cbn [Position.symbol Position.side Position.size Position.entry_price
       Position.leverage Position.notional Position.margin_used
       Position.liquidation_price].
  do 5 (split; [reflexivity|]).
  split; [reflexivity|]. split; [apply round2_near|].
  split; [reflexivity|]. split; [apply round2_near|].
  split.
  - cbn zeta. destruct (is_long (Trade.side t));
      (split; [reflexivity | apply round4_near]).
  - intros H1 H2 H3.
    apply (position_of_liquidation t H1).
    assert (He : (0 < Trade.entry_price t)%Q) by lra. lra.
Qed.

(** C3, as the code has it: [tradesAsPositions] returns one view for each
    open record of the ledger, in the order of the ledger, and none for a
    closed one.  The view of a record has the notional
    [quantity * entry price] rounded to two decimals and the margin
    [quantity * entry price / leverage] rounded to two decimals, each
    within half a cent of the exact value, and the liquidation price
    [entry * (1 -/+ 0.9 / leverage)] rounded to four decimals, which is
    strictly below the entry price of a long and strictly above that of a
    short for any leverage from 1 to 9000 times the entry price, the entry
    price being at most a million. *)
Theorem position_view_rounded (trades : list (Trade.t Q)) :
  List.Forall2 rounded_view
    (List.filter (fun t => is_open (Trade.status t)) trades)
    (tradesAsPositions trades) /\
  (forall t, In t trades -> Trade.status t = open ->
     exists pos, In pos (tradesAsPositions trades) /\ rounded_view t pos) /\
  (forall pos, In pos (tradesAsPositions trades) ->
     exists t, In t trades /\ Trade.status t = open /\ rounded_view t pos).
Proof.
  split; [|split].
  - unfold tradesAsPositions.
    induction (List.filter (fun t => is_open (Trade.status t)) trades)
      as [|t open_trades IH]; cbn [List.map]; constructor;
      [apply position_of_rounded | exact IH].
  - intros t Hin Hopen. exists (position_of t). split.
    + apply tradesAsPositions_In. exists t. repeat split; assumption.
    + apply position_of_rounded.
  - intros pos Hin. apply tradesAsPositions_In in Hin as (t & Hin & Hopen & ->).
    exists t. split; [exact Hin|]. split; [exact Hopen|].
    apply position_of_rounded.
Qed.

Lemma position_view_rounded_witness :
  let t := open_trade LONG (274 # 10000) (999689194 # 10000) (15 # 1) in
  exists pos,
    tradesAsPositions [t] = [pos] /\
    Position.notional pos = round2 (Trade.quantity t * Trade.entry_price t)%Q /\
    (Qabs (Position.notional pos - Trade.quantity t * Trade.entry_price t)
     <= 1 # 200)%Q /\
    (Position.liquidation_price pos < Trade.entry_price t)%Q.
Proof.
  intros t.
  destruct (proj1 (proj2 (position_view_rounded [t])) t (or_introl eq_refl) eq_refl)
    as (pos & [<-|[]] & Hview).
  exists (position_of t). split; [reflexivity|].
  destruct Hview as (_ & _ & _ & _ & _ & Hnotional & Hnear & _ & _ & _ & Hliq).
  split; [exact Hnotional|]. split; [exact Hnear|].
  apply Hliq; intro E; discriminate E.
Defined.

(** C3, as stated, fails.  In the positions of the script's own crypto
    ledger on the stream [mixed_bits] no notional is the size times the
    entry price (2739.15 against 2739.14839156 for the first) and two of
    the three margins are not the notional over the leverage; and at a
    leverage of 20000 the liquidation price of an entry at 1 is 1, for a
    long and for a short. *)
Lemma position_view_not_exact :
  let host := host_of mixed_bits in
  let positions := tradesAsPositions (fst (CRYPTO_TRADES (num:=Q) 0%nat)) in
  List.map (fun pos => (notional_exact pos, margin_exact pos)) positions
  = [(false, true); (false, false); (false, false)] /\
  List.map (fun pos => (Position.liquidation_price pos =? Position.entry_price pos)%js)
    (tradesAsPositions [open_trade LONG 1%Q 1%Q (20000 # 1);
                        open_trade SHORT 1%Q 1%Q (20000 # 1)])
  = [true; true].
Proof. vm_compute. split; reflexivity. Qed.

(** The same in binary64. *)
Lemma position_view_not_exact_binary64 :
  let host := host_of mixed_bits in
  let positions := tradesAsPositions (fst (CRYPTO_TRADES (num:=float) 0%nat)) in
  List.map (fun pos => (notional_exact pos, margin_exact pos)) positions
  = [(false, true); (false, false); (false, false)] /\
  List.map (fun pos => (Position.liquidation_price pos =? Position.entry_price pos)%js)
    (tradesAsPositions [open_trade LONG 1%float 1%float 20000%float;
                        open_trade SHORT 1%float 1%float 20000%float])
  = [true; true].
Proof. vm_compute. split; reflexivity. Qed.

(** Why the bound on the leverage leaves a margin.  At a leverage of
    [18000 - 2^-38], the binary64 number before 18000, the liquidation
    price of a long entered at 1 is below 1 in exact arithmetic and is 1 in
    binary64; at a leverage of 9000 it is 0.9999 in both. *)
Lemma liquidation_edge_binary64 :
  let position (num : Type) `{Number num} (leverage : num) : Position.t num :=
    position_of (open_trade LONG (lit 1) (lit 1) leverage) in
  let before_18000 (num : Type) `{Number num} : num :=
    (of_Z (18000 * 2 ^ 38 - 1) / of_Z (2 ^ 38))%js in
  let below_entry (num : Type) `{Number num} (pos : Position.t num) : bool :=
    (Position.liquidation_price pos <? Position.entry_price pos)%js in
  below_entry Q (position Q (before_18000 Q)) = true /\
  below_entry float (position float (before_18000 float)) = false /\
  below_entry Q (position Q (lit 9000)) = true /\
  below_entry float (position float (lit 9000)) = true.
Proof. vm_compute. repeat split. Qed.

(** ** Candles (claim C4) *)

(** What holds of the result of a draw and makes the rest hold, holds of
    the whole. *)
Lemma bind_result_of {A B : Type} (I : A -> Prop) (P : B -> Prop)
    (m : Rand A) (k : A -> Rand B) (p : nat) :
  (forall q, I (fst (m q))) ->
  (forall a q, I a -> P (fst (k a q))) ->
  P (fst (bind m k p)).
Proof. intros Hm Hk. rewrite bind_run. apply Hk, Hm. Qed.

Section ExactDraws.
Context `{Host}.

(** A draw is in [0, 1). *)
Lemma Math_random_unit (p : nat) :
  (0 <= fst (Math_random (num:=Q) p) /\ fst (Math_random (num:=Q) p) < 1)%Q.
Proof.
  unfold Math_random. cbn [fst of_Z div Exact].
  pose proof (Z.mod_pos_bound (random_bits p) (2 ^ 53) ltac:(lia)) as [Hlo Hhi].
  set (k := random_bits p mod 2 ^ 53) in *.
  assert (Hk0 : (0 <= inject_Z k)%Q)
    by (change 0%Q with (inject_Z 0); rewrite <- Zle_Qle; exact Hlo).
  assert (Hk1 : (inject_Z k < inject_Z (2 ^ 53))%Q)
    by (rewrite <- Zlt_Qlt; exact Hhi).
  assert (Hpos : (0 < inject_Z (2 ^ 53))%Q) by reflexivity.
  split.
  - apply Qle_shift_div_l; [exact Hpos | lra].
  - apply Qlt_shift_div_r; [exact Hpos | lra].
Qed.

(** [rand(min, max)] is in [min, max) when [min < max]. *)
Lemma rand_range (min max : Q) (p : nat) :
  (min < max)%Q ->
  (min <= fst (rand min max p) /\ fst (rand min max p) < max)%Q.
Proof.
  intros Hlt. unfold rand. rewrite bind_run. cbn [fst ret].
  destruct (Math_random_unit p) as [H0 H1].
  set (r := fst (Math_random p)) in *.
  change (min <= r * (max - min) + min /\ r * (max - min) + min < max)%Q.
  split; nra.
Qed.

Lemma Q_to_int_inject (z : Z) : Q_to_int (inject_Z z) = Some z.
Proof.
  unfold Q_to_int. rewrite Qfloor_Z.
  rewrite (proj2 (Qeq_bool_iff _ _) (Qeq_refl _)). reflexivity.
Qed.

(** [randInt(min, max)] is an integer from [min] to [max]. *)
Lemma randInt_range (min max : Z) (p : nat) :
  (min <= max)%Z ->
  exists z, fst (randInt (lit min) (lit max) p) = inject_Z z /\ (min <= z <= max)%Z.
Proof.
  intros Hle. unfold randInt. rewrite bind_run. cbn [fst ret].
  destruct (rand_range (lit min) (lit max + lit 1)%js p) as [Hlo Hhi].
  { unfold lit. cbn [of_Z add Exact]. rewrite Zle_Qle in Hle.
    change (inject_Z 1) with 1%Q. lra. }
  set (x := fst (rand (lit min) (lit max + lit 1)%js p)) in *.
  exists (Qfloor x). split; [reflexivity|].
  unfold lit in Hlo, Hhi. cbn [of_Z add Exact] in Hlo, Hhi.
  change (inject_Z 1) with 1%Q in Hhi. split.
  - rewrite <- (Qfloor_Z min). apply Qfloor_resp_le, Hlo.
  - assert (Hlt : (Qfloor x < max + 1)%Z).
    { rewrite Zlt_Qlt, inject_Z_plus. change (inject_Z 1) with 1%Q.
      pose proof (Qfloor_le x). lra. }
    lia.
Qed.

(** [pick(arr)] is an element of a non-empty [arr]: the stand-in for
    [undefined] is never returned. *)
Lemma pick_in {A : Type} (arr : list A) (undefined : A) (p : nat) :
  arr <> [] -> In (fst (pick (num:=Q) arr undefined p)) arr.
Proof.
  intros Hne. unfold pick. rewrite bind_run. cbn [fst ret].
  assert (Hlen : (0 < Z.of_nat (List.length arr))%Z)
    by (destruct arr; [contradiction | simpl; lia]).
  match goal with
  | |- In (index arr ?i _) arr =>
      assert (Hidx : exists z, i = inject_Z z /\ (0 <= z < Z.of_nat (List.length arr))%Z)
  end.
  { destruct (randInt_range 0 (Z.of_nat (List.length arr) - 1) p ltac:(lia))
      as (z & Hz & Hrange).
    exists z. split; [|lia]. rewrite <- Hz. unfold randInt, rand.
    rewrite !bind_run. cbn [fst ret]. unfold lit. cbn [of_Z add sub mul Math_floor Exact].
    f_equal. apply Qfloor_comp.
    assert (E : (inject_Z (Z.of_nat (List.length arr) - 1)
                 == inject_Z (Z.of_nat (List.length arr)) - inject_Z 1)%Q)
      by (unfold Z.sub; rewrite inject_Z_plus, inject_Z_opp; reflexivity).
    rewrite E. reflexivity. }
  destruct Hidx as (z & -> & Hz0 & Hz1).
  unfold index. cbn [to_int Exact]. rewrite Q_to_int_inject.
  destruct (Z.ltb_spec z 0); [lia|]. apply nth_In. lia.
Qed.

End ExactDraws.

Section CandleInvariant.
Context `{Host}.

Lemma round4_on_grid (x : Q) : on_grid (round4 x).
Proof. unfold on_grid. exact (round4_idem x). Qed.

(** One bar of the loop: with both ends on the grid and paddings that are
    not negative, the rounded high and low keep the ends between them. *)
Lemma candle_ok_on_grid (time open close pad_up pad_down volume : Q) :
  on_grid open -> on_grid close -> (0 <= pad_up)%Q -> (0 <= pad_down)%Q ->
  candle_ok {| Candle.time := time; Candle.open := open;
               Candle.high := round4 (Math_max open close + pad_up)%js;
               Candle.low := round4 (Math_min open close - pad_down)%js;
               Candle.close := close; Candle.volume := volume |} = true.
Proof.
  unfold on_grid. intros Ho Hc Hup Hdown.
  unfold candle_ok. cbn [Candle.open Candle.close Candle.high Candle.low].
  cbn [Math_max Math_min leb add sub Exact].
  apply andb_true_intro. split; apply Qle_bool_iff.
  - unfold Q_ltb. destruct (Qlt_le_dec open close).
    + rewrite <- Hc at 1. apply round4_mono. lra.
    + rewrite <- Ho at 1. apply round4_mono. lra.
  - unfold Q_ltb. destruct (Qlt_le_dec close open).
    + rewrite <- Hc at 2. apply round4_mono. lra.
    + rewrite <- Ho at 2. apply round4_mono. lra.
Qed.

(** From a running price on the grid, every bar of the loop satisfies the
    invariant. *)
Lemma generateCandles_loop_ok basePrice count intervalMs vol (price : Q) i n p :
  on_grid price ->
  List.Forall (fun c => candle_ok c = true)
    (fst (generateCandles_loop basePrice count intervalMs vol price i n p)).
Proof.
  revert price i p. induction n as [|n IH]; intros price i p Hgrid;
    cbn [generateCandles_loop].
  - constructor.
  - apply bind_result. intros r q0.
    apply (bind_result_of (fun up => 0 <= up)%Q).
    { intros q. apply Qle_trans with (1 # 10)%Q; [discriminate|].
      exact (proj1 (rand_range (1 # 10) (15 # 10) q eq_refl)). }
    intros up q1 Hup.
    apply (bind_result_of (fun down => 0 <= down)%Q).
    { intros q. apply Qle_trans with (1 # 10)%Q; [discriminate|].
      exact (proj1 (rand_range (1 # 10) (15 # 10) q eq_refl)). }
    intros down q2 Hdown.
    apply bind_result. intros v q3.
    rewrite bind_run. cbn [fst ret]. constructor.
    + apply candle_ok_on_grid.
      * exact Hgrid.
      * apply round4_on_grid.
      * apply Qmult_le_0_compat; [apply Qabs_nonneg | exact Hup].
      * apply Qmult_le_0_compat; [apply Qabs_nonneg | exact Hdown].
    + apply IH, round4_on_grid.
Qed.

(** The invariant holds of every bar but the first: from the second bar
    on, a bar opens at the rounded close of the bar before it. *)
Lemma generateCandles_tail_ok (basePrice : Q) (count : Z) (intervalMs : Q) (p : nat) :
  List.Forall (fun c => candle_ok c = true)
    (List.tl (fst (generateCandles basePrice count intervalMs p))).
Proof.
  unfold generateCandles. apply bind_result. intros start q.
  destruct (Z.to_nat count) as [|n]; cbn [generateCandles_loop]; [constructor|].
  do 4 (apply bind_result; intros ? ?).
  rewrite bind_run. cbn [fst ret List.tl].
  apply generateCandles_loop_ok, round4_on_grid.
Qed.

End CandleInvariant.

(** C4 fails on the code: the first bar of a series opens at the start
    price, which is not rounded, while its high and low are.  On the draws
    0.3 (start factor), 0.48 (change) and 0.5 (paddings), the first bar of
    DOGE opens at 0.28556 and closes at 0.2856, and its low is 0.2856,
    above the open: [low <= min(open, close)] does not hold.  The second
    bar satisfies the invariant.  In exact arithmetic and in binary64. *)
Theorem first_bar_breaks_candle_invariant :
  let host := host_of (stream_of doge_draws) in
  let exact := fst (fst (getCandlesForSymbol (num:=Q) "DOGE" ∅ 0%nat)) in
  let binary64 := fst (fst (getCandlesForSymbol (num:=float) "DOGE" ∅ 0%nat)) in
  List.map candle_ok (firstn 2 exact) = [false; true] /\
  List.map (fun c => (Candle.low c <=? Math_min (Candle.open c) (Candle.close c))%js)
    (firstn 1 exact) = [false] /\
  List.map (fun c => (Qred (Candle.open c), Qred (Candle.low c), Qred (Candle.close c)))
    (firstn 1 exact)
  = [((51441916383676753121 # 180143985094819840000)%Q, (357 # 1250)%Q, (357 # 1250)%Q)] /\
  List.map candle_ok (firstn 2 binary64) = [false; true] /\
  List.map (fun c => (Candle.low c <=? Math_min (Candle.open c) (Candle.close c))%js)
    (firstn 1 binary64) = [false].
Proof.
  vm_compute. repeat split.
Qed.

(** ** The WebSocket shim (claim C9) *)

Lemma silent_app {num : Type} (events : list (WsEvent num)) (e : WsEvent num) :
  silent_after_close (events ++ [e])
  = silent_after_close events && (negb (is_message e) || no_close events).
Proof.
  induction events as [|e0 events IH]; simpl.
  - destruct (is_message e), (is_close e); reflexivity.
  - rewrite IH, forallb_app. simpl. unfold no_close.
    destruct (is_close e0), (is_message e), (silent_after_close events),
      (forallb (fun e' => negb (is_message e')) events),
      (forallb (fun e => negb (is_close e)) events); reflexivity.
Qed.

Lemma no_close_silent {num : Type} (events : list (WsEvent num)) :
  no_close events = true -> silent_after_close events = true.
Proof.
  induction events as [|e events IH]; simpl; [reflexivity|].
  intros Hno. apply andb_prop in Hno as [He Hno].
  destruct (is_close e); [discriminate|]. simpl. apply IH, Hno.
Qed.

Lemma no_close_app {num : Type} (events : list (WsEvent num)) (e : WsEvent num) :
  no_close (events ++ [e]) = no_close events && negb (is_close e).
Proof. unfold no_close. rewrite forallb_app. simpl. rewrite andb_true_r. reflexivity. Qed.

Section Socket.
Context {num : Type} `{Number num} `{Host}.
Variable G : Globals.t num.
Variable client : WsEvent num -> bool.

Import MockWebSocket.

(** [close()] settles a settled socket: the close event it delivers
    follows no message of a later date. *)
Lemma close_settled code reason (ws : MockWebSocket.t num) :
  settled ws ->
  settled (close code reason ws) /\ readyState (close code reason ws) = 3.
Proof.
  intros [Htimer Hstate]. unfold settled, close, deliver.
  cbn [open_timer readyState delivered]. split; [|reflexivity].
  split; [exact Htimer|]. right. split; [reflexivity|].
  rewrite silent_app. cbn [is_message negb orb]. rewrite andb_true_r.
  destruct Hstate as [[_ Hno]|[_ Hsilent]];
    [apply no_close_silent, Hno | exact Hsilent].
Qed.

(** An open or message event reaching the client of an open socket leaves
    it settled, whether the client closes or not. *)
Lemma dispatch_settled (e : WsEvent num) (ws : MockWebSocket.t num) :
  is_close e = false ->
  open_timer ws = false -> readyState ws = 1 -> no_close (delivered ws) = true ->
  settled (dispatch client e ws).
Proof.
  intros He Htimer Hready Hno. unfold dispatch.
  assert (Hdelivered : settled (deliver e ws)).
  { unfold settled, deliver. cbn [open_timer readyState delivered].
    split; [exact Htimer|]. left. split; [exact Hready|].
    rewrite no_close_app, Hno, He. reflexivity. }
  destruct (client e); [apply close_settled, Hdelivered | exact Hdelivered].
Qed.

Lemma _sendMock_settled (data : WsMessage num) (ws : MockWebSocket.t num) :
  settled ws -> settled (_sendMock client data ws).
Proof.
  intros Hs. unfold _sendMock.
  destruct (Z.eqb_spec (readyState ws) 1) as [Hready|Hready]; cbn [negb];
    [|exact Hs].
  destruct Hs as [Htimer [[_ Hno]|[H3 _]]]; [|congruence].
  apply dispatch_settled; [reflexivity | assumption..].
Qed.

Lemma _startPeriodicMessages_settled (ws : MockWebSocket.t num) p :
  settled ws -> settled (fst (_startPeriodicMessages ws p)).
Proof.
  intros Hs. unfold _startPeriodicMessages. rewrite bind_run. exact Hs.
Qed.

Lemma on_interval_settled clock (ws : MockWebSocket.t num) p :
  settled ws -> settled (fst (on_interval G client clock ws p)).
Proof.
  intros Hs. unfold on_interval.
  destruct (negb (readyState ws =? 1)); [exact Hs|].
  match goal with
  | |- context [_sendMock client ?d ?w] =>
      assert (Hlog : settled (_sendMock client d w))
        by (apply _sendMock_settled; exact Hs);
      generalize dependent (_sendMock client d w)
  end.
  intros ws2 Hws2.
  apply bind_result. intros r1 q1.
  apply (bind_result_of settled).
  - intros q. destruct (ltb r1 (dec 125 3)); [|exact Hws2].
    do 3 (apply bind_result; intros ? ?). apply _sendMock_settled, Hws2.
  - intros ws3 q3 Hws3. apply bind_result. intros r2 q4.
    destruct (ltb r2 (dec 83 3)); [|exact Hws3].
    do 2 (apply bind_result; intros ? ?). apply _sendMock_settled, Hws3.
Qed.

Lemma run_task_settled (t : Task num) (ws : MockWebSocket.t num) p :
  settled ws -> settled (fst (run_task G client t ws p)).
Proof.
  intros Hs. destruct t as [clock|clock|code reason|data]; cbn [run_task].
  - destruct Hs as [Htimer Hstate]. rewrite Htimer. split; assumption.
  - destruct (interval_timer ws); [apply on_interval_settled, Hs | exact Hs].
  - apply close_settled, Hs.
  - exact Hs.
Qed.

Lemma run_tasks_settled (ts : list (Task num)) (ws : MockWebSocket.t num) p :
  settled ws -> settled (fst (run_tasks G client ts ws p)).
Proof.
  revert ws p. induction ts as [|t ts IH]; intros ws p Hs; cbn [run_tasks].
  - exact Hs.
  - rewrite bind_run. apply IH, run_task_settled, Hs.
Qed.

Lemma settled_silent (ws : MockWebSocket.t num) :
  settled ws -> silent_after_close (delivered ws) = true.
Proof.
  intros [_ [[_ Hno]|[_ Hsilent]]]; [apply no_close_silent, Hno | exact Hsilent].
Qed.

(** Once the open timer of a new socket has fired, the guard on
    [readyState] and the cancelled timer do what C9 says: whatever the
    event loop runs next, and whenever the client closes, the dispatch of
    no message event begins after that of a close event.  (A message whose
    [onmessage] handler closes the socket is still handed to the listeners
    of messages, which are served after the close event: the statement is
    about events, recorded once each, not about their several
    recipients.) *)
Lemma opened_socket_silent_after_close url clock (ts : list (Task num)) p :
  silent_after_close
    (delivered (fst (run_tasks G client (OpenTimer clock :: ts)
                       (new_MockWebSocket url) p))) = true.
Proof.
  apply settled_silent. cbn [run_tasks]. rewrite bind_run.
  apply run_tasks_settled. cbn [run_task new_MockWebSocket open_timer].
  unfold on_open_timer. apply _startPeriodicMessages_settled, _sendMock_settled.
  apply dispatch_settled; reflexivity.
Qed.

(** A close of an opened socket cancels the interval timer. *)
Lemma close_cancels_interval code reason (ws : MockWebSocket.t num) :
  _interval ws <> None -> interval_timer (close code reason ws) = None.
Proof.
  intros Hhandle. unfold close, deliver. cbn [interval_timer].
  destruct (_interval ws); [reflexivity | contradiction].
Qed.

End Socket.

(** C9 fails on the code: [close()] called before the open timer of the
    constructor has fired (within 300 ms of the construction) does not
    cancel that timer, and the timer's callback sets [readyState] back to
    OPEN.  Whatever the numbers, the host and the address: after
    [close()], the open event and the first log message are delivered, the
    socket is open and its interval timer runs. *)
Theorem close_before_open_is_undone {num : Type} `{Number num} `{Host}
    (G : Globals.t num) (url : string) (clock : num) (p : nat) :
  let ws :=
    fst (run_tasks G (fun _ => false) [CallClose None None; OpenTimer clock]
           (new_MockWebSocket url) p) in
  MockWebSocket.delivered ws
  = [EvClose 1000 "Demo closed"; EvOpen;
     EvMessage (LOG clock "INFO" "WebSocket connected — live feed active")] /\
  MockWebSocket.readyState ws = 1 /\
  MockWebSocket.interval_timer ws <> None /\
  silent_after_close (MockWebSocket.delivered ws) = false.
Proof.
  intros ws. unfold ws. cbn [run_tasks]. rewrite !bind_run.
  cbn [run_task ret fst snd close deliver new_MockWebSocket
       MockWebSocket.open_timer MockWebSocket._interval].
  unfold on_open_timer, _startPeriodicMessages. rewrite bind_run.
  cbn. repeat split. discriminate.
Qed.

(** A run of it: closed at once, the socket opens 300 ms later and its
    interval timer delivers a log message at each tick.  In exact
    arithmetic and in binary64. *)
Lemma messages_after_early_close :
  let host := host_of mixed_bits in
  let tasks (num : Type) `{Number num} : list (Task num) :=
    [CallClose None None; OpenTimer (lit NOW + lit 300)%js;
     IntervalTimer (lit NOW + lit 7300)%js; IntervalTimer (lit NOW + lit 14300)%js] in
  let run (num : Type) `{Number num} :=
    MockWebSocket.delivered
      (fst (run_tasks (blank_globals num) (fun _ => false) (tasks num)
              (new_MockWebSocket "ws://localhost:9100/ws") 0%nat)) in
  List.map is_message (run Q) = [false; false; true; true; true] /\
  List.map is_close (run Q) = [true; false; false; false; false] /\
  List.map is_message (run float) = [false; false; true; true; true] /\
  silent_after_close (run Q) = false /\
  silent_after_close (run float) = false.
Proof. vm_compute. repeat split. Qed.

(** ** The feeds through the interceptor *)

Lemma startsWith_append (pre s : string) :
  startsWith pre s = true -> exists rest, s = pre ++ rest.
Proof.
  revert s. induction pre as [|a pre IH]; intros s Hs.
  - exists s. reflexivity.
  - destruct s as [|b s]; [discriminate|]. simpl in Hs.
    apply andb_prop in Hs as [Hab Hrest].
    apply Ascii.eqb_eq in Hab as ->.
    destruct (IH s Hrest) as [rest ->]. exists rest. reflexivity.
Qed.

Section FeedsThroughFetch.
Context {num : Type} `{Number num} `{Host}.

(** A request that is not a POST, PUT or DELETE, not on the pass-through
    list, and whose path starts with [/api/monitor/alerts], is answered by
    the alerts handler: no earlier route matches such a path. *)
Lemma fetch_monitor_alerts (G : Globals.t num) (url : string)
    (options : option string) (cache : Cache num) (p : nat) :
  is_public_api url = false ->
  is_asset_host url = false ->
  is_mutating (method_of options) = false ->
  startsWith "/api/monitor/alerts" (pathname_of url) = true ->
  Fetched.outcome (fst (fst (fetch G url options cache p)))
  = answered demo_headers
      (BAlerts (fst (generateAlerts (Math_min_int (requested_limit url "20") 20) p))).
Proof.
  intros Hapi Hasset Hmut Hpath.
  destruct (fetch_matched G (Route.mk (fun p _ => startsWith "/api/monitor/alerts" p)
                               monitor_alerts_handler)
              url options cache p Hapi Hasset Hmut) as [Hout _].
  - apply (first_match_at _ 15); [reflexivity | | exact Hpath].
    destruct (startsWith_append _ _ Hpath) as [rest ->]. reflexivity.
  - rewrite Hout. cbn [Route.handler]. rewrite monitor_alerts_body. reflexivity.
Qed.

Lemma fetch_monitor_errors (G : Globals.t num) (url : string)
    (options : option string) (cache : Cache num) (p : nat) :
  is_public_api url = false ->
  is_asset_host url = false ->
  is_mutating (method_of options) = false ->
  startsWith "/api/monitor/errors" (pathname_of url) = true ->
  Fetched.outcome (fst (fst (fetch G url options cache p)))
  = answered demo_headers
      (BErrors (fst (generateErrors (Math_min_int (requested_limit url "30") 7) p))).
Proof.
  intros Hapi Hasset Hmut Hpath.
  destruct (fetch_matched G (Route.mk (fun p _ => startsWith "/api/monitor/errors" p)
                               monitor_errors_handler)
              url options cache p Hapi Hasset Hmut) as [Hout _].
  - apply (first_match_at _ 16); [reflexivity | | exact Hpath].
    destruct (startsWith_append _ _ Hpath) as [rest ->]. reflexivity.
  - rewrite Hout. cbn [Route.handler]. rewrite monitor_errors_body. reflexivity.
Qed.

End FeedsThroughFetch.

(** ** The positions the module serves *)

Lemma for_push_Forall {A : Type} (P : A -> Prop) (body : nat -> Rand A) :
  (forall i p, P (fst (body i p))) ->
  forall n i p, List.Forall P (fst (for_push body i n p)).
Proof.
  intros Hbody. induction n as [|n IH]; intros i p; cbn [for_push].
  - constructor.
  - rewrite !bind_run. cbn [fst ret]. constructor; [apply Hbody | apply IH].
Qed.

Section ServedPositions.
Context `{Host}.

(** The entry price of a generated record is the price of its symbol moved
    by at most twelve per cent, rounded; its leverage is the one asked
    for. *)
Lemma generateTrades_body_entry (floor : Q) symbols priceMap leverage prefix
    openCount i p :
  symbols <> [] -> (0 <= floor)%Q -> priced_from floor symbols priceMap ->
  let t := fst (generateTrades_body (num:=Q) symbols priceMap leverage prefix
                  openCount i p) in
  Trade.leverage t = leverage /\
  ((88 # 100) * floor - (1 # 20000) <= Trade.entry_price t)%Q.
Proof.
  intros Hne Hfloor Hpriced t. unfold t, generateTrades_body.
  apply (bind_result_of (fun sym => In sym symbols)).
  { intros q. destruct (i <? openCount)%nat.
    - cbn [fst ret]. apply nth_In. apply Nat.mod_upper_bound.
      destruct symbols; [contradiction | discriminate].
    - apply pick_in, Hne. }
  intros sym q Hsym. apply bind_result. intros side q0.
  unfold priced_from in Hpriced. rewrite List.Forall_forall in Hpriced.
  destruct (Hpriced sym Hsym) as (price & Hprice & Hge).
  unfold price_of. rewrite Hprice.
  match goal with
  | |- context [rand ?lo ?hi] =>
      apply (bind_result_of (fun off => (- (12 # 100) <= off)%Q))
  end.
  { intros q1.
    destruct (String.eqb sym "BTC"); [|destruct (String.eqb sym "ETH");
      [|destruct (String.eqb sym "DOGE")]];
      match goal with
      | |- (_ <= fst (rand ?lo ?hi _))%Q =>
          apply Qle_trans with lo; [discriminate | apply rand_range; reflexivity]
      end. }
  intros off q1 Hoff.
  repeat (apply bind_result; intros ? ?).
  cbn [fst ret Trade.leverage Trade.entry_price]. split; [reflexivity|].
  pose proof (round4_near (price * (1 + off))%Q) as Hnear.
  change (round4 (price * (lit 1 + off))%js) with (round4 (price * (1 + off))%Q).
  revert Hnear. apply Qabs_case; intros Hsign Hnear; nra.
Qed.

(** The liquidation prices of the positions of a ledger generated at a
    leverage from 1 to 1000 over a catalog priced from 0.19 are strictly
    on the side of the entry price that C3 names. *)
Lemma generated_positions_liquidation symbols priceMap leverage count prefix p pos :
  symbols <> [] -> priced_from (19 # 100) symbols priceMap ->
  (1 <= leverage)%Q -> (leverage <= 1000)%Q ->
  In pos (tradesAsPositions
            (fst (generateTrades (num:=Q) symbols priceMap leverage count prefix p))) ->
  if is_long (Position.side pos)
  then (Position.liquidation_price pos < Position.entry_price pos)%Q
  else (Position.entry_price pos < Position.liquidation_price pos)%Q.
Proof.
  intros Hne Hpriced H1 H1000 Hin.
  apply tradesAsPositions_In in Hin as (t & Ht & _ & ->).
  assert (Hall : List.Forall
                   (fun t => Trade.leverage t = leverage /\
                             ((88 # 100) * (19 # 100) - (1 # 20000)
                              <= Trade.entry_price t)%Q)
                   (fst (generateTrades (num:=Q) symbols priceMap leverage count
                           prefix p))).
  { unfold generateTrades. rewrite bind_run. cbn [fst ret].
    eapply Permutation_Forall; [symmetry; apply sort_perm|].
    apply for_push_Forall. intros i q.
    apply (generateTrades_body_entry (19 # 100)); [exact Hne | discriminate | exact Hpriced]. }
  rewrite List.Forall_forall in Hall.
  destruct (Hall t Ht) as [Hlev Hentry].
  cbn [position_of Position.side Position.entry_price].
  apply position_of_liquidation; rewrite Hlev; [exact H1 | lra].
Qed.

(** So for the positions of the module: at leverage 15 over the crypto
    prices and at leverage 3 over the stock prices. *)
Lemma module_positions_liquidation p pos :
  In pos (tradesAsPositions (fst (CRYPTO_TRADES (num:=Q) p))) \/
  In pos (tradesAsPositions (fst (HIP3_TRADES (num:=Q) p))) ->
  if is_long (Position.side pos)
  then (Position.liquidation_price pos < Position.entry_price pos)%Q
  else (Position.entry_price pos < Position.liquidation_price pos)%Q.
Proof.
  intros [Hin|Hin];
    (eapply generated_positions_liquidation; [| | | | exact Hin];
     [discriminate
     | unfold priced_from;
       repeat (constructor; [eexists; split; [reflexivity | discriminate]|]);
       constructor
     | discriminate
     | discriminate]).
Qed.

End ServedPositions.

(* ===================================================================== *)
(** * Part III. Further properties of the code                            *)
(* ===================================================================== *)

(** ** The helpers *)

Section HelperProperties.
Context `{Host}.

Lemma round2_mono (x y : Q) : (x <= y)%Q -> (round2 x <= round2 y)%Q.
Proof.
  intros Hxy. rewrite !round2_exact.
  assert (Hr : (Q_round (x * 100) <= Q_round (y * 100))%Q)
    by (apply Q_round_mono; lra).
  unfold Qdiv. change (/ 100)%Q with (1 # 100)%Q. lra.
Qed.

Lemma round2_idem (x : Q) : (round2 (round2 x) == round2 x)%Q.
Proof.
  rewrite (round2_exact (round2 x)).
  assert (Hgrid : (round2 x * 100 == Q_round (x * 100))%Q)
    by (rewrite round2_exact; field).
  rewrite (Q_round_eq _ _ Hgrid).
  unfold Q_round at 2. rewrite Q_round_inject, round2_exact. reflexivity.
Qed.

(** X1: [rand(min, max)] is a number from [min] to [max], both included,
    when [min < max], and takes one draw.  [max] itself is not excluded:
    in binary64 the largest draw gives it wherever the product rounds up
    ([largest_draw_binary64] below). *)
Theorem rand_within (min max : Q) (p : nat) :
  (min < max)%Q ->
  (min <= fst (rand min max p))%Q /\ (fst (rand min max p) <= max)%Q /\
  snd (rand min max p) = S p.
Proof.
  intros Hlt. destruct (rand_range min max p Hlt) as [Hlo Hhi].
  split; [exact Hlo|]. split; [apply Qlt_le_weak, Hhi|].
  unfold rand. rewrite bind_run. reflexivity.
Qed.


(** X2: [randInt(min, max)] is an integer from [min] to [max + 1], for
    integers [min <= max]: it is the floor of a number drawn from [min] up
    to [max + 1].  [max + 1] itself is what the largest draw gives in
    binary64 where the product rounds up, as it does in [randInt(60, 95)],
    [randInt(35, 65)], [randInt(20, 80)] and [randInt(5000, 10000)] of the
    script ([largest_draw_binary64] below); in exact arithmetic the result
    stays at or below [max]. *)
Theorem randInt_within (min max : Z) (p : nat) :
  (min <= max)%Z ->
  exists z : Z,
    fst (randInt (num:=Q) (lit min) (lit max) p) = inject_Z z /\
    (min <= z <= max + 1)%Z.
Proof.
  intros Hle. destruct (randInt_range min max p Hle) as (z & Hz & Hrange).
  exists z. split; [exact Hz | lia].
Qed.


(** X3: [pick(arr)] returns an element of [arr], never [undefined], when
    [arr] is not empty. *)
Theorem pick_member {A : Type} (arr : list A) (undefined : A) (p : nat) :
  arr <> [] ->
  In (fst (pick (num:=Q) arr undefined p)) arr /\
  snd (pick (num:=Q) arr undefined p) = S p.
Proof.
  intros Hne. split; [apply pick_in, Hne|].
  unfold pick, randInt, rand. rewrite !bind_run. reflexivity.
Qed.


(** X4: [round2] and [round4] move a number by at most half a unit of
    their last decimal, keep the order, and leave a rounded number as it
    is. *)
Theorem rounding_helpers (x y : Q) :
  (Qabs (round2 x - x) <= 1 # 200)%Q /\
  (Qabs (round4 x - x) <= 1 # 20000)%Q /\
  ((x <= y)%Q -> (round2 x <= round2 y)%Q /\ (round4 x <= round4 y)%Q) /\
  (round2 (round2 x) == round2 x)%Q /\
  (round4 (round4 x) == round4 x)%Q.
Proof.
  split; [apply round2_near|]. split; [apply round4_near|].
  split; [intros Hxy; split; [apply round2_mono | apply round4_mono]; exact Hxy|].
  split; [apply round2_idem | apply round4_idem].
Qed.

(** The integer [Math.random() * 16 | 0] of a draw. *)
Lemma to_int32_draw (r : Q) :
  (0 <= r)%Q -> (r < 1)%Q -> (0 <= to_int32 (r * lit 16)%js <= 15)%Z.
Proof.
  intros H0 H1. unfold to_int32, lit. cbn [of_Z mul sub ltb Math_floor to_int Exact].
  unfold Q_ltb. destruct (Qlt_le_dec (r * inject_Z 16) (inject_Z 0)) as [Hneg|_].
  { exfalso. change (inject_Z 16) with 16%Q in Hneg.
    change (inject_Z 0) with 0%Q in Hneg. lra. }
  rewrite Q_to_int_inject.
  assert (Hlo : (0 <= Qfloor (r * inject_Z 16))%Z).
  { change 0%Z with (Qfloor 0). apply Qfloor_resp_le.
    change (inject_Z 16) with 16%Q. lra. }
  assert (Hhi : (Qfloor (r * inject_Z 16) < 16)%Z).
  { rewrite Zlt_Qlt. eapply Qle_lt_trans; [apply Qfloor_le|].
    change (inject_Z 16) with 16%Q. lra. }
  set (z := Qfloor (r * inject_Z 16)) in *.
  rewrite Z.mod_small by lia. lia.
Qed.

Lemma hex_digit_x (z : Z) :
  (0 <= z <= 15)%Z ->
  exists d, hex_digit z = String d EmptyString /\ uuid_char "x" d = true.
Proof.
  intros Hz.
  assert (Hcases : (z = 0 \/ z = 1 \/ z = 2 \/ z = 3 \/ z = 4 \/ z = 5 \/ z = 6 \/
                    z = 7 \/ z = 8 \/ z = 9 \/ z = 10 \/ z = 11 \/ z = 12 \/
                    z = 13 \/ z = 14 \/ z = 15)%Z) by lia.
  repeat (destruct Hcases as [-> | Hcases]; [eexists; split; reflexivity|]).
  subst z. eexists; split; reflexivity.
Qed.

Lemma hex_digit_y (z : Z) :
  (0 <= z <= 15)%Z ->
  exists d, hex_digit (Z.lor (Z.land z 3) 8) = String d EmptyString /\
            uuid_char "y" d = true.
Proof.
  intros Hz.
  assert (Hcases : (z = 0 \/ z = 1 \/ z = 2 \/ z = 3 \/ z = 4 \/ z = 5 \/ z = 6 \/
                    z = 7 \/ z = 8 \/ z = 9 \/ z = 10 \/ z = 11 \/ z = 12 \/
                    z = 13 \/ z = 14 \/ z = 15)%Z) by lia.
  repeat (destruct Hcases as [-> | Hcases]; [eexists; split; reflexivity|]).
  subst z. eexists; split; reflexivity.
Qed.

Lemma replace_chars_shape (f : ascii -> Rand string) (cost : ascii -> nat) :
  (forall c p, exists d, fst (f c p) = String d EmptyString /\ uuid_char c d = true) ->
  (forall c p, snd (f c p) = (cost c + p)%nat) ->
  forall s p,
    uuid_shape s (fst (replace_chars f s p)) = true /\
    snd (replace_chars f s p) =
      (list_sum (List.map cost (list_ascii_of_string s)) + p)%nat.
Proof.
  intros Hf Hcost. induction s as [|c s IH]; intros p; cbn [replace_chars].
  - split; reflexivity.
  - rewrite !bind_run. cbn [fst snd ret].
    destruct (Hf c p) as (d & Hd & Hcd). rewrite Hd.
    specialize (IH (snd (f c p))). rewrite Hcost in *.
    destruct (replace_chars f s (cost c + p)%nat) as [t q].
    cbn [fst snd] in *. destruct IH as [IHs IHp].
    simpl. change (String.append EmptyString t) with t. rewrite Hcd, IHs, IHp. split; [reflexivity | lia].
Qed.

(** The characters of [uuid()] follow its template, one for one, and it
    takes a draw for each [x] and [y]. *)
Lemma uuid_facts (p : nat) :
  uuid_shape "xxxxxxxx-xxxx-4xxx-yxxx-xxxxxxxxxxxx" (fst (uuid (num:=Q) p)) = true /\
  String.length (fst (uuid (num:=Q) p)) = 36%nat /\
  snd (uuid (num:=Q) p) = (p + 31)%nat.
Proof.
  unfold uuid.
  match goal with
  | |- context [replace_chars ?f ?tpl] =>
      assert (Hf : forall c q, exists d,
                 fst (f c q) = String d EmptyString /\ uuid_char c d = true);
      [| assert (Hcost : forall c q,
                   snd (f c q) =
                   ((if (Ascii.eqb c "x" || Ascii.eqb c "y")%bool
                     then 1 else 0) + q)%nat);
         [| destruct (replace_chars_shape f _ Hf Hcost tpl p) as [Hshape Hdraws]]]
  end.
  - intros c q. destruct (Ascii.eqb c "x") eqn:Ex; cbn [orb].
    + apply Ascii.eqb_eq in Ex. subst c. rewrite bind_run. cbn [fst ret].
      apply hex_digit_x, to_int32_draw; apply Math_random_unit.
    + destruct (Ascii.eqb c "y") eqn:Ey.
      * apply Ascii.eqb_eq in Ey. subst c. rewrite bind_run. cbn [fst ret].
        apply hex_digit_y, to_int32_draw; apply Math_random_unit.
      * cbn [fst ret]. exists c. split; [reflexivity|].
        unfold uuid_char. rewrite Ex, Ey. apply Ascii.eqb_refl.
  - intros c q. destruct (Ascii.eqb c "x" || Ascii.eqb c "y")%bool.
    + rewrite bind_run. reflexivity.
    + reflexivity.
  - split; [exact Hshape|]. split.
    + clear Hdraws Hf Hcost.
      match type of Hshape with
      | uuid_shape _ ?r = true => generalize dependent r
      end.
      intros s Hs.
      repeat (destruct s as [|? s]; [discriminate Hs|];
              cbn [uuid_shape] in Hs; apply andb_prop in Hs as [_ Hs]).
      destruct s; [reflexivity | discriminate Hs].
    + rewrite Hdraws. vm_compute list_sum. lia.
Qed.

(** X5: [uuid()] has the shape of its template: 36 characters, the hyphens
    and the version digit 4 at their places, a hexadecimal digit for every
    [x] and one of 8, 9, a, b for the [y]; it takes 31 draws. *)
Theorem uuid_well_formed (p : nat) :
  uuid_shape "xxxxxxxx-xxxx-4xxx-yxxx-xxxxxxxxxxxx" (fst (uuid (num:=Q) p)) = true /\
  String.length (fst (uuid (num:=Q) p)) = 36%nat /\
  snd (uuid (num:=Q) p) = (p + 31)%nat.
Proof. exact (uuid_facts p). Qed.

End HelperProperties.

Lemma rand_within_witness :
  let host := host_of mixed_bits in
  ((-2 # 100) <= fst (rand (-2 # 100) (3 # 100) 7%nat))%Q /\
  (fst (rand (-2 # 100) (3 # 100) 7%nat) <= 3 # 100)%Q /\
  snd (rand (-2 # 100) (3 # 100) 7%nat) = 8%nat.
Proof.
  intros host. apply (rand_within (-2 # 100) (3 # 100) 7). reflexivity.
Defined.

Lemma randInt_within_witness :
  let host := host_of mixed_bits in
  exists z : Z,
    fst (randInt (num:=Q) (lit 1) (lit 45) 0%nat) = inject_Z z /\
    (1 <= z <= 45 + 1)%Z.
Proof. intros host. apply (randInt_within 1 45 0). lia. Defined.

(** The largest draw in binary64: [rand] returns its upper bound and
    [randInt] one more than its upper bound in these calls of the script,
    where the product rounds up; in [randInt(1, 45)] and [randInt(0, 23)]
    it does not, and the result is the upper bound.  In exact arithmetic
    the same draw stays below. *)
Lemma largest_draw_binary64 :
  let host := host_of top_bits in
  let drawn (min max : Z) : float :=
    fst (rand (num:=float) (lit min) (lit max) 0%nat) in
  let integer (num : Type) `{Number num} (min max : Z) : option Z :=
    to_int (fst (randInt (num:=num) (lit min) (lit max) 0%nat)) in
  (drawn 60 96 =? lit 96)%js = true /\
  List.map (fun r => integer float (fst r) (snd r))
    [(60, 95); (35, 65); (20, 80); (5000, 10000); (1, 45); (0, 23)]
  = [Some 96; Some 66; Some 81; Some 10001; Some 45; Some 23] /\
  List.map (fun r => integer Q (fst r) (snd r))
    [(60, 95); (35, 65); (20, 80); (5000, 10000); (1, 45); (0, 23)]
  = [Some 95; Some 65; Some 80; Some 10000; Some 45; Some 23].
Proof. vm_compute. repeat split. Qed.

Lemma pick_member_witness :
  let host := host_of mixed_bits in
  In (fst (pick (num:=Q) REGIMES undefined 3%nat)) REGIMES /\
  snd (pick (num:=Q) REGIMES undefined 3%nat) = 4%nat.
Proof. intros host. apply (pick_member REGIMES undefined 3). discriminate. Defined.

(** ** The ledger's records *)

Section LedgerRecords.
Context `{Host}.

Lemma round4_le_grid (g x : Q) : on_grid g -> (x <= g)%Q -> (round4 x <= g)%Q.
Proof.
  intros Hg Hx. unfold on_grid in Hg. rewrite <- Hg. apply round4_mono, Hx.
Qed.

Lemma round4_ge_grid (g x : Q) : on_grid g -> (g <= x)%Q -> (g <= round4 x)%Q.
Proof.
  intros Hg Hx. unfold on_grid in Hg. rewrite <- Hg at 1. apply round4_mono, Hx.
Qed.

Lemma round2_nonneg (x : Q) : (0 <= x)%Q -> (0 <= round2 x)%Q.
Proof.
  intros Hx. apply Qle_trans with (round2 0%Q);
    [vm_compute; discriminate | apply round2_mono, Hx].
Qed.

Lemma round2_nonpos (x : Q) : (x <= 0)%Q -> (round2 x <= 0)%Q.
Proof.
  intros Hx. apply Qle_trans with (round2 0%Q);
    [apply round2_mono, Hx | vm_compute; discriminate].
Qed.

Lemma round4_nonneg (x : Q) : (0 <= x)%Q -> (0 <= round4 x)%Q.
Proof.
  intros Hx. apply Qle_trans with (round4 0%Q);
    [vm_compute; discriminate | apply round4_mono, Hx].
Qed.

(** A rounded draw stays between bounds that are themselves of two
    decimals. *)
Lemma round2_rand_between (lo hi : Q) (p : nat) :
  (lo < hi)%Q -> (round2 lo == lo)%Q -> (round2 hi == hi)%Q ->
  (lo <= round2 (fst (rand lo hi p)) /\ round2 (fst (rand lo hi p)) <= hi)%Q.
Proof.
  intros Hlt Hlo Hhi. destruct (rand_range lo hi p Hlt) as [H1 H2].
  split.
  - rewrite <- Hlo at 1. apply round2_mono, H1.
  - rewrite <- Hhi at 2. apply round2_mono, Qlt_le_weak, H2.
Qed.

Lemma generateTrades_body_facts symbols priceMap leverage prefix openCount i p :
  symbols <> [] ->
  let t := fst (generateTrades_body (num:=Q) symbols priceMap leverage prefix
                  openCount i p) in
  (priced_from 0 symbols priceMap ->
   brackets_entry t /\ ((0 <= leverage)%Q -> outcome_consistent t)) /\
  timed NOW t /\ rated symbols t.
Proof.
  intros Hne t.
  set (P := fun t : Trade.t Q =>
              (priced_from 0 symbols priceMap ->
               brackets_entry t /\ ((0 <= leverage)%Q -> outcome_consistent t)) /\
              timed NOW t /\ rated symbols t).
  change (P t). unfold t, generateTrades_body.
  apply (bind_result_of (fun sym => In sym symbols) P).
  { intros q. destruct (i <? openCount)%nat.
    - cbn [fst ret]. apply nth_In. apply Nat.mod_upper_bound.
      destruct symbols; [contradiction | discriminate].
    - apply pick_in, Hne. }
  intros sym q Hsym. apply (bind_result P). intros side q0.
  set (base := price_of priceMap sym).
  apply (bind_result_of (fun off => (- (12 # 100) <= off)%Q) P).
  { intros q1.
    destruct (String.eqb sym "BTC"); [|destruct (String.eqb sym "ETH");
      [|destruct (String.eqb sym "DOGE")]];
      match goal with
      | |- (_ <= fst (rand ?lo ?hi _))%Q =>
          apply Qle_trans with lo; [discriminate | apply rand_range; reflexivity]
      end. }
  intros off q1 Hoff. apply (bind_result P). intros rRoll q2.
  apply (bind_result_of (fun r => (r == -1)%Q \/ (1 # 2 <= r /\ r <= 5)%Q) P).
  { intros q3.
    repeat match goal with
           | |- context [if ?b then _ else _] => destruct b
           end;
      [left; reflexivity | right ..]; rewrite bind_run; cbn [fst ret];
      match goal with
      | |- (_ <= round2 (fst (rand ?lo ?hi ?q)) /\ _)%Q =>
          destruct (round2_rand_between lo hi q) as [Hlo Hhi];
            [reflexivity | reflexivity | reflexivity |];
            split; [apply Qle_trans with lo; [discriminate | exact Hlo]
                   | apply Qle_trans with hi; [exact Hhi | discriminate]]
      end. }
  intros rMult q3 Hr.
  apply (bind_result_of (fun f => (2 <= f)%Q) P).
  { intros q4. exact (proj1 (rand_range (lit 2) (lit 4) q4 eq_refl)). }
  intros tpFactor q4 Htp.
  apply (bind_result_of (fun n => (2000 <= n)%Q) P).
  { intros q5. exact (proj1 (rand_range (lit 2000) (lit 5000) q5 eq_refl)). }
  intros notional q5 Hnot.
  apply (bind_result_of (fun d => exists z, d = inject_Z z /\ (1 <= z <= 45)%Z) P).
  { intros q6. apply (randInt_range 1 45). lia. }
  intros days q6 (zd & -> & Hzd).
  apply (bind_result_of (fun h => exists z, h = inject_Z z /\ (0 <= z <= 23)%Z) P).
  { intros q7. apply (randInt_range 0 23). lia. }
  intros hours q7 (zh & -> & Hzh).
  set (entryTs := (lit NOW - inject_Z zd * DAY_MS - inject_Z zh * HOUR_MS)%js).
  apply (bind_result_of
           (fun x => if (i <? openCount)%nat then x = None
                     else exists z, x = Some (entryTs + inject_Z z * HOUR_MS)%js /\
                                    (1 <= z <= 48)%Z) P).
  { intros q8. destruct (i <? openCount)%nat.
    - reflexivity.
    - rewrite bind_run. cbn [fst ret].
      destruct (randInt_range 1 48 q8) as (z & -> & Hz); [lia|].
      exists z. split; [reflexivity | exact Hz]. }
  intros exitTs q8 HexitTs. apply (bind_result P). intros currentPrice q9.
  apply (bind_result_of (fun r => In r REGIMES) P).
  { intros q10. apply pick_in. discriminate. }
  intros regime q10 Hregime.
  apply (bind_result_of (fun s => exists z, s = inject_Z z /\ (60 <= z <= 95)%Z) P).
  { intros q11. apply (randInt_range 60 95). lia. }
  intros score q11 Hscore.
  apply (bind_result_of (fun s => In s SETUP_TYPES) P).
  { intros q12. apply pick_in. discriminate. }
  intros setup q12 Hsetup.
  apply (bind_result_of
           (fun c => (60 # 100 <= round2 c /\ round2 c <= 95 # 100)%Q) P).
  { intros q13.
    destruct (round2_rand_between (dec 60 2) (dec 95 2) q13) as [Hlo Hhi];
      [reflexivity | reflexivity | reflexivity |].
    split; [apply Qle_trans with (dec 60 2); [discriminate | exact Hlo]
           | apply Qle_trans with (dec 95 2); [exact Hhi | discriminate]]. }
  intros confidence q13 Hconf.
  apply (bind_result_of (fun s => In s ENTRY_REASONS) P).
  { intros q14. apply pick_in. discriminate. }
  intros reason q14 Hreason.
  cbn [fst ret]. unfold P, brackets_entry, outcome_consistent, timed, rated.
  cbn [Trade.symbol Trade.side Trade.entry_price Trade.exit_price Trade.pnl_usd
       Trade.r_multiple Trade.entry_time Trade.exit_time Trade.status
       Trade.stop_loss Trade.take_profit Trade.regime Trade.trinity_score
       Trade.setup_type Trade.confidence Trade.entry_reason].
  change (dec (num:=Q) 1 2) with (1 # 100)%Q.
  change (lit (num:=Q) 1) with 1%Q. change (lit (num:=Q) 2) with 2%Q.
  change (lit (num:=Q) 100) with 100%Q.
  cbn [add sub mul div Exact].
  set (entry := round4 (base * (1 + off))%Q).
  assert (Hgrid : on_grid entry) by (unfold on_grid; exact (round4_idem _)).
  split; [intros Hpriced | split].
  - assert (Hbase : (0 <= base)%Q).
    { unfold priced_from in Hpriced. rewrite List.Forall_forall in Hpriced.
      destruct (Hpriced sym Hsym) as (price & Hprice & Hge).
      unfold base, price_of. rewrite Hprice. exact Hge. }
    assert (Hentry : (0 <= entry)%Q) by (apply round4_nonneg; nra).
    set (width := if (lit 10 <=? leverage)%js then 1%Q else 2%Q).
    assert (Hwidth : (1 <= width)%Q) by (unfold width; destruct (lit 10 <=? leverage)%js; discriminate).
    assert (Hsl : (0 <= base * (1 # 100) * width)%Q) by nra.
    assert (Htpd : (0 <= base * (1 # 100) * width * tpFactor)%Q) by nra.
    clearbody entry base width.
    split.
    + destruct (is_long side); split;
        [apply (round4_le_grid entry) | apply (round4_ge_grid entry)
        | apply (round4_le_grid entry) | apply (round4_ge_grid entry)];
        try exact Hgrid; lra.
    + intros Hlev. destruct (i <? openCount)%nat; [discriminate|]. intros _.
      cbn zeta. split; [exact Hr|].
      assert (Hpnl : (notional * (rMult * (1 # 100) * leverage * 100) / 100
                      == notional * (rMult * leverage) * (1 # 100))%Q) by field.
      split; [|split].
      * intros Hr0. apply round2_nonneg. rewrite Hpnl.
        assert (0 <= rMult * leverage)%Q by nra. nra.
      * intros Hr0. apply round2_nonpos. rewrite Hpnl.
        assert (rMult * leverage <= 0)%Q by nra. nra.
      * eexists. split; [reflexivity|].
        split; intros Hr0; destruct (is_long side);
          [apply (round4_ge_grid entry) | apply (round4_le_grid entry)
          | apply (round4_le_grid entry) | apply (round4_ge_grid entry)];
          try exact Hgrid; nra.
  - assert (Hd : (1 <= inject_Z zd /\ inject_Z zd <= 45)%Q)
      by (split; [change 1%Q with (inject_Z 1) | change 45%Q with (inject_Z 45)];
          rewrite <- Zle_Qle; lia).
    assert (Hh : (0 <= inject_Z zh /\ inject_Z zh <= 23)%Q)
      by (split; [change 0%Q with (inject_Z 0) | change 23%Q with (inject_Z 23)];
          rewrite <- Zle_Qle; lia).
    subst entryTs. unfold isoAt, DAY_MS, HOUR_MS, lit in *.
    cbn [of_Z add sub mul Exact] in *.
    change (inject_Z 86400000) with 86400000%Q in *.
    change (inject_Z 3600000) with 3600000%Q in *.
    set (d := inject_Z zd) in *. set (h := inject_Z zh) in *.
    set (now := inject_Z NOW) in *.
    split; [lra|]. split; [lra|].
    destruct (i <? openCount)%nat; [discriminate|]. intros _.
    destruct HexitTs as (z & -> & Hz). eexists. split; [reflexivity|].
    assert (Hx : (1 <= inject_Z z /\ inject_Z z <= 48)%Q)
      by (split; [change 1%Q with (inject_Z 1) | change 48%Q with (inject_Z 48)];
          rewrite <- Zle_Qle; lia).
    set (x := inject_Z z) in *. lra.
  - destruct Hscore as (z & -> & Hz).
    repeat (split; [assumption|]).
    split; [exists z; split; [reflexivity | lia] | exact Hconf].
Qed.

Lemma generateTrades_Forall {num : Type} `{Number num} (P : Trade.t num -> Prop)
    symbols priceMap leverage count prefix p :
  (forall i q, P (fst (generateTrades_body symbols priceMap leverage prefix
                         (openCount_of prefix) i q))) ->
  List.Forall P (fst (generateTrades symbols priceMap leverage count prefix p)).
Proof.
  intros Hbody. unfold generateTrades. rewrite bind_run. cbn [fst ret].
  eapply Permutation_Forall; [symmetry; apply sort_perm|].
  apply for_push_Forall. exact Hbody.
Qed.

(** X6: in a ledger of [generateTrades], the exit price and the exit time
    of a record are null exactly when the record is open. *)
Theorem ledger_exit_fields {num : Type} `{Number num}
    symbols priceMap leverage count prefix p :
  forallb exit_fields_match
    (fst (generateTrades (num:=num) symbols priceMap leverage count prefix p)) = true.
Proof.
  apply forallb_forall. apply List.Forall_forall.
  apply generateTrades_Forall. intros i q. unfold generateTrades_body.
  do 9 (apply bind_result; intros ? ?).
  match goal with
  | |- context [bind ?m _] =>
      apply (bind_result_of
               (fun x => is_null x = (i <? openCount_of prefix)%nat))
  end.
  { intros q'. destruct (i <? openCount_of prefix)%nat.
    - reflexivity.
    - rewrite bind_run. reflexivity. }
  intros exitTs q' HexitTs.
  repeat (apply bind_result; intros ? ?).
  cbn [fst ret]. unfold exit_fields_match.
  cbn [Trade.exit_price Trade.exit_time Trade.status].
  destruct (i <? openCount_of prefix)%nat; [reflexivity|].
  cbn [is_null is_open]. rewrite HexitTs. reflexivity.
Qed.

(** X7: in a ledger generated over a catalog with prices that are not
    negative, the stop of a long record is at or below its entry price and
    its target at or above; for a short record it is the other way
    round. *)
Theorem ledger_brackets symbols priceMap leverage count prefix p :
  symbols <> [] -> priced_from 0 symbols priceMap ->
  List.Forall brackets_entry
    (fst (generateTrades (num:=Q) symbols priceMap leverage count prefix p)).
Proof.
  intros Hne Hpriced. apply generateTrades_Forall. intros i q.
  apply generateTrades_body_facts; assumption.
Qed.

(** X8: a closed record of such a ledger, at a leverage that is not
    negative, has an R-multiple of -1 or from 0.5 to 5; its profit is not
    negative when the R-multiple is not, and not positive when the
    R-multiple is -1; its exit price is on the winning side of the entry
    price in the first case and on the losing side in the second. *)
Theorem ledger_outcomes symbols priceMap leverage count prefix p :
  symbols <> [] -> priced_from 0 symbols priceMap -> (0 <= leverage)%Q ->
  List.Forall outcome_consistent
    (fst (generateTrades (num:=Q) symbols priceMap leverage count prefix p)).
Proof.
  intros Hne Hpriced Hlev. apply generateTrades_Forall. intros i q.
  apply generateTrades_body_facts; assumption.
Qed.

(** X9: every record of a ledger enters from one day to 45 days and 23
    hours before [NOW], and a closed record exits from one hour to 48
    hours after its entry. *)
Theorem ledger_times symbols priceMap leverage count prefix p :
  symbols <> [] ->
  List.Forall (timed NOW)
    (fst (generateTrades (num:=Q) symbols priceMap leverage count prefix p)).
Proof.
  intros Hne. apply generateTrades_Forall. intros i q.
  apply generateTrades_body_facts; assumption.
Qed.

(** X10: the symbol, regime, setup and entry reason of every record are
    of their catalogs (never [undefined]), its score is an integer from 60
    to 96 and its confidence is from 0.6 to 0.95.  The score 96, one above
    the range the call [randInt(60, 95)] names, is what the largest draw
    gives in binary64 ([ledger_score_binary64] below). *)
Theorem ledger_labels symbols priceMap leverage count prefix p :
  symbols <> [] ->
  List.Forall (rated symbols)
    (fst (generateTrades (num:=Q) symbols priceMap leverage count prefix p)).
Proof.
  intros Hne. apply generateTrades_Forall. intros i q.
  apply generateTrades_body_facts; assumption.
Qed.

End LedgerRecords.

Lemma ledger_brackets_witness :
  let host := host_of mixed_bits in
  List.Forall brackets_entry (fst (CRYPTO_TRADES (num:=Q) 0%nat)).
Proof.
  intros host. unfold CRYPTO_TRADES.
  apply (ledger_brackets CRYPTO_SYMBOLS CRYPTO_PRICES (lit 15) 55 "C" 0).
  - discriminate.
  - unfold priced_from.
    repeat (constructor; [eexists; split; [reflexivity | vm_compute; discriminate]|]).
    constructor.
Defined.

Lemma ledger_outcomes_witness :
  let host := host_of mixed_bits in
  List.Forall outcome_consistent (fst (HIP3_TRADES (num:=Q) 0%nat)).
Proof.
  intros host. unfold HIP3_TRADES.
  apply (ledger_outcomes STOCK_SYMBOLS STOCK_PRICES (lit 3) 40 "H" 0).
  - discriminate.
  - unfold priced_from.
    repeat (constructor; [eexists; split; [reflexivity | vm_compute; discriminate]|]).
    constructor.
  - discriminate.
Defined.

Lemma ledger_times_witness :
  let host := host_of mixed_bits in
  List.Forall (timed NOW) (fst (CRYPTO_TRADES (num:=Q) 0%nat)).
Proof.
  intros host. unfold CRYPTO_TRADES.
  apply (ledger_times CRYPTO_SYMBOLS CRYPTO_PRICES (lit 15) 55 "C" 0).
  discriminate.
Defined.

Lemma ledger_labels_witness :
  let host := host_of mixed_bits in
  List.Forall (rated STOCK_SYMBOLS) (fst (HIP3_TRADES (num:=Q) 0%nat)).
Proof.
  intros host. unfold HIP3_TRADES.
  apply (ledger_labels STOCK_SYMBOLS STOCK_PRICES (lit 3) 40 "H" 0).
  discriminate.
Defined.

(** The ledgers of the module on the stream of the largest draw, in
    binary64: every score is 96, every confidence 0.95, and every label is
    of its catalog. *)
Lemma ledger_score_binary64 :
  let host := host_of top_bits in
  let seen (trades : list (Trade.t float)) :=
    (forallb (fun t => (Trade.trinity_score t =? lit 96)%js) trades,
     forallb (fun t => (Trade.confidence t =? dec 95 2)%js) trades,
     forallb (fun t => existsb (String.eqb (Trade.regime t)) REGIMES &&
                       existsb (String.eqb (Trade.setup_type t)) SETUP_TYPES &&
                       existsb (String.eqb (Trade.entry_reason t)) ENTRY_REASONS)
       trades,
     List.length trades) in
  seen (fst (CRYPTO_TRADES (num:=float) 0%nat)) = (true, true, true, 55%nat) /\
  seen (fst (HIP3_TRADES (num:=float) 0%nat)) = (true, true, true, 40%nat).
Proof. vm_compute. split; reflexivity. Qed.

(** ** The ids of a ledger *)

(** The number a padded decimal reads as. *)
Lemma uint_of_zeros (k : nat) (s : string) :
  NilEmpty.uint_of_string (zeros k ++ s)
  = option_map (Nat.iter k Decimal.D0) (NilEmpty.uint_of_string s).
Proof.
  induction k as [|k IH].
  - change (zeros 0 ++ s)%string with s.
    destruct (NilEmpty.uint_of_string s); reflexivity.
  - change (zeros (S k) ++ s)%string with (String "0" (zeros k ++ s)).
    cbn [NilEmpty.uint_of_string]. rewrite IH.
    destruct (NilEmpty.uint_of_string s); reflexivity.
Qed.

Lemma of_uint_zeros (k : nat) (d : Decimal.uint) :
  Nat.of_uint (Nat.iter k Decimal.D0 d) = Nat.of_uint d.
Proof.
  induction k as [|k IH]; [reflexivity|].
  cbn [Nat.iter nat_rect]. exact IH.
Qed.

Lemma padStart4_decimal_inj (n m : nat) :
  padStart4 (decimal n) = padStart4 (decimal m) -> n = m.
Proof.
  intros E.
  assert (Hread : forall k,
             option_map Nat.of_uint (NilEmpty.uint_of_string (padStart4 (decimal k)))
             = Some k).
  { intros k. unfold padStart4, decimal. rewrite uint_of_zeros, NilEmpty.usu.
    cbn [option_map]. rewrite of_uint_zeros, DecimalNat.Unsigned.of_to. reflexivity. }
  pose proof (Hread n) as Hn. rewrite E, Hread in Hn. congruence.
Qed.

Lemma append_inj_r (pre s s' : string) :
  (pre ++ s = pre ++ s')%string -> s = s'.
Proof.
  induction pre as [|c pre IH]; intros E.
  - exact E.
  - apply IH. change (String c (pre ++ s) = String c (pre ++ s'))%string in E.
    congruence.
Qed.

Section LedgerIds.
Context {num : Type} `{Number num} `{Host}.

(** X11: the ids of a ledger of [generateTrades] are pairwise distinct,
    and the ledger has [count] records. *)
Theorem ledger_ids_distinct symbols (priceMap : list (string * num)) leverage
    count prefix p :
  List.NoDup (List.map Trade.id
           (fst (generateTrades symbols priceMap leverage count prefix p))) /\
  List.length (fst (generateTrades symbols priceMap leverage count prefix p))
  = Z.to_nat count.
Proof.
  unfold generateTrades. rewrite bind_run. cbn [fst ret]. split.
  - eapply Permutation_NoDup;
      [apply Permutation_map; symmetry; apply sort_perm|].
    rewrite (for_push_map _ Trade.id
               (fun i => (prefix ++ "-" ++ padStart4 (decimal (i + 1)))%string)).
    + apply Finite.Injective_map_NoDup; [|apply seq_NoDup].
      intros i j E. apply append_inj_r in E. apply (append_inj_r "-") in E.
      apply padStart4_decimal_inj in E. lia.
    + intros i q. unfold generateTrades_body.
      repeat (apply bind_result; intros ? ?). reflexivity.
  - rewrite sort_length. apply for_push_length.
Qed.

End LedgerIds.

(** ** Candle series *)

Section CandleSeries.
Context {num : Type} `{Number num} `{Host}.

Lemma generateCandles_loop_chained basePrice count intervalMs vol (price : num) i n p :
  chained price
    (fst (generateCandles_loop basePrice count intervalMs vol price i n p)).
Proof.
  revert price i p. induction n as [|n IH]; intros price i p;
    cbn [generateCandles_loop].
  - exact I.
  - do 4 (apply bind_result; intros ? ?).
    rewrite bind_run. cbn [fst ret chained Candle.open Candle.close].
    split; [reflexivity | apply IH].
Qed.

(** X12: [generateCandles] returns [count] bars; the first opens at the
    base price times the start factor drawn, and every other bar opens at
    the close of the bar before it. *)
Theorem generateCandles_chained (basePrice : num) (count : Z) (intervalMs : num)
    (p : nat) :
  List.length (fst (generateCandles basePrice count intervalMs p)) = Z.to_nat count /\
  chained (basePrice * fst (rand (dec 85 2) (dec 95 2) p))%js
    (fst (generateCandles basePrice count intervalMs p)).
Proof.
  split; [apply generateCandles_length|].
  unfold generateCandles. rewrite bind_run. apply generateCandles_loop_chained.
Qed.

Lemma generateCandles_loop_times basePrice count intervalMs vol (price : num) i n p :
  List.map Candle.time
    (fst (generateCandles_loop basePrice count intervalMs vol price i n p))
  = List.map
      (fun j => Math_floor ((lit NOW - lit (count - Z.of_nat j) * intervalMs)
                            / lit 1000)%js)
      (seq i n).
Proof.
  revert price i p. induction n as [|n IH]; intros price i p;
    cbn [generateCandles_loop].
  - reflexivity.
  - rewrite !bind_run. cbn [fst ret List.map seq Candle.time].
    f_equal. apply IH.
Qed.

(** X15: [getCandlesForSymbol] only adds to the cache: what was cached
    stays as it was, and the one key that may be new is the symbol asked
    for. *)
Theorem getCandlesForSymbol_extends (symbol : string) (cache : Cache num) (p : nat) :
  let cache' := snd (fst (getCandlesForSymbol symbol cache p)) in
  cache ⊆ cache' /\ dom cache' = {[symbol]} ∪ dom cache.
Proof.
  cbn zeta. unfold getCandlesForSymbol.
  destruct (cache !! symbol) as [series|] eqn:E.
  - cbn [fst snd ret]. split; [reflexivity|].
    rewrite <- (dom_insert_L cache symbol series), (insert_id _ _ _ E).
    reflexivity.
  - rewrite bind_run. cbn [fst snd ret]. split.
    + apply insert_subseteq, E.
    + apply dom_insert_L.
Qed.

End CandleSeries.

Section CandleSeriesExact.
Context `{Host}.

Lemma generateCandles_loop_close_within basePrice count intervalMs vol (price : Q)
    i n p :
  List.Forall close_within
    (fst (generateCandles_loop basePrice count intervalMs vol price i n p)).
Proof.
  revert price i p. induction n as [|n IH]; intros price i p;
    cbn [generateCandles_loop].
  - constructor.
  - apply bind_result. intros r q0.
    apply (bind_result_of (fun up => 0 <= up)%Q).
    { intros q. apply Qle_trans with (1 # 10)%Q; [discriminate|].
      exact (proj1 (rand_range (1 # 10) (15 # 10) q eq_refl)). }
    intros up q1 Hup.
    apply (bind_result_of (fun down => 0 <= down)%Q).
    { intros q. apply Qle_trans with (1 # 10)%Q; [discriminate|].
      exact (proj1 (rand_range (1 # 10) (15 # 10) q eq_refl)). }
    intros down q2 Hdown.
    apply bind_result. intros v q3.
    rewrite bind_run. cbn [fst ret]. constructor; [|apply IH].
    unfold close_within. cbn [Candle.low Candle.close Candle.high].
    cbn [Math_max Math_min add sub mul Math_abs Exact].
    set (change := ((r - dec 48 2 + dec 2 4) * vol * price)%Q).
    set (close := round4 (price + change)%Q).
    assert (Hgrid : on_grid close) by apply round4_on_grid.
    assert (Hu : (0 <= Qabs change * up)%Q)
      by (apply Qmult_le_0_compat; [apply Qabs_nonneg | exact Hup]).
    assert (Hd : (0 <= Qabs change * down)%Q)
      by (apply Qmult_le_0_compat; [apply Qabs_nonneg | exact Hdown]).
    clearbody close. unfold Q_ltb. split.
    + apply (round4_le_grid close); [exact Hgrid|].
      destruct (Qlt_le_dec close price); lra.
    + apply (round4_ge_grid close); [exact Hgrid|].
      destruct (Qlt_le_dec price close); lra.
Qed.

(** X13: in a series of [generateCandles], the close of every bar is
    between its low and its high, and every bar but the first satisfies
    the whole candle invariant ([high >= max(open, close)] and
    [low <= min(open, close)]). *)
Theorem generateCandles_sound (basePrice : Q) (count : Z) (intervalMs : Q) (p : nat) :
  List.Forall close_within (fst (generateCandles basePrice count intervalMs p)) /\
  List.Forall (fun c => candle_ok c = true)
    (List.tl (fst (generateCandles basePrice count intervalMs p))).
Proof.
  split; [|apply generateCandles_tail_ok].
  unfold generateCandles. rewrite bind_run. apply generateCandles_loop_close_within.
Qed.

(** X14: with an interval of whole seconds, the bars of a series are that
    many seconds apart; the last one is stamped one interval before the
    current second. *)
Theorem generateCandles_times (basePrice : Q) (count seconds : Z) (p : nat) :
  List.map Candle.time
    (fst (generateCandles basePrice count (lit (seconds * 1000)) p))
  = List.map
      (fun j => inject_Z (NOW / 1000 - (count - Z.of_nat j) * seconds))
      (seq 0 (Z.to_nat count)).
Proof.
  unfold generateCandles. rewrite bind_run.
  rewrite generateCandles_loop_times. apply map_ext. intros j.
  unfold lit. cbn [of_Z add sub mul div Math_floor Exact]. f_equal.
  set (k := (count - Z.of_nat j)%Z).
  assert (E : ((inject_Z NOW - inject_Z k * inject_Z (seconds * 1000)) / inject_Z 1000
               == (NOW + - (k * seconds) * 1000) # 1000)%Q).
  { unfold Qeq, Qdiv, Qminus, Qplus, Qopp, Qmult, Qinv, inject_Z.
    cbn [Qnum Qden Z.opp Pos.mul]. lia. }
  rewrite (Qfloor_comp _ _ E). unfold Qfloor.
  rewrite Z.div_add by lia. lia.
Qed.

Lemma generateEquityCurve_loop_nonneg days (dailyReturn volatility : Q) :
  (0 < volatility)%Q -> (volatility <= 1 + dailyReturn)%Q ->
  forall n bal d p, (0 <= bal)%Q ->
    List.Forall (fun pt => (0 <= EquityPoint.equity pt)%Q)
      (fst (generateEquityCurve_loop days dailyReturn volatility bal d n p)).
Proof.
  intros Hvol Hret. induction n as [|n IH]; intros bal d p Hbal;
    cbn [generateEquityCurve_loop].
  - constructor.
  - apply (bind_result_of (fun w => (- volatility <= w)%Q)).
    { intros q.
      destruct (rand_range (lit 0 - volatility)%js volatility q) as [Hlo _];
        unfold lit in *; cbn [of_Z sub Exact] in *;
        change (inject_Z 0) with 0%Q in *; lra. }
    intros w q Hw. rewrite bind_run. cbn [fst ret].
    assert (Hbal' : (0 <= round2 (bal * (lit 1 + dailyReturn + w))%js)%Q).
    { apply round2_nonneg. unfold lit. cbn [of_Z add mul Exact].
      change (inject_Z 1) with 1%Q. nra. }
    constructor; [exact Hbal' | apply IH, Hbal'].
Qed.

(** X16: no point of an equity curve of [generateEquityCurve] is negative
    when the start balance is not negative and the volatility is positive
    and at most one plus the daily return. *)
Theorem generateEquityCurve_nonneg (startBalance : Q) (days : Z)
    (dailyReturn volatility : Q) (p : nat) :
  (0 <= startBalance)%Q -> (0 < volatility)%Q -> (volatility <= 1 + dailyReturn)%Q ->
  List.Forall (fun pt => (0 <= EquityPoint.equity pt)%Q)
    (fst (generateEquityCurve startBalance days dailyReturn volatility p)).
Proof.
  intros Hstart Hvol Hret. unfold generateEquityCurve.
  apply generateEquityCurve_loop_nonneg; assumption.
Qed.

End CandleSeriesExact.

Lemma generateEquityCurve_nonneg_witness :
  let host := host_of mixed_bits in
  List.Forall (fun pt => (0 <= EquityPoint.equity pt)%Q)
    (fst (generateEquityCurve (num:=Q) 100%Q 45 (5 # 1000)%Q (1 # 100)%Q 0%nat)).
Proof.
  intros host.
  apply (generateEquityCurve_nonneg 100%Q 45 (5 # 1000)%Q (1 # 100)%Q 0).
  - discriminate.
  - reflexivity.
  - discriminate.
Defined.

(** ** The monitor feeds and the coin scanner *)

Lemma unacknowledged_from (n i : nat) :
  List.length (List.filter negb (List.map (fun i => (5 <? i)%nat) (seq i n)))
  = Nat.min n (6 - i).
Proof.
  revert i. induction n as [|n IH]; intros i; cbn [seq List.map List.filter].
  - reflexivity.
  - destruct (5 <? i)%nat eqn:E; cbn [negb List.length]; rewrite IH.
    + apply Nat.ltb_lt in E. lia.
    + apply Nat.ltb_ge in E. lia.
Qed.

Lemma for_each_map {A B C : Type} (body : A -> Rand B) (f : B -> C) (g : A -> C) :
  (forall x p, f (fst (body x p)) = g x) ->
  forall xs p, List.map f (fst (for_each body xs p)) = List.map g xs.
Proof.
  intros Hbody. induction xs as [|x xs IH]; intros p; cbn [for_each].
  - reflexivity.
  - rewrite !bind_run. cbn [fst ret List.map]. rewrite Hbody, IH. reflexivity.
Qed.

Lemma for_each_Forall {A B : Type} (P : B -> Prop) (body : A -> Rand B) :
  (forall x p, P (fst (body x p))) ->
  forall xs p, List.Forall P (fst (for_each body xs p)).
Proof.
  intros Hbody. induction xs as [|x xs IH]; intros p; cbn [for_each].
  - constructor.
  - rewrite !bind_run. cbn [fst ret]. constructor; [apply Hbody | apply IH].
Qed.

Section FeedRecords.
Context `{Host}.

Lemma hours_ago (z : Z) (lo hi : Z) :
  (lo <= z <= hi)%Z -> (inject_Z lo <= inject_Z z /\ inject_Z z <= inject_Z hi)%Q.
Proof. intros [Hlo Hhi]. split; rewrite <- Zle_Qle; assumption. Qed.

Lemma generateAlerts_body_sound (i p : nat) :
  alert_sound NOW (fst (generateAlerts_body (num:=Q) i p)).
Proof.
  set (P := alert_sound NOW). unfold generateAlerts_body.
  apply (bind_result_of (fun m => In m alert_msgs) P).
  { intros q. apply pick_in. discriminate. }
  intros [level message] q Hm.
  apply (bind_result_of
           (fun id => uuid_shape "xxxxxxxx-xxxx-4xxx-yxxx-xxxxxxxxxxxx" id = true) P).
  { intros q0. apply uuid_facts. }
  intros id q0 Hid.
  apply (bind_result_of (fun h => exists z, h = inject_Z z /\ (0 <= z <= 24)%Z) P).
  { intros q1. apply (randInt_range 0 24). lia. }
  intros h q1 (zh & -> & Hzh).
  apply (bind_result_of (fun m => exists z, m = inject_Z z /\ (0 <= z <= 59)%Z) P).
  { intros q2. apply (randInt_range 0 59). lia. }
  intros mins q2 (zm & -> & Hzm).
  apply (bind_result_of
           (fun s => In s ["crypto-bot"; "hip3-bot"; "monitor"; "system"]) P).
  { intros q3. apply pick_in. discriminate. }
  intros source q3 Hsource.
  cbn [fst ret]. unfold P, alert_sound.
  cbn [Alert.level Alert.message Alert.source Alert.id Alert.timestamp fst snd].
  split; [exact Hm|]. split; [exact Hsource|]. split; [exact Hid|].
  apply (hours_ago zh 0 24) in Hzh. apply (hours_ago zm 0 59) in Hzm.
  unfold isoAgo, HOUR_MS, lit. cbn [of_Z add sub mul Exact].
  change (inject_Z 3600000) with 3600000%Q. change (inject_Z 60000) with 60000%Q.
  change (inject_Z 0) with 0%Q in *. change (inject_Z 24) with 24%Q in *.
  change (inject_Z 59) with 59%Q in *.
  set (a := inject_Z zh) in *. set (b := inject_Z zm) in *.
  set (now := inject_Z NOW). split; lra.
Qed.

(** X17: the alerts of [generateAlerts] come newest first; each has a
    level and message of the catalog, a source of the four, an id of the
    shape of [uuid] and a time within the 24 hours and 59 minutes before
    [NOW]; the unacknowledged ones are the first six generated, so there
    are [min(count, 6)] of them. *)
Theorem generateAlerts_feed (count : IntOrNaN) (p : nat) :
  descending Alert.timestamp (fst (generateAlerts (num:=Q) count p)) /\
  List.Forall (alert_sound NOW) (fst (generateAlerts (num:=Q) count p)) /\
  unacknowledged (fst (generateAlerts (num:=Q) count p))
  = Nat.min (iterations count) 6.
Proof.
  unfold generateAlerts. rewrite bind_run. cbn [fst ret].
  split; [apply (sort_descending Alert.timestamp)|]. split.
  - eapply Permutation_Forall; [symmetry; apply sort_perm|].
    apply for_push_Forall. intros i q. apply generateAlerts_body_sound.
  - unfold unacknowledged.
    rewrite (filter_length_perm _ _ _ (sort_perm _ _)).
    rewrite (filter_map_length Alert.acknowledged negb).
    rewrite (for_push_map _ Alert.acknowledged (fun i => (5 <? i)%nat)).
    + rewrite unacknowledged_from. lia.
    + intros i q. unfold generateAlerts_body.
      repeat (apply bind_result; intros ? ?). reflexivity.
Qed.

Lemma generateErrors_body_sound (i p : nat) :
  error_sound NOW (fst (generateErrors_body (num:=Q) i p)).
Proof.
  set (P := error_sound NOW). unfold generateErrors_body.
  apply (bind_result_of (fun m => In m error_msgs) P).
  { intros q. apply pick_in. discriminate. }
  intros [message resolved] q Hm.
  apply (bind_result_of
           (fun id => uuid_shape "xxxxxxxx-xxxx-4xxx-yxxx-xxxxxxxxxxxx" id = true) P).
  { intros q0. apply uuid_facts. }
  intros id q0 Hid.
  apply (bind_result_of (fun h => exists z, h = inject_Z z /\ (2 <= z <= 72)%Z) P).
  { intros q1. apply (randInt_range 2 72). lia. }
  intros h q1 (zh & -> & Hzh).
  apply (bind_result_of (fun s => In s ["crypto-bot"; "hip3-bot"; "system"]) P).
  { intros q3. apply pick_in. discriminate. }
  intros source q3 Hsource.
  cbn [fst ret]. unfold P, error_sound.
  cbn [ErrorEntry.message ErrorEntry.resolved ErrorEntry.source ErrorEntry.id
       ErrorEntry.timestamp fst snd].
  split; [exact Hm|]. split.
  { cbn [In error_msgs] in Hm.
    repeat (destruct Hm as [Hm|Hm]; [injection Hm as _ <-; reflexivity|]).
    contradiction. }
  split; [exact Hsource|]. split; [exact Hid|].
  apply (hours_ago zh 2 72) in Hzh.
  unfold isoAgo, HOUR_MS, lit. cbn [of_Z add sub mul Exact].
  change (inject_Z 3600000) with 3600000%Q.
  change (inject_Z 2) with 2%Q in *. change (inject_Z 72) with 72%Q in *.
  set (a := inject_Z zh) in *. set (now := inject_Z NOW). split; lra.
Qed.

(** X18: the errors of [generateErrors] come newest first; each is
    resolved, has a message of the catalog, a source of the three, an id
    of the shape of [uuid] and a time from 2 to 72 hours before [NOW]. *)
Theorem generateErrors_feed (count : IntOrNaN) (p : nat) :
  descending ErrorEntry.timestamp (fst (generateErrors (num:=Q) count p)) /\
  List.Forall (error_sound NOW) (fst (generateErrors (num:=Q) count p)).
Proof.
  unfold generateErrors. rewrite bind_run. cbn [fst ret].
  split; [apply (sort_descending ErrorEntry.timestamp)|].
  eapply Permutation_Forall; [symmetry; apply sort_perm|].
  apply for_push_Forall. intros i q. apply generateErrors_body_sound.
Qed.

(** X19: [generateCoinScanner] returns the coins of its catalog, one entry
    each and in the order of the catalog, whatever is drawn; the signal of
    an entry is one of the four, its momentum an integer from 20 to 95 and
    its price from 0.5 to 500. *)
Theorem generateCoinScanner_catalog (p : nat) :
  List.map coin_labels (fst (generateCoinScanner (num:=Q) p))
  = List.map (fun c => (Some (JStr (fst (fst c))), Some (JStr (snd (fst c))),
                        Some (JStr (snd c)))) coins /\
  List.Forall coin_sound (fst (generateCoinScanner (num:=Q) p)).
Proof.
  unfold generateCoinScanner. split.
  - apply for_each_map. intros c q.
    repeat (apply bind_result; intros ? ?). reflexivity.
  - apply for_each_Forall. intros c q.
    apply (bind_result_of (fun x => (1 # 2 <= round4 x /\ round4 x <= 500)%Q)).
    { intros q0.
      destruct (rand_range (dec 5 1) (lit 500) q0) as [Hlo Hhi]; [reflexivity|].
      split.
      - apply (round4_ge_grid (1 # 2)); [reflexivity|].
        apply Qle_trans with (dec 5 1); [discriminate | exact Hlo].
      - apply (round4_le_grid 500); [reflexivity|].
        apply Qlt_le_weak, Hhi. }
    intros price q0 Hprice.
    do 4 (apply bind_result; intros ? ?).
    apply (bind_result_of (fun m => exists z, m = inject_Z z /\ (20 <= z <= 95)%Z)).
    { intros q5. apply (randInt_range 20 95). lia. }
    intros momentum q5 (z & -> & Hz).
    apply (bind_result_of
             (fun s => In s ["strong_buy"; "buy"; "neutral"; "sell"])).
    { intros q6. apply pick_in. discriminate. }
    intros signal q6 Hsignal.
    do 2 (apply bind_result; intros ? ?).
    cbn [fst ret]. unfold coin_sound.
    split; [exists signal; split; [reflexivity | exact Hsignal]|].
    split; [exists z; split; [reflexivity | exact Hz]|].
    eexists. split; [reflexivity | exact Hprice].
Qed.

End FeedRecords.

(** ** What the interceptor answers and what it lets through *)

Lemma startsWith_app (pre s rest : string) :
  startsWith pre s = true -> startsWith pre (s ++ rest) = true.
Proof.
  revert s. induction pre as [|a pre IH]; intros s Hs; [reflexivity|].
  destruct s as [|b s]; [discriminate|].
  change (String b s ++ rest)%string with (String b (s ++ rest)).
  cbn [startsWith] in *. apply andb_prop in Hs as [Hab Hs].
  rewrite Hab, (IH _ Hs). reflexivity.
Qed.

(** A path that does not start with [pre] is none of the paths that do,
    and starts with none of their extensions. *)
Lemma eqb_outside (pre lit path : string) :
  startsWith pre lit = true -> startsWith pre path = false ->
  String.eqb path lit = false.
Proof.
  intros Hlit Hpath. destruct (String.eqb path lit) eqn:E; [|reflexivity].
  apply String.eqb_eq in E. congruence.
Qed.

Lemma startsWith_outside (pre pre' path : string) :
  startsWith pre pre' = true -> startsWith pre path = false ->
  startsWith pre' path = false.
Proof.
  intros Hpre Hpath. destruct (startsWith pre' path) eqn:E; [|reflexivity].
  destruct (startsWith_append _ _ E) as [rest ->].
  rewrite (startsWith_app _ _ rest Hpre) in Hpath. discriminate.
Qed.

Section Interceptor.
Context {num : Type} `{Number num} `{Host}.

(** X20: a request whose address is not on the pass-through list and whose
    path starts with [/api/] or is [/status] never reaches the network:
    whatever its method and whether a route matches or not, the answer is
    synthesized, with status 200 and the JSON content type. *)
Theorem fetch_api_answered (G : Globals.t num) (url : string)
    (options : option string) (cache : Cache num) (p : nat) :
  is_public_api url = false ->
  is_asset_host url = false ->
  startsWith "/api/" (pathname_of url) || String.eqb (pathname_of url) "/status"
  = true ->
  exists hs b,
    Fetched.outcome (fst (fst (fetch G url options cache p))) = answered hs b /\
    prop hs "Content-Type" = Some "application/json".
Proof.
  intros Hapi Hasset Hpath. unfold fetch, fetch_with. rewrite Hapi, Hasset, Hpath.
  destruct (is_mutating (method_of options)).
  - destruct (String.eqb (pathname_of url) "/api/dashboard/settings");
      cbn [fst ret Fetched.outcome]; eexists; eexists; split; reflexivity.
  - destruct (first_match (MOCK_ROUTES G) (pathname_of url) url) as [route|].
    + rewrite !bind_run. cbn [fst ret Fetched.outcome].
      eexists; eexists; split; reflexivity.
    + cbn [fst ret Fetched.outcome]. eexists; eexists; split; reflexivity.
Qed.

Lemma no_route_outside (G : Globals.t num) (path url : string) :
  startsWith "/api/" path = false ->
  String.eqb path "/status" = false ->
  includes "/drift" path = false ->
  includes "/kill-switch" path = false ->
  includes "/kill_switch" path = false ->
  first_match (MOCK_ROUTES G) path url = None.
Proof.
  intros Hapi Hstatus Hdrift Hkill Hkill'.
  unfold MOCK_ROUTES. cbn [first_match Route.matches].
  rewrite Hstatus, Hdrift, Hkill, Hkill'.
  repeat match goal with
         | |- context [String.eqb path ?lit] =>
             rewrite (eqb_outside "/api/" lit path eq_refl Hapi)
         | |- context [startsWith ?pre path] =>
             rewrite (startsWith_outside "/api/" pre path eq_refl Hapi)
         end.
  reflexivity.
Qed.

(** X21: a request that is not a POST, PUT or DELETE passes through to
    the network, with nothing drawn and the cache as it was, when its path
    does not start with [/api/], is not [/status] and holds none of
    [/drift], [/kill-switch] and [/kill_switch]: no route of the table
    matches such a path. *)
Theorem fetch_passes_other_paths (G : Globals.t num) (url : string)
    (options : option string) (cache : Cache num) (p : nat) :
  is_mutating (method_of options) = false ->
  startsWith "/api/" (pathname_of url) = false ->
  String.eqb (pathname_of url) "/status" = false ->
  includes "/drift" (pathname_of url) = false ->
  includes "/kill-switch" (pathname_of url) = false ->
  includes "/kill_switch" (pathname_of url) = false ->
  fetch G url options cache p = (Fetched.mk Passthrough None None None, cache, p).
Proof.
  intros Hmut Hapi Hstatus Hdrift Hkill Hkill'.
  unfold fetch, fetch_with.
  rewrite Hmut, (no_route_outside G _ url Hapi Hstatus Hdrift Hkill Hkill').
  rewrite Hapi, Hstatus.
  destruct (is_public_api url); [reflexivity|].
  destruct (is_asset_host url); reflexivity.
Qed.

Lemma fetch_candles (G : Globals.t num) (url : string)
    (options : option string) (cache : Cache num) (p : nat) :
  is_public_api url = false ->
  is_asset_host url = false ->
  is_mutating (method_of options) = false ->
  startsWith "/api/candles/" (pathname_of url) = true ->
  Fetched.outcome (fst (fst (fetch G url options cache p)))
  = answered demo_headers (fst (fst (candles_handler url options cache p))) /\
  snd (fst (fetch G url options cache p))
  = snd (fst (candles_handler url options cache p)).
Proof.
  intros Hapi Hasset Hmut Hpath.
  apply (fetch_matched G (Route.mk (fun p _ => startsWith "/api/candles/" p)
                            candles_handler)
           url options cache p Hapi Hasset Hmut).
  apply (first_match_at _ 5); [reflexivity | | exact Hpath].
  destruct (startsWith_append _ _ Hpath) as [rest ->]. reflexivity.
Qed.

(** X22: two requests for the candles of the same address, neither a POST,
    PUT or DELETE, are answered with the same bars, whatever is drawn in
    between: the second is served from the cache the first has filled,
    and leaves it as it is. *)
Theorem fetch_candles_repeat (G : Globals.t num) (url : string)
    (options options' : option string) (cache : Cache num) (p p' : nat) :
  is_public_api url = false ->
  is_asset_host url = false ->
  is_mutating (method_of options) = false ->
  is_mutating (method_of options') = false ->
  startsWith "/api/candles/" (pathname_of url) = true ->
  let first := fst (fetch G url options cache p) in
  let second := fst (fetch G url options' (snd first) p') in
  Fetched.outcome (fst second) = Fetched.outcome (fst first) /\
  snd second = snd first.
Proof.
  intros Hapi Hasset Hmut Hmut' Hpath first second. unfold second, first.
  destruct (fetch_candles G url options cache p Hapi Hasset Hmut Hpath)
    as [Hout Hcache].
  rewrite Hcache.
  destruct (fetch_candles G url options'
              (snd (fst (candles_handler url options cache p))) p'
              Hapi Hasset Hmut' Hpath) as [Hout' Hcache'].
  rewrite Hout, Hout', Hcache'. clear Hout Hout' Hcache Hcache'.
  unfold candles_handler. rewrite !bind_run. cbn [fst snd ret].
  set (symbol := toUpperCase _).
  pose proof (getCandlesForSymbol_cached symbol cache p) as Hcached.
  rewrite (getCandlesForSymbol_hit symbol _ _ _ Hcached). cbn [fst snd].
  split; reflexivity.
Qed.

(** X23: a request for the alerts of the monitor that is not a POST, PUT
    or DELETE reaches the alerts handler through the interceptor, no route
    before it taking the path, and is answered with [min(limit, 20)]
    alerts when the limit asked for is an integer. *)
Theorem fetch_alerts_capped (G : Globals.t num) (url : string)
    (options : option string) (cache : Cache num) (p : nat) (limit : Z) :
  is_public_api url = false ->
  is_asset_host url = false ->
  is_mutating (method_of options) = false ->
  startsWith "/api/monitor/alerts" (pathname_of url) = true ->
  requested_limit url "20" = Some limit ->
  exists alerts,
    Fetched.outcome (fst (fst (fetch G url options cache p)))
    = answered demo_headers (BAlerts alerts) /\
    List.length alerts = Z.to_nat (Z.min limit 20).
Proof.
  intros Hapi Hasset Hmut Hpath Hlimit.
  rewrite (fetch_monitor_alerts G url options cache p Hapi Hasset Hmut Hpath).
  eexists. split; [reflexivity|].
  rewrite generateAlerts_length, Hlimit. reflexivity.
Qed.

End Interceptor.

Lemma fetch_api_answered_witness :
  let host := host_of mixed_bits in
  exists hs b,
    Fetched.outcome
      (fst (fst (fetch (blank_globals Q) "/api/unknown" (Some "PATCH") ∅ 0%nat)))
    = answered hs b /\
    prop hs "Content-Type" = Some "application/json".
Proof.
  intros host.
  apply (fetch_api_answered (blank_globals Q) "/api/unknown" (Some "PATCH") ∅ 0);
    reflexivity.
Defined.

Lemma fetch_passes_other_paths_witness :
  let host := host_of mixed_bits in
  fetch (blank_globals Q) "/assets/app.css" None ∅ 0%nat
  = (Fetched.mk Passthrough None None None, ∅, 0%nat).
Proof.
  intros host.
  apply (fetch_passes_other_paths (blank_globals Q) "/assets/app.css" None ∅ 0);
    reflexivity.
Defined.

Lemma fetch_candles_repeat_witness :
  let host := host_of mixed_bits in
  let first := fst (fetch (blank_globals Q) "/api/candles/btc" None ∅ 0%nat) in
  let second := fst (fetch (blank_globals Q) "/api/candles/btc" (Some "GET")
                       (snd first) 9%nat) in
  Fetched.outcome (fst second) = Fetched.outcome (fst first) /\
  snd second = snd first.
Proof.
  intros host.
  apply (fetch_candles_repeat (blank_globals Q) "/api/candles/btc" None (Some "GET")
           ∅ 0 9); reflexivity.
Defined.

Lemma fetch_alerts_capped_witness :
  let host := host_of mixed_bits in
  exists alerts,
    Fetched.outcome
      (fst (fst (fetch (blank_globals Q) "/api/monitor/alerts?limit=50" None ∅ 0%nat)))
    = answered demo_headers (BAlerts alerts) /\
    List.length alerts = Z.to_nat (Z.min 50 20).
Proof.
  intros host.
  apply (fetch_alerts_capped (blank_globals Q) "/api/monitor/alerts?limit=50" None
           ∅ 0 50); reflexivity.
Defined.

(** ** The socket's messages *)

Section SocketMessages.
Context {num : Type} `{Number num} `{Host}.
Variable G : Globals.t num.

Import MockWebSocket.
Local Open Scope list_scope.

Lemma starts_quietly_app (events : list (WsEvent num)) (e : WsEvent num) :
  starts_quietly events = true ->
  events <> [] \/ is_message e = false ->
  starts_quietly (events ++ [e]) = true /\ events ++ [e] <> [].
Proof.
  intros Hq Hor. split; [|destruct events; discriminate].
  destruct events as [|e0 events]; [|exact Hq].
  destruct Hor as [Hne|He]; [contradiction|]. cbn. rewrite He. reflexivity.
Qed.

Section AnyClient.
Variable client : WsEvent num -> bool.

Lemma close_opens_first code reason (ws : MockWebSocket.t num) :
  opens_first ws -> opens_first (close code reason ws).
Proof.
  intros [Hq _]. unfold opens_first, close, deliver. cbn [delivered readyState].
  destruct (starts_quietly_app (delivered ws) (EvClose
              match code with Some c => if (c =? 0)%Z then 1000 else c | None => 1000 end
              match reason with
              | Some r => if String.eqb r "" then "Demo closed" else r
              | None => "Demo closed"
              end) Hq (or_intror eq_refl)) as [Hq' Hne].
  split; [exact Hq' | intros E; contradiction].
Qed.

Lemma dispatch_opens_first (e : WsEvent num) (ws : MockWebSocket.t num) :
  starts_quietly (delivered ws) = true ->
  delivered ws <> [] \/ is_message e = false ->
  opens_first (dispatch client e ws).
Proof.
  intros Hq Hor. unfold dispatch.
  assert (Hd : opens_first (deliver e ws)).
  { unfold opens_first, deliver. cbn [delivered readyState].
    destruct (starts_quietly_app _ e Hq Hor) as [Hq' Hne].
    split; [exact Hq' | intros E; contradiction]. }
  destruct (client e); [apply close_opens_first, Hd | exact Hd].
Qed.

Lemma _sendMock_opens_first (data : WsMessage num) (ws : MockWebSocket.t num) :
  opens_first ws -> opens_first (_sendMock client data ws).
Proof.
  intros Ho. unfold _sendMock.
  destruct (Z.eqb_spec (readyState ws) 1) as [Hready|Hready]; cbn [negb];
    [|exact Ho].
  destruct Ho as [Hq Hne]. apply dispatch_opens_first; [exact Hq|].
  left. intros E. exact (Hne E Hready).
Qed.

Lemma on_interval_opens_first clock (ws : MockWebSocket.t num) p :
  opens_first ws -> opens_first (fst (on_interval G client clock ws p)).
Proof.
  intros Ho. unfold on_interval.
  destruct (negb (readyState ws =? 1)); [exact Ho|].
  match goal with
  | |- context [_sendMock client ?d ?w] =>
      assert (Hlog : opens_first (_sendMock client d w))
        by (apply _sendMock_opens_first; exact Ho);
      generalize dependent (_sendMock client d w)
  end.
  intros ws2 Hws2.
  apply bind_result. intros r1 q1.
  apply (bind_result_of opens_first).
  - intros q. destruct (ltb r1 (dec 125 3)); [|exact Hws2].
    do 3 (apply bind_result; intros ? ?). apply _sendMock_opens_first, Hws2.
  - intros ws3 q3 Hws3. apply bind_result. intros r2 q4.
    destruct (ltb r2 (dec 83 3)); [|exact Hws3].
    do 2 (apply bind_result; intros ? ?). apply _sendMock_opens_first, Hws3.
Qed.

Lemma run_task_opens_first (t : Task num) (ws : MockWebSocket.t num) p :
  opens_first ws -> opens_first (fst (run_task G client t ws p)).
Proof.
  intros Ho. destruct t as [clock|clock|code reason|data]; cbn [run_task].
  - destruct (open_timer ws); [|exact Ho].
    unfold on_open_timer, _startPeriodicMessages. rewrite bind_run.
    cbn [fst ret]. 
    match goal with
    | |- opens_first ?w =>
        change (opens_first (_sendMock client
                  (LOG clock "INFO" "WebSocket connected — live feed active")
                  (dispatch client EvOpen
                     {| url := url ws; readyState := 1; _interval := _interval ws;
                        open_timer := false; interval_timer := interval_timer ws;
                        msgIndex := msgIndex ws; delivered := delivered ws |})))
    end.
    apply _sendMock_opens_first, dispatch_opens_first;
      [exact (proj1 Ho) | right; reflexivity].
  - destruct (interval_timer ws); [apply on_interval_opens_first, Ho | exact Ho].
  - apply close_opens_first, Ho.
  - exact Ho.
Qed.

(** X24: whatever the event loop runs on a new socket and whenever the
    client closes it, the first event the client receives is not a
    message: a message is only sent once the socket is open, and it opens
    by delivering the open event. *)
Theorem socket_opens_first url (ts : list (Task num)) p :
  starts_quietly
    (delivered (fst (run_tasks G client ts (new_MockWebSocket url) p))) = true.
Proof.
  assert (Hall : forall ts ws p, opens_first ws ->
             opens_first (fst (run_tasks G client ts ws p))).
  { clear ts p. induction ts as [|t ts IH]; intros ws p Ho; cbn [run_tasks].
    - exact Ho.
    - rewrite bind_run. apply IH, run_task_opens_first, Ho. }
  apply Hall. split; [reflexivity | discriminate].
Qed.

Lemma run_tasks_app (ts ts' : list (Task num)) (ws : MockWebSocket.t num) p :
  run_tasks G client (ts ++ ts') ws p
  = run_tasks G client ts' (fst (run_tasks G client ts ws p))
      (snd (run_tasks G client ts ws p)).
Proof.
  revert ws p. induction ts as [|t ts IH]; intros ws p; cbn [run_tasks app].
  - reflexivity.
  - rewrite !bind_run. apply IH.
Qed.

(** On a socket that is closed for good a task delivers nothing, but for a
    further [close()], which delivers its close event. *)
Lemma run_task_closed (t : Task num) (ws : MockWebSocket.t num) p :
  closed_for_good ws ->
  closed_for_good (fst (run_task G client t ws p)) /\
  exists later,
    delivered (fst (run_task G client t ws p)) = delivered ws ++ later /\
    forallb is_close later = true.
Proof.
  intros [Hready Htimer].
  destruct t as [clock|clock|code reason|data]; cbn [run_task].
  - rewrite Htimer. cbn [fst ret]. split; [split; assumption|].
    exists []. rewrite app_nil_r. split; reflexivity.
  - assert (Hquiet : on_interval G client clock ws p = (ws, p))
      by (unfold on_interval; rewrite Hready; reflexivity).
    destruct (interval_timer ws); [rewrite Hquiet|]; cbn [fst ret];
      (split; [split; assumption|]);
      exists []; rewrite app_nil_r; split; reflexivity.
  - cbn [fst ret]. unfold close, deliver.
    cbn [readyState open_timer delivered].
    split; [split; [reflexivity | exact Htimer]|].
    eexists. split; reflexivity.
  - cbn [fst ret]. split; [split; assumption|].
    exists []. rewrite app_nil_r. split; reflexivity.
Qed.

Lemma run_tasks_closed (ts : list (Task num)) :
  forall (ws : MockWebSocket.t num) p,
    closed_for_good ws ->
    closed_for_good (fst (run_tasks G client ts ws p)) /\
    exists later,
      delivered (fst (run_tasks G client ts ws p)) = delivered ws ++ later /\
      forallb is_close later = true.
Proof.
  induction ts as [|t ts IH]; intros ws p Hclosed; cbn [run_tasks].
  - cbn [fst ret]. split; [exact Hclosed|].
    exists []. rewrite app_nil_r. split; reflexivity.
  - rewrite bind_run.
    destruct (run_task_closed t ws p Hclosed) as (Hstep & later1 & Hd1 & Hc1).
    destruct (IH _ (snd (run_task G client t ws p)) Hstep)
      as (Hrest & later2 & Hd2 & Hc2).
    split; [exact Hrest|].
    exists (later1 ++ later2). rewrite Hd2, Hd1, <- app_assoc.
    split; [reflexivity|]. rewrite forallb_app, Hc1, Hc2. reflexivity.
Qed.

(** X25: once the open timer of a new socket has fired, a [close()] the
    page calls between two tasks is final.  Whatever the event loop runs
    after it (timers, [send], further calls of [close()]) and whatever the
    handlers of the client do, the socket stays in state 3, and the only
    events dispatched after that call are the close events of the further
    calls of [close()]: no message and no open event. *)
Theorem socket_close_is_final url clock (before after : list (Task num))
    code reason p :
  let at_close :=
    fst (run_tasks G client (OpenTimer clock :: before ++ [CallClose code reason])
           (new_MockWebSocket url) p) in
  let final :=
    fst (run_tasks G client
           (OpenTimer clock :: before ++ CallClose code reason :: after)
           (new_MockWebSocket url) p) in
  readyState final = 3 /\
  exists later,
    delivered final = delivered at_close ++ later /\
    forallb is_close later = true.
Proof.
  intros at_close final.
  assert (Hclosed : closed_for_good at_close).
  { unfold at_close.
    change (OpenTimer clock :: before ++ [CallClose code reason])
      with ((OpenTimer clock :: before) ++ [CallClose code reason]).
    rewrite run_tasks_app. cbn [run_tasks]. rewrite bind_run.
    cbn [run_task fst ret].
    assert (Hs : settled (fst (run_tasks G client (OpenTimer clock :: before)
                                 (new_MockWebSocket url) p))).
    { cbn [run_tasks]. rewrite bind_run. apply run_tasks_settled.
      cbn [run_task new_MockWebSocket open_timer]. unfold on_open_timer.
      apply _startPeriodicMessages_settled, _sendMock_settled.
      apply dispatch_settled; reflexivity. }
    destruct Hs as [Htimer _]. unfold closed_for_good, close, deliver.
    cbn [readyState open_timer]. split; [reflexivity | exact Htimer]. }
  assert (Hfinal : final
                   = fst (run_tasks G client after at_close
                            (snd (run_tasks G client
                                    (OpenTimer clock :: before ++ [CallClose code reason])
                                    (new_MockWebSocket url) p)))).
  { unfold final, at_close.
    replace (OpenTimer clock :: before ++ CallClose code reason :: after)
      with ((OpenTimer clock :: before ++ [CallClose code reason]) ++ after)
      by (cbn [app]; rewrite <- app_assoc; reflexivity).
    rewrite run_tasks_app. reflexivity. }
  rewrite Hfinal.
  destruct (run_tasks_closed after at_close
              (snd (run_tasks G client
                      (OpenTimer clock :: before ++ [CallClose code reason])
                      (new_MockWebSocket url) p)) Hclosed)
    as ((Hready & _) & later & Hd & Hc).
  split; [exact Hready|]. exists later. split; assumption.
Qed.

End AnyClient.

Lemma log_lines_app (events : list (WsEvent num)) (e : WsEvent num) :
  log_lines (events ++ [e]) = log_lines events ++ log_lines [e].
Proof. unfold log_lines. apply flat_map_app. Qed.

Lemma _sendMock_ticking lines k (data : WsMessage num) (ws : MockWebSocket.t num) :
  ticking lines k ws ->
  ticking (lines ++ log_lines [EvMessage data]) k (_sendMock quiet data ws).
Proof.
  intros (Hready & Htimer & Hk & Hlines). unfold _sendMock.
  rewrite Hready. cbn [Z.eqb Pos.eqb negb]. unfold dispatch, quiet, deliver, ticking.
  cbn [readyState interval_timer msgIndex delivered].
  rewrite log_lines_app, Hlines. repeat split; assumption.
Qed.

Lemma on_interval_ticking lines k clock (ws : MockWebSocket.t num) p :
  ticking lines k ws ->
  ticking (lines ++ [nth (k mod 24) LOG_MESSAGES (undefined, undefined)]) (S k)
    (fst (on_interval G quiet clock ws p)).
Proof.
  intros Ht. pose proof Ht as (Hready & Htimer & Hk & Hlines).
  unfold on_interval. rewrite Hready. cbn [Z.eqb Pos.eqb negb].
  set (line := nth (msgIndex ws mod List.length LOG_MESSAGES) LOG_MESSAGES
                 (undefined, undefined)).
  assert (Hline : line = nth (k mod 24) LOG_MESSAGES (undefined, undefined))
    by (unfold line; rewrite Hk; reflexivity).
  set (T := ticking (lines ++ [nth (k mod 24) LOG_MESSAGES (undefined, undefined)])
              (S k)).
  match goal with
  | |- context [_sendMock quiet ?d ?w] =>
      assert (Hlog : T (_sendMock quiet d w));
        [| generalize dependent (_sendMock quiet d w)]
  end.
  { unfold T. rewrite <- Hline.
    replace [line] with (log_lines [EvMessage (num:=num)
                                      (LOG clock (fst line) (snd line))])
      by (clearbody line; destruct line; reflexivity).
    apply _sendMock_ticking. unfold ticking.
    cbn [readyState interval_timer msgIndex delivered].
    repeat split; try assumption. rewrite Hk. reflexivity. }
  intros ws2 Hws2.
  assert (Hmore : forall data ws', log_lines [EvMessage (num:=num) data] = [] ->
            T ws' -> T (_sendMock quiet data ws')).
  { intros data ws' Hnone Hws'. unfold T in *.
    apply (_sendMock_ticking _ _ data) in Hws'.
    rewrite Hnone, app_nil_r in Hws'. exact Hws'. }
  apply (bind_result T). intros r1 q1.
  apply (bind_result_of T T).
  - intros q. destruct (ltb r1 (dec 125 3)); [|exact Hws2].
    do 3 (apply (bind_result T); intros ? ?). apply Hmore; [reflexivity | exact Hws2].
  - intros ws3 q3 Hws3. apply (bind_result T). intros r2 q4.
    destruct (ltb r2 (dec 83 3)); [|exact Hws3].
    do 2 (apply (bind_result T); intros ? ?). apply Hmore; [reflexivity | exact Hws3].
Qed.

Lemma run_ticks (clocks : list num) :
  forall lines k ws p, ticking lines k ws ->
    ticking
      (lines ++ List.map (fun j => nth (j mod 24) LOG_MESSAGES (undefined, undefined))
                  (seq k (List.length clocks)))
      (k + List.length clocks)
      (fst (run_tasks G quiet (List.map IntervalTimer clocks) ws p)).
Proof.
  induction clocks as [|clock clocks IH]; intros lines k ws p Ht;
    cbn [List.map run_tasks List.length seq].
  - rewrite app_nil_r, Nat.add_0_r. exact Ht.
  - rewrite bind_run. cbn [run_task].
    destruct (interval_timer ws) as [period|] eqn:E;
      [|destruct Ht as (_ & Hne & _); contradiction].
    pose proof (on_interval_ticking lines k clock ws p Ht) as Hstep.
    apply (IH _ _ _ (snd (on_interval G quiet clock ws p))) in Hstep.
    rewrite <- app_assoc in Hstep. cbn [app] in Hstep.
    replace (k + S (List.length clocks))%nat with (S k + List.length clocks)%nat
      by lia.
    exact Hstep.
Qed.

(** X26: on a socket whose client does not close it, the log messages
    delivered are the connection message of the open timer, then one
    message of the catalog at each tick of the interval timer, taken in
    the order of the catalog and starting over after its 24 entries. *)
Theorem socket_log_cycle url clock (clocks : list num) p :
  log_lines
    (delivered (fst (run_tasks G quiet (OpenTimer clock :: List.map IntervalTimer clocks)
                       (new_MockWebSocket url) p)))
  = ("INFO", "WebSocket connected — live feed active")
    :: List.map (fun j => nth (j mod 24) LOG_MESSAGES (undefined, undefined))
         (seq 0 (List.length clocks)).
Proof.
  cbn [run_tasks]. rewrite bind_run.
  cbn [run_task new_MockWebSocket open_timer].
  match goal with
  | |- context [run_tasks G quiet _ (fst ?m) ?q] =>
      assert (Hopen : ticking
                [("INFO", "WebSocket connected — live feed active")] 0 (fst m));
        [| apply (run_ticks clocks _ _ _ q) in Hopen;
           destruct Hopen as (_ & _ & _ & Hlines); exact Hlines]
  end.
  unfold on_open_timer, _startPeriodicMessages. rewrite bind_run.
  unfold ticking. cbn. repeat split. discriminate.
Qed.

End SocketMessages.

(** ** The stats route *)

Lemma prop_set_prop_same {A : Type} (key : string) (v : A) (obj : list (string * A)) :
  prop (set_prop key v obj) key = Some v.
Proof.
  induction obj as [|[k x] obj IH]; cbn [set_prop prop].
  - rewrite String.eqb_refl. reflexivity.
  - destruct (String.eqb k key) eqn:E; cbn [prop]; rewrite E; [reflexivity | exact IH].
Qed.

Lemma prop_set_prop_other {A : Type} (key key' : string) (v : A)
    (obj : list (string * A)) :
  key' <> key -> prop (set_prop key v obj) key' = prop obj key'.
Proof.
  intros Hne. induction obj as [|[k x] obj IH]; cbn [set_prop prop].
  - destruct (String.eqb key key') eqn:E; [|reflexivity].
    apply String.eqb_eq in E. congruence.
  - destruct (String.eqb k key) eqn:E; cbn [prop].
    + apply String.eqb_eq in E. subst k.
      destruct (String.eqb key key') eqn:E'; [|reflexivity].
      apply String.eqb_eq in E'. congruence.
    + rewrite IH. reflexivity.
Qed.

Section StatsRoute.
Context `{Host}.

(** X27: the stats route, asked with an address that holds [accurate],
    serves a copy of the stats table whose balance is within 5.005 of the
    table's and whose profit of the day is within 2.005 of the table's;
    every other field is the table's.  The jitter is applied to the copy:
    the table a later request reads is the same. *)
Theorem stats_jitter_bounded (G : Globals.t Q) (url : string)
    (options : option string) (cache : Cache Q) (p : nat)
    (fields : list (string * json Q)) (balance pnl_today : Q) :
  is_public_api url = false ->
  is_asset_host url = false ->
  is_mutating (method_of options) = false ->
  pathname_of url = "/api/stats" \/ pathname_of url = "/api/stats/accurate" ->
  includes "accurate" url = true ->
  Globals.table G (if isHip3 url then HIP3_STATS else CRYPTO_STATS) = JObj fields ->
  prop fields "balance" = Some (JNum balance) ->
  prop fields "pnl_today" = Some (JNum pnl_today) ->
  exists (served : list (string * json Q)) (b q : Q),
    Fetched.outcome (fst (fst (fetch G url options cache p)))
    = answered demo_headers (BJson (JObj served)) /\
    prop served "balance" = Some (JNum b) /\
    (Qabs (b - balance) <= 5 + (1 # 200))%Q /\
    prop served "pnl_today" = Some (JNum q) /\
    (Qabs (q - pnl_today) <= 2 + (1 # 200))%Q /\
    (forall key, key <> "balance" -> key <> "pnl_today" ->
                 prop served key = prop fields key).
Proof.
  intros Hapi Hasset Hmut Hpath Hacc Htable Hbal Hpnl.
  pose (route := List.nth 1 (MOCK_ROUTES G) (Route.mk (fun _ _ => false)
                                               (fun _ _ c => ret (BJson JNull, c)))).
  destruct (fetch_matched G route url options cache p Hapi Hasset Hmut) as [Hout _].
  { apply (first_match_at _ 1); [reflexivity| |];
      destruct Hpath as [-> | ->]; reflexivity. }
  rewrite Hout. clear Hout. unfold route.
  cbn [List.nth MOCK_ROUTES Route.handler]. unfold drawing_handler.
  rewrite Htable, Hacc. rewrite !bind_run. cbn [fst ret].
  unfold num_field, set_field, field. rewrite Hbal.
  rewrite (prop_set_prop_other "balance" "pnl_today") by discriminate.
  rewrite Hpnl.
  assert (H5 : (lit (num:=Q) (-5) < lit 5)%Q) by reflexivity.
  assert (H2 : (lit (num:=Q) (-2) < lit 2)%Q) by reflexivity.
  match goal with
  | |- context [rand (num:=Q) (lit (-5)) (lit 5) ?q0] =>
      pose proof (rand_range (lit (-5)) (lit 5) q0 H5) as Hb; revert Hb;
      generalize (fst (rand (num:=Q) (lit (-5)) (lit 5) q0))
  end.
  intros db [Hb1 Hb2].
  match goal with
  | |- context [rand (num:=Q) (lit (-2)) (lit 2) ?q0] =>
      pose proof (rand_range (lit (-2)) (lit 2) q0 H2) as Hp; revert Hp;
      generalize (fst (rand (num:=Q) (lit (-2)) (lit 2) q0))
  end.
  intros dp [Hp1 Hp2].
  eexists. exists (round2 (balance + db)%Q), (round2 (pnl_today + dp)%Q).
  split; [reflexivity|].
  split; [rewrite (prop_set_prop_other "pnl_today" "balance") by discriminate;
          apply prop_set_prop_same|].
  split.
  { pose proof (round2_near (balance + db)) as Hnear.
    change (lit (-5)) with (-5)%Q in Hb1. change (lit 5) with 5%Q in Hb2.
    revert Hnear. apply Qabs_case; intros Hs1; apply Qabs_case; intros Hs2 Hnear; lra. }
  split; [apply prop_set_prop_same|].
  split.
  { pose proof (round2_near (pnl_today + dp)) as Hnear.
    change (lit (-2)) with (-2)%Q in Hp1. change (lit 2) with 2%Q in Hp2.
    revert Hnear. apply Qabs_case; intros Hs1; apply Qabs_case; intros Hs2 Hnear; lra. }
  intros key Hk1 Hk2.
  rewrite !prop_set_prop_other by assumption. reflexivity.
Qed.

End StatsRoute.

Lemma stats_jitter_bounded_witness :
  let host := host_of mixed_bits in
  exists (served : list (string * json Q)) (b q : Q),
    Fetched.outcome
      (fst (fst (fetch excerpt_globals "/api/stats/accurate" None ∅ 0%nat)))
    = answered demo_headers (BJson (JObj served)) /\
    prop served "balance" = Some (JNum b) /\
    (Qabs (b - (154205 # 10)) <= 5 + (1 # 200))%Q /\
    prop served "pnl_today" = Some (JNum q) /\
    (Qabs (q - (3124 # 10)) <= 2 + (1 # 200))%Q /\
    (forall key, key <> "balance" -> key <> "pnl_today" ->
                 prop served key
                 = prop [("balance", JNum (154205 # 10)); ("initial_balance", JNum 10000%Q);
                         ("pnl_today", JNum (3124 # 10))] key).
Proof.
  intros host.
  apply (stats_jitter_bounded excerpt_globals "/api/stats/accurate" None ∅ 0
           [("balance", JNum (154205 # 10)); ("initial_balance", JNum 10000%Q);
            ("pnl_today", JNum (3124 # 10))] (154205 # 10) (3124 # 10));
    first [reflexivity | right; reflexivity].
Defined.

(** ** The XMLHttpRequest shim as an object *)

Section XhrObjectProperties.
Context {num : Type} `{Number num} `{Host}.
Variable G : Globals.t num.
Local Open Scope list_scope.

Import MockXHR.

Lemma xhr_step_sticky (c : XhrCall) (x : MockXHR.t num) (cache : Cache num) p :
  _intercepted x = true ->
  forallb (fun c => negb (is_real_send c)) (real x) = true ->
  _intercepted (fst (fst (xhr_step G c x cache p))) = true /\
  forallb (fun c => negb (is_real_send c))
    (real (fst (fst (xhr_step G c x cache p)))) = true.
Proof.
  intros Hi Hreal.
  destruct c; cbn [xhr_step]; unfold unless_intercepted;
    try (rewrite Hi; cbn [negb fst ret]; split; assumption).
  - cbn [fst ret]. unfold xhr_open. destruct (shouldIntercept url).
    + cbn [_intercepted real]. split; [reflexivity | exact Hreal].
    + unfold delegate. cbn [_intercepted real]. split; [exact Hi|].
      rewrite forallb_app, Hreal. reflexivity.
  - rewrite bind_run. unfold xhr_send_call. rewrite Hi. cbn [negb].
    rewrite bind_run. cbn [fst ret _intercepted real].
    split; first [assumption | reflexivity].
  - destruct (timers x); [cbn [fst ret]; split; assumption|].
    unfold xhr_on_timer. rewrite bind_run. cbn [fst ret _intercepted real].
    split; assumption.
Qed.

Lemma xhr_run_sticky (cs : list XhrCall) :
  forall (x : MockXHR.t num) (cache : Cache num) p,
    _intercepted x = true ->
    forallb (fun c => negb (is_real_send c)) (real x) = true ->
    _intercepted (fst (fst (xhr_run G cs x cache p))) = true /\
    forallb (fun c => negb (is_real_send c))
      (real (fst (fst (xhr_run G cs x cache p)))) = true.
Proof.
  induction cs as [|c cs IH]; intros x cache p Hi Hreal; cbn [xhr_run].
  - cbn [fst ret]. split; assumption.
  - rewrite bind_run.
    destruct (xhr_step_sticky c x cache p Hi Hreal) as [Hi' Hreal'].
    apply IH; assumption.
Qed.

(** X28: once a [MockXHR] has opened an address that the shim intercepts,
    it stays intercepted: whatever is called on it later, another [open]
    with an address of the pass-through list included, [send] never
    reaches the real request. *)
Theorem xhr_interception_sticks (method url : string) (cs : list XhrCall)
    (cache : Cache num) (p : nat) :
  shouldIntercept url = true ->
  let x := fst (fst (xhr_run G (XhrOpen method url :: cs) new_MockXHR cache p)) in
  _intercepted x = true /\
  forallb (fun c => negb (is_real_send c)) (real x) = true.
Proof.
  intros Hurl x. unfold x. cbn [xhr_run]. rewrite bind_run.
  cbn [xhr_step fst snd ret]. apply xhr_run_sticky.
  - unfold xhr_open. rewrite Hurl. reflexivity.
  - unfold xhr_open. rewrite Hurl. reflexivity.
Qed.

(** The calls aside leave an intercepted request as it is. *)
Lemma xhr_run_asides (cs : list XhrCall) (x : MockXHR.t num) (cache : Cache num) p :
  _intercepted x = true -> forallb is_aside cs = true ->
  xhr_run G cs x cache p = (x, cache, p).
Proof.
  intros Hi. revert p. induction cs as [|c cs IH]; intros p Hcs; cbn [xhr_run].
  - reflexivity.
  - cbn [forallb] in Hcs. apply andb_prop in Hcs as [Hc Hcs].
    rewrite bind_run.
    assert (Hstep : xhr_step G c x cache p = (x, cache, p)).
    { destruct c; try discriminate Hc; cbn [xhr_step]; unfold unless_intercepted;
        rewrite Hi; reflexivity. }
    rewrite Hstep. cbn [fst snd]. apply IH, Hcs.
Qed.

Lemma xhr_run_app (cs cs' : list XhrCall) (x : MockXHR.t num) (cache : Cache num) p :
  xhr_run G (cs ++ cs') x cache p
  = xhr_run G cs' (fst (fst (xhr_run G cs x cache p)))
      (snd (fst (xhr_run G cs x cache p))) (snd (xhr_run G cs x cache p)).
Proof.
  revert x cache p. induction cs as [|c cs IH]; intros x cache p;
    cbn [xhr_run app].
  - reflexivity.
  - rewrite !bind_run. apply IH.
Qed.

(** X29: an intercepted request that is sent completes when its timer
    fires, whatever was called in between short of another [open] or
    [send] ([abort()] included, which cancels nothing): the object is then
    in state 4 with status 200, it has called [onreadystatechange] and
    then [onload], once each, the real request has not been touched, and
    the body and the cache are those of [xhr_send], the delay that of its
    draw. *)
Theorem xhr_completes (method url : string) (asides : list XhrCall)
    (cache : Cache num) (p : nat) :
  shouldIntercept url = true ->
  forallb is_aside asides = true ->
  let r := fst (xhr_run G (XhrOpen method url :: XhrSend :: asides ++ [XhrTimer])
                  new_MockXHR cache p) in
  let sent := fst (xhr_send G method url cache p) in
  readyState (fst r) = 4 /\ status (fst r) = 200 /\
  responseText (fst r) = Some (snd (fst sent)) /\
  fired (fst r) = [EvReadyStateChange; EvLoad] /\
  real (fst r) = [] /\ timers (fst r) = [] /\
  snd r = snd sent.
Proof.
  intros Hurl Hasides r sent. unfold r, sent.
  cbn [xhr_run]. rewrite !bind_run. cbn [xhr_step fst snd ret].
  unfold xhr_open, new_MockXHR. rewrite Hurl. rewrite bind_run.
  unfold xhr_send_call. cbn [_intercepted negb]. rewrite bind_run.
  cbn [fst snd ret _url _method readyState status statusText responseText real
       timers fired app].
  rewrite xhr_run_app.
  rewrite (xhr_run_asides asides) by (try reflexivity; exact Hasides).
  cbn [fst snd xhr_run]. rewrite bind_run.
  cbn [xhr_step timers].
  unfold xhr_on_timer, xhr_send, xhr_send_with.
  cbn [_url _method]. rewrite !bind_run.
  destruct (first_match (MOCK_ROUTES G) (pathname_of url) url) as [route|];
    [rewrite !bind_run|];
    cbn [fst snd ret _intercepted _url _method readyState status statusText
         responseText real timers fired List.tl app];
    repeat split.
Qed.

End XhrObjectProperties.

Lemma xhr_interception_sticks_witness :
  let host := host_of mixed_bits in
  let x := fst (fst (xhr_run (blank_globals Q)
                       [XhrOpen "GET" "/api/trades";
                        XhrOpen "GET" "https://api.binance.com/api/v3/ticker";
                        XhrSend; XhrTimer]
                       (new_MockXHR (num:=Q)) ∅ 0%nat)) in
  MockXHR._intercepted x = true /\
  forallb (fun c => negb (is_real_send c)) (MockXHR.real x) = true.
Proof.
  intros host.
  apply (xhr_interception_sticks (blank_globals Q) "GET" "/api/trades"
           [XhrOpen "GET" "https://api.binance.com/api/v3/ticker"; XhrSend; XhrTimer]
           ∅ 0).
  reflexivity.
Defined.

Lemma xhr_completes_witness :
  let host := host_of mixed_bits in
  let r := fst (xhr_run (blank_globals Q)
                  (XhrOpen "POST" "/api/drift" :: XhrSend
                   :: [XhrSetRequestHeader "Accept" "application/json"; XhrAbort]
                      ++ [XhrTimer])
                  (new_MockXHR (num:=Q)) ∅ 0%nat) in
  let sent := fst (xhr_send (blank_globals Q) "POST" "/api/drift" ∅ 0%nat) in
  MockXHR.readyState (fst r) = 4 /\ MockXHR.status (fst r) = 200 /\
  MockXHR.responseText (fst r) = Some (snd (fst sent)) /\
  MockXHR.fired (fst r) = [EvReadyStateChange; EvLoad] /\
  MockXHR.real (fst r) = [] /\ MockXHR.timers (fst r) = [] /\
  snd r = snd sent.
Proof.
  intros host.
  apply (xhr_completes (blank_globals Q) "POST" "/api/drift"
           [XhrSetRequestHeader "Accept" "application/json"; XhrAbort] ∅ 0);
    reflexivity.
Defined.

(** ** The positions of the module *)

Section ModulePositions.
Context `{Host}.

(** X30: whatever is drawn, the module serves three crypto positions and
    two HIP-3 positions, the views of the open records of its two ledgers;
    the liquidation price of each is strictly below its entry price when
    it is long and strictly above when it is short. *)
Theorem module_positions_served (p : nat) :
  let crypto := tradesAsPositions (fst (CRYPTO_TRADES (num:=Q) p)) in
  let hip3 := tradesAsPositions (fst (HIP3_TRADES (num:=Q) p)) in
  List.length crypto = 3%nat /\ List.length hip3 = 2%nat /\
  List.Forall liquidation_beyond_entry crypto /\
  List.Forall liquidation_beyond_entry hip3.
Proof.
  cbn zeta. destruct (module_ledgers_open (num:=Q) p) as (_ & _ & Hc & Hh).
  split; [exact Hc|]. split; [exact Hh|].
  split; apply List.Forall_forall; intros pos Hin;
    apply (module_positions_liquidation p); [left | right]; exact Hin.
Qed.

End ModulePositions.
